(** * Shallow embedding of m1n1's UART proxy and stage-2 page-table code
    (src/uartproxy.c), with the properties of its specification. *)

From Stdlib Require Import ZArith Lia List.
From Stdlib.Strings Require Import Byte.
From stdpp Require Import base option list gmap.

Local Open Scope Z_scope.

(* ===================================================================== *)
(** * Part I: definitions *)
(* ===================================================================== *)

(** ** Machine integers

    C's [u8], [u32] and [u64] values are integers of [Z]; every operation
    that can leave the range is followed by its wrap-around. *)

Definition u8 (z : Z) : Z := z mod 2 ^ 8.
Definition u32 (z : Z) : Z := z mod 2 ^ 32.
Definition u64 (z : Z) : Z := z mod 2 ^ 64.

(** Modelled from the spec: utils.h is not among the sources.  [BIT],
    [MASK], [GENMASK], [FIELD_PREP] and [FIELD_GET] are the bit-field
    helpers that give the PTE layout of the specification (a field is named
    by its mask, its value is shifted to the lowest set bit of the mask). *)
Definition BIT (x : Z) : Z := Z.shiftl 1 x.
Definition MASK (x : Z) : Z := BIT x - 1.
Definition GENMASK (msb lsb : Z) : Z := Z.shiftl (BIT (msb + 1 - lsb) - 1) lsb.
Definition FIELD_LSB (field : Z) : Z := Z.land field (Z.lnot (field - 1)).
Definition FIELD_PREP (field val : Z) : Z := u64 (val * FIELD_LSB field).
Definition FIELD_GET (field val : Z) : Z := Z.land val field / FIELD_LSB field.

(** Modelled from the spec: utils.h is not among the sources.  The level
    selection of the specification goes "up to the next L3 (L2) boundary",
    so [ALIGN_UP x m] and [ALIGN_DOWN x m], which the code calls with the
    low-bit mask [m = MASK n], round to a multiple of [m + 1]. *)
Definition ALIGN_UP (x m : Z) : Z := Z.land (u64 (x + m)) (u64 (Z.lnot m)).
Definition ALIGN_DOWN (x m : Z) : Z := Z.land x (u64 (Z.lnot m)).
Definition min (a b : Z) : Z := if a <? b then a else b.

(** ** Bytes *)

Definition byte_to_Z (b : byte) : Z := Z.of_N (Byte.to_N b).
Definition Z_to_byte (z : Z) : byte :=
  default x00 (Byte.of_N (Z.to_N (z mod 256))).

(** Little-endian image of an integer field, and its value. *)
Fixpoint le_bytes (n : nat) (z : Z) : list byte :=
  match n with
  | O => []
  | S n' => Z_to_byte z :: le_bytes n' (z / 256)
  end.

Fixpoint le_val (l : list byte) : Z :=
  match l with
  | [] => 0
  | b :: l' => byte_to_Z b + 256 * le_val l'
  end.

(** ** Checksum (uartproxy.c, lines 67-103)

    [checksum_block start length init] is given the [length] bytes found at
    [start] as a list. *)

Definition CHECKSUM_INIT : Z := 0xDEADBEEF.
Definition CHECKSUM_FINAL : Z := 0xADDEDBAD.

Fixpoint checksum_block (d : list byte) (init : Z) : Z :=
  match d with
  | [] => init
  | b :: d' =>
      let sum := u32 (init * 31337) in
      let sum := u32 (sum + Z.lxor (byte_to_Z b) 0x5A) in
      checksum_block d' sum
  end.

Definition checksum_start (d : list byte) : Z := checksum_block d CHECKSUM_INIT.
Definition checksum_add (d : list byte) (sum : Z) : Z := checksum_block d sum.
Definition checksum_finish (sum : Z) : Z := Z.lxor sum CHECKSUM_FINAL.
Definition checksum (d : list byte) : Z := checksum_finish (checksum_start d).

(** ** Observable effects

    Output to the I/O devices, accesses to device memory, calls of hooks and
    writes of ELR_EL2 are recorded, in program order, in a trace. *)

Inductive effect : Type :=
  | IoWrite (dev : Z) (data : list byte)       (* iodev_write *)
  | IoQueue (dev : Z) (data : list byte)       (* iodev_queue *)
  | IoFlush (dev : Z)                          (* iodev_flush *)
  | MmioWrite (width paddr val : Z)            (* write8/16/32/64 *)
  | MmioRead (width paddr : Z)                 (* read8/16/32/64 *)
  | HookCall (target ipa val : Z) (is_write : bool) (width : Z)
  | ExcProxy (flags id addr data : Z)          (* hv_exc_proxy, VM hook *)
  | MsrElr (v : Z).                            (* msr(ELR_EL2, v) *)

(** ** UART proxy state *)

Definition REQ_SIZE : Z := 64.
Definition REPLY_SIZE : Z := 36.

Definition REQ_NOP : Z := 0x00AA55FF.
Definition REQ_PROXY : Z := 0x01AA55FF.
Definition REQ_MEMREAD : Z := 0x02AA55FF.
Definition REQ_MEMWRITE : Z := 0x03AA55FF.
Definition REQ_BOOT : Z := 0x04AA55FF.
Definition REQ_EVENT : Z := 0x05AA55FF.

Definition ST_OK : Z := 0.
Definition ST_BADCMD : Z := -1.
Definition ST_INVAL : Z := -2.
Definition ST_XFRERR : Z := -3.
Definition ST_CSUMERR : Z := -4.

(** The proxy's world: the bytes pending on every I/O device, the trace of
    effects so far, the byte-addressed memory the host may read and write
    (an address missing from the map faults), and the two globals of
    uartproxy.c. *)
Record up_state : Type := mk_up {
  rx : gmap Z (list byte);
  trace : list effect;
  mem : gmap Z byte;
  iodev_proxy_buffer : gmap Z Z;
  uartproxy_iodev : Z
}.

Definition set_rx (s : up_state) (r : gmap Z (list byte)) : up_state :=
  mk_up r (trace s) (mem s) (iodev_proxy_buffer s) (uartproxy_iodev s).
Definition set_trace (s : up_state) (t : list effect) : up_state :=
  mk_up (rx s) t (mem s) (iodev_proxy_buffer s) (uartproxy_iodev s).
Definition set_mem (s : up_state) (m : gmap Z byte) : up_state :=
  mk_up (rx s) (trace s) m (iodev_proxy_buffer s) (uartproxy_iodev s).
Definition set_buffer (s : up_state) (b : gmap Z Z) : up_state :=
  mk_up (rx s) (trace s) (mem s) b (uartproxy_iodev s).
Definition set_iodev (s : up_state) (d : Z) : up_state :=
  mk_up (rx s) (trace s) (mem s) (iodev_proxy_buffer s) d.

Definition rx_of (s : up_state) (dev : Z) : list byte := default [] (rx s !! dev).
Definition buffer_of (s : up_state) (dev : Z) : Z :=
  default 0 (iodev_proxy_buffer s !! dev).

(** Modelled from the spec: iodev.c is not among the sources.  A device is
    a byte stream: [iodev_read] takes up to [n] pending bytes and returns
    those it got (a short read when fewer are pending), [iodev_can_read]
    tells whether a byte is pending, [iodev_write], [iodev_queue] and
    [iodev_flush] are recorded in the trace, [iodev_handle_events] has no
    effect on the stream. *)
Definition iodev_read (dev : Z) (n : Z) (s : up_state) : list byte * up_state :=
  let pending := rx_of s dev in
  (take (Z.to_nat n) pending,
   set_rx s (<[dev := drop (Z.to_nat n) pending]> (rx s))).
Definition iodev_can_read (dev : Z) (s : up_state) : bool :=
  match rx_of s dev with [] => false | _ => true end.
Definition emit (e : effect) (s : up_state) : up_state :=
  set_trace s (trace s ++ [e]).
Definition iodev_write (dev : Z) (data : list byte) (s : up_state) : up_state :=
  emit (IoWrite dev data) s.
Definition iodev_queue (dev : Z) (data : list byte) (s : up_state) : up_state :=
  emit (IoQueue dev data) s.
Definition iodev_flush (dev : Z) (s : up_state) : up_state :=
  emit (IoFlush dev) s.

(** Memory accesses of the proxy.  [read_mem] and [write_mem] are the
    unguarded accesses (result [None]: the access faults with the guard
    off); the guarded ones are written out where the code sets
    [exc_guard]. *)
Fixpoint read_mem (m : gmap Z byte) (addr : Z) (n : nat) : option (list byte) :=
  match n with
  | O => Some []
  | S n' =>
      match m !! addr with
      | Some b =>
          match read_mem m (u64 (addr + 1)) n' with
          | Some bs => Some (b :: bs)
          | None => None
          end
      | None => None
      end
  end.

Fixpoint write_mem (m : gmap Z byte) (addr : Z) (data : list byte)
  : option (gmap Z byte) :=
  match data with
  | [] => Some m
  | b :: data' =>
      match m !! addr with
      | Some _ => write_mem (<[addr := b]> m) (u64 (addr + 1)) data'
      | None => None
      end
  end.

(** [write8] under [GUARD_SKIP]: a faulting store is stepped over and
    counted in [exc_count]. *)
Definition write8_skip (addr : Z) (v : byte) (mc : gmap Z byte * Z)
  : gmap Z byte * Z :=
  match mc.1 !! addr with
  | Some _ => (<[addr := v]> mc.1, mc.2)
  | None => (mc.1, mc.2 + 1)
  end.

(** What is outside uartproxy.c: the identifiers of iodev.h, the proxy RPC
    layer, and the value left in [checksum_val] when the guarded checksum
    of MEMREAD is bailed out of by a fault. *)
Record up_env : Type := mk_up_env {
  IODEV_UART : Z;
  IODEV_MAX : Z;
  proxy_process : list byte -> up_state -> Z * list byte * up_state;
  bailed_checksum : Z -> Z -> Z
}.

(** ** Frames *)

Definition reply_payload_size : nat := 24.

(** The 36 bytes of a reply: type, status, 24 bytes of payload, checksum
    of the 32 bytes before it. *)
Definition reply_bytes (type status : Z) (payload : list byte) : list byte :=
  let body := le_bytes 4 type ++ le_bytes 4 status
              ++ take reply_payload_size (payload ++ replicate reply_payload_size x00) in
  body ++ le_bytes 4 (checksum body).

Definition reply_type (r : list byte) : Z := le_val (take 4 r).
Definition reply_status (r : list byte) : Z :=
  let v := le_val (take 4 (drop 4 r)) in
  if v <? 2 ^ 31 then v else v - 2 ^ 32.

(** Fields of a request, from the 60 bytes that follow the type on the
    wire: 56 bytes of payload (the union) and the checksum. *)
Definition req_payload (body : list byte) : list byte := take 56 body.
Definition req_checksum (body : list byte) : Z := le_val (drop 56 body).
Definition mrequest_addr (body : list byte) : Z := le_val (take 8 body).
Definition mrequest_size (body : list byte) : Z := le_val (take 8 (drop 8 body)).
Definition mrequest_dchecksum (body : list byte) : Z := le_val (take 4 (drop 16 body)).

Inductive ctl : Type :=
  | Continue                 (* next iteration of [while (running)] *)
  | Exit (ret : Z).          (* the function returns [ret] *)

(** ** uartproxy_run (lines 107-239) *)

(** REQ_MEMREAD (lines 191-201): status and data checksum of the reply. *)
Definition do_memread (env : up_env) (body : list byte) (s : up_state) : Z * Z :=
  let addr := mrequest_addr body in
  let size := mrequest_size body in
  if size =? 0 then (ST_OK, 0)
  else
    match read_mem (mem s) addr (Z.to_nat (u32 size)) with
    | Some d => (ST_OK, u32 (checksum d))
    | None => (ST_XFRERR, u32 (bailed_checksum env addr size))
    end.

(** REQ_MEMWRITE (lines 202-225).  [None]: the copy from the device faults
    with the guard off. *)
Definition do_memwrite (iodev : Z) (body : list byte) (s : up_state)
  : option (Z * Z * up_state) :=
  let addr := mrequest_addr body in
  let size := mrequest_size body in
  let exc_count := 0 in
  let '(m1, exc_count) :=
    if negb (size =? 0) then
      write8_skip (u64 (addr + size - 1)) x00
        (write8_skip addr x00 (mem s, exc_count))
    else (mem s, exc_count) in
  let s1 := set_mem s m1 in
  if negb (exc_count =? 0) then Some (ST_XFRERR, 0, s1)
  else
    let '(data, s2) := iodev_read iodev size s1 in
    match write_mem (mem s2) addr data with
    | None => None
    | Some m2 =>
        let s3 := set_mem s2 m2 in
        if negb (Z.of_nat (length data) =? size) then Some (ST_XFRERR, 0, s3)
        else
          match read_mem m2 addr (Z.to_nat (u32 size)) with
          | None => None
          | Some d =>
              let dchecksum := u32 (checksum d) in
              if negb (dchecksum =? mrequest_dchecksum body)
              then Some (ST_XFRERR, dchecksum, s3)
              else Some (ST_OK, dchecksum, s3)
          end
    end.

(** One request, once the type has been synchronised on [iodev]
    (lines 160-235).  [None]: an unguarded fault. *)
Definition uartproxy_request (env : up_env) (iodev : Z) (s : up_state)
  : option (ctl * up_state) :=
  let type := buffer_of s iodev in
  let '(body, s) := iodev_read iodev (REQ_SIZE - 4) s in
  if negb (Z.of_nat (length body) =? REQ_SIZE - 4) then Some (Continue, s)
  else if negb (checksum (le_bytes 4 type ++ req_payload body) =? req_checksum body)
  then Some (Continue, iodev_write iodev (reply_bytes type ST_CSUMERR []) s)
  else
    let s := set_iodev s iodev in
    let finish (running : ctl) (status : Z) (payload : list byte) (s : up_state) :=
      let s := iodev_write iodev (reply_bytes type status payload) s in
      if (type =? REQ_MEMREAD) && (status =? ST_OK) then
        match read_mem (mem s) (mrequest_addr body)
                (Z.to_nat (mrequest_size body)) with
        | Some d => Some (running, iodev_write iodev d s)
        | None => None
        end
      else Some (running, s) in
    if type =? REQ_NOP then finish Continue ST_OK [] s
    else if type =? REQ_PROXY then
      let '(ret, preply, s) := proxy_process env (req_payload body) s in
      finish (if ret =? 0 then Continue else Exit ret) ST_OK preply s
    else if type =? REQ_MEMREAD then
      let '(status, dchecksum) := do_memread env body s in
      finish Continue status (le_bytes 4 dchecksum) s
    else if type =? REQ_MEMWRITE then
      match do_memwrite iodev body s with
      | None => None
      | Some (status, dchecksum, s) =>
          finish Continue status (le_bytes 4 dchecksum) s
      end
    else finish Continue ST_BADCMD [] s.

(** The rolling 32-bit sync buffer takes one more byte (lines 137-138 and
    155-156). *)
Definition shift_in (buf : Z) (b : byte) : Z :=
  Z.lor (Z.shiftr buf 8) (u32 (Z.shiftl (byte_to_Z b) 24)).

Definition synced (buf : Z) : bool := Z.land buf 0xffffff =? 0xAA55FF.

(** The [do ... while] of lines 148-157, on the bytes pending on the current
    device: [(true, buf, rest)] when the fingerprint is seen, [(false, _, _)]
    when a read fails first. *)
Fixpoint sync_scan (buf : Z) (pending : list byte) : bool * Z * list byte :=
  match pending with
  | [] => (false, buf, [])
  | b :: rest =>
      let buf := shift_in buf b in
      if synced buf then (true, buf, rest) else sync_scan buf rest
  end.

Definition sync_current (iodev : Z) (s : up_state) : bool * up_state :=
  let '(ok, buf, rest) := sync_scan (buffer_of s iodev) (rx_of s iodev) in
  (ok, set_buffer (set_rx s (<[iodev := rest]> (rx s)))
         (<[iodev := buf]> (iodev_proxy_buffer s))).

(** The round-robin [for] of lines 133-145, which polls until a device
    shows the fingerprint; [None] when [fuel] polls did not suffice. *)
Fixpoint sync_any (env : up_env) (fuel : nat) (iodev : Z) (s : up_state)
  : option (Z * up_state) :=
  match fuel with
  | O => None
  | S fuel' =>
      if negb (iodev <? IODEV_MAX env) then Some (iodev, s)
      else
        let next (s : up_state) :=
          let iodev := iodev + 1 in
          let iodev := if iodev =? IODEV_MAX env then 0 else iodev in
          sync_any env fuel' iodev s in
        match rx_of s iodev with
        | [] => next s
        | b :: rest =>
            let buf := shift_in (buffer_of s iodev) b in
            let s := set_buffer (set_rx s (<[iodev := rest]> (rx s)))
                       (<[iodev := buf]> (iodev_proxy_buffer s)) in
            if synced buf then Some (iodev, s) else next s
        end
  end.

Inductive run_result : Type :=
  | Returned (ret : Z) (s : up_state)
  | Faulted                       (* unguarded fault in a request *)
  | Polling.                      (* still in the loop when the fuel ran out *)

Inductive iteration_result : Type :=
  | Iterated (c : ctl) (iodev : Z) (s : up_state)
  | IterFaulted
  | IterPolling.

(** One iteration of [while (running)] (lines 130-236): synchronise, then
    serve the request.  [start] tells whether the proxy was entered with a
    start message (an exception or a hook), in which case it sticks to
    [iodev]. *)
Definition uartproxy_iteration (env : up_env) (fuel : nat) (start : bool)
  (iodev : Z) (s : up_state) : iteration_result :=
  let serve (iodev : Z) (s : up_state) :=
    match uartproxy_request env iodev s with
    | None => IterFaulted
    | Some (c, s) => Iterated c iodev s
    end in
  if start then
    let '(ok, s) := sync_current iodev s in
    if ok then serve iodev s else Iterated (Exit (-1)) iodev s
  else
    match sync_any env fuel 0 s with
    | None => IterPolling
    | Some (iodev, s) => serve iodev s
    end.

Fixpoint uartproxy_loop (env : up_env) (fuel : nat) (start : bool) (iodev : Z)
  (s : up_state) : run_result :=
  match fuel with
  | O => Polling
  | S fuel' =>
      match uartproxy_iteration env fuel start iodev s with
      | Iterated Continue iodev s => uartproxy_loop env fuel' start iodev s
      | Iterated (Exit ret) _ s => Returned ret s
      | IterFaulted => Faulted
      | IterPolling => Polling
      end
  end.

Definition uartproxy_run (env : up_env) (fuel : nat) (start : option (list byte))
  (s : up_state) : run_result :=
  match start with
  | None =>
      let s := iodev_write (IODEV_UART env) (reply_bytes REQ_BOOT 0 []) s in
      uartproxy_loop env fuel false (IODEV_MAX env) s
  | Some msg =>
      let iodev := uartproxy_iodev s in
      let s := iodev_write iodev (reply_bytes REQ_BOOT 0 msg) s in
      uartproxy_loop env fuel true iodev s
  end.

(** ** uartproxy_send_event (lines 241-255) *)

Definition event_hdr (event_type len : Z) : list byte :=
  le_bytes 4 REQ_EVENT ++ le_bytes 2 len ++ le_bytes 2 event_type.

Definition send_event_effects (dev : Z) (event_type : Z) (data : list byte)
  : list effect :=
  let hdr := event_hdr event_type (Z.of_nat (length data)) in
  let csum := checksum_start hdr in
  let csum := checksum_finish (checksum_add data csum) in
  [IoQueue dev hdr; IoQueue dev data; IoWrite dev (le_bytes 4 csum)].

Definition uartproxy_send_event (event_type : Z) (data : list byte) (s : up_state)
  : up_state :=
  set_trace s (trace s ++ send_event_effects (uartproxy_iodev s) event_type data).

(** ** Stage-2 page table (lines 271-682) *)

Definition PAGE_SIZE : Z := 0x4000.

Definition PTE_ACCESS : Z := BIT 10.
Definition PTE_SH_NS : Z := Z.shiftl 3 8.
Definition PTE_S2AP_RW : Z := Z.shiftl 3 6.
Definition PTE_MEMATTR_UNCHANGED : Z := Z.shiftl 15 2.
Definition PTE_ATTRIBUTES : Z :=
  Z.lor (Z.lor (Z.lor PTE_ACCESS PTE_SH_NS) PTE_S2AP_RW) PTE_MEMATTR_UNCHANGED.
Definition PTE_LOWER_ATTRIBUTES : Z := GENMASK 13 2.

Definition PTE_VALID : Z := BIT 0.
Definition PTE_TYPE : Z := BIT 1.
Definition PTE_BLOCK : Z := 0.
Definition PTE_TABLE : Z := 1.
Definition PTE_PAGE : Z := 1.

Definition VADDR_L4_INDEX_BITS : Z := 12.
Definition VADDR_L3_INDEX_BITS : Z := 11.
Definition VADDR_L2_INDEX_BITS : Z := 11.

Definition VADDR_L4_OFFSET_BITS : Z := 2.
Definition VADDR_L3_OFFSET_BITS : Z := 14.
Definition VADDR_L2_OFFSET_BITS : Z := 25.

Definition VADDR_BITS : Z := 36.

Definition VADDR_L2_ALIGN_MASK : Z :=
  GENMASK (VADDR_L2_OFFSET_BITS - 1) VADDR_L3_OFFSET_BITS.
Definition VADDR_L3_ALIGN_MASK : Z :=
  GENMASK (VADDR_L3_OFFSET_BITS - 1) VADDR_L4_OFFSET_BITS.
Definition PTE_TARGET_MASK : Z := GENMASK 49 VADDR_L3_OFFSET_BITS.
Definition PTE_TARGET_MASK_L4 : Z := GENMASK 49 VADDR_L4_OFFSET_BITS.

Definition ENTRIES_PER_L2_TABLE : Z := BIT VADDR_L2_INDEX_BITS.
Definition ENTRIES_PER_L3_TABLE : Z := BIT VADDR_L3_INDEX_BITS.
Definition ENTRIES_PER_L4_TABLE : Z := BIT VADDR_L4_INDEX_BITS.

Definition SPTE_TRACE_READ : Z := BIT 63.
Definition SPTE_TRACE_WRITE : Z := BIT 62.
Definition SPTE_SYNC_TRACE : Z := BIT 61.
Definition SPTE_TYPE : Z := GENMASK 52 50.
Definition SPTE_MAP : Z := 0.
Definition SPTE_HOOK : Z := 1.
Definition SPTE_PROXY_HOOK_R : Z := 2.
Definition SPTE_PROXY_HOOK_W : Z := 3.
Definition SPTE_PROXY_HOOK_RW : Z := 4.

(** [x & ~m] on 64-bit words. *)
Definition andn (x m : Z) : Z := Z.land x (Z.lnot m).

Definition nonzero (x : Z) : bool := negb (x =? 0).

Definition IS_HW (pte : Z) : bool := nonzero pte && nonzero (Z.land pte PTE_VALID).
Definition IS_SW (pte : Z) : bool := nonzero pte && negb (nonzero (Z.land pte PTE_VALID)).

Definition L2_IS_TABLE (pte : Z) : bool :=
  nonzero pte && (FIELD_GET PTE_TYPE pte =? PTE_TABLE).
Definition L2_IS_NOT_TABLE (pte : Z) : bool := nonzero pte && negb (L2_IS_TABLE pte).
Definition L2_IS_HW_BLOCK (pte : Z) : bool :=
  IS_HW pte && (FIELD_GET PTE_TYPE pte =? PTE_BLOCK).
Definition L2_IS_SW_BLOCK (pte : Z) : bool :=
  IS_SW pte && (FIELD_GET PTE_TYPE pte =? PTE_BLOCK)
  && (FIELD_GET SPTE_TYPE pte =? SPTE_MAP).
Definition L3_IS_TABLE (pte : Z) : bool :=
  IS_SW pte && (FIELD_GET PTE_TYPE pte =? PTE_TABLE).
Definition L3_IS_NOT_TABLE (pte : Z) : bool := nonzero pte && negb (L3_IS_TABLE pte).
Definition L3_IS_HW_BLOCK (pte : Z) : bool :=
  IS_HW pte && (FIELD_GET PTE_TYPE pte =? PTE_PAGE).
Definition L3_IS_SW_BLOCK (pte : Z) : bool :=
  IS_SW pte && (FIELD_GET PTE_TYPE pte =? PTE_BLOCK)
  && (FIELD_GET SPTE_TYPE pte =? SPTE_MAP).

(** The root array [hv_L2], the L3 and L4 tables that are allocated, by
    their address, and the allocator's break. *)
Record pt_state : Type := mk_pt {
  hv_L2 : list Z;
  tables : gmap Z (list Z);
  brk : Z
}.

Definition set_L2 (s : pt_state) (l : list Z) : pt_state :=
  mk_pt l (tables s) (brk s).
Definition set_tables (s : pt_state) (t : gmap Z (list Z)) : pt_state :=
  mk_pt (hv_L2 s) t (brk s).

(** Page-table code runs in a state monad over [pt_state] that can fail:
    [None] is a failed [assert], or an access outside an array or through a
    pointer that is not an allocated table (undefined in C). *)
Definition PT (A : Type) : Type := pt_state -> option (A * pt_state).

Definition pt_ret {A : Type} (a : A) : PT A := fun s => Some (a, s).
Definition pt_bind {A B : Type} (m : PT A) (k : A -> PT B) : PT B :=
  fun s => match m s with
           | Some (a, s') => k a s'
           | None => None
           end.
Definition pt_assert (c : bool) : PT unit :=
  fun s => if c then Some (tt, s) else None.

Notation "'let*' x ':=' m 'in' k" := (pt_bind m (fun x => k))
  (at level 10, x name, m at level 100, k at level 200).
Notation "'let*' ' p ':=' m 'in' k" := (pt_bind m (fun p => k))
  (at level 10, p strict pattern, m at level 100, k at level 200).
Notation "m ';;' k" := (pt_bind m (fun _ => k))
  (at level 100, k at level 200, right associativity).

Definition L2_load (idx : Z) : PT Z :=
  fun s => match hv_L2 s !! Z.to_nat idx with
           | Some v => if 0 <=? idx then Some (v, s) else None
           | None => None
           end.
Definition L2_store (idx v : Z) : PT unit :=
  fun s => if (0 <=? idx) && (idx <? Z.of_nat (length (hv_L2 s)))
           then Some (tt, set_L2 s (<[Z.to_nat idx := v]> (hv_L2 s)))
           else None.

Definition tbl_load (p idx : Z) : PT Z :=
  fun s => match tables s !! p with
           | Some t =>
               match t !! Z.to_nat idx with
               | Some v => if 0 <=? idx then Some (v, s) else None
               | None => None
               end
           | None => None
           end.
Definition tbl_store (p idx v : Z) : PT unit :=
  fun s => match tables s !! p with
           | Some t =>
               if (0 <=? idx) && (idx <? Z.of_nat (length t))
               then Some (tt, set_tables s (<[p := <[Z.to_nat idx := v]> t]> (tables s)))
               else None
           | None => None
           end.

(** Modelled from the spec: malloc.c is not among the sources.  [memalign]
    returns the next block at the requested alignment above the break and
    [free] releases a block; blocks are not handed out twice. *)
Definition memalign (align size : Z) : PT Z :=
  fun s => let p := ALIGN_UP (brk s) (align - 1) in
           Some (p, mk_pt (hv_L2 s) (tables s) (p + size)).
Definition free (p : Z) : PT unit :=
  fun s => Some (tt, set_tables s (delete p (tables s))).

(** A table that was just allocated receives all its entries at once:
    [fill_table n d incr] is the loop [for (idx...; idx++, d += incr)
    l[idx] = d], and [memset64] the same with zeroes. *)
Fixpoint fill_table (n : nat) (d incr : Z) : list Z :=
  match n with
  | O => []
  | S n' => d :: fill_table n' (u64 (d + incr)) incr
  end.
Definition tbl_init (p : Z) (t : list Z) : PT unit :=
  fun s => Some (tt, set_tables s (<[p := t]> (tables s))).

Definition hv_pt_init : PT unit :=
  fun s => Some (tt, set_L2 s (replicate (Z.to_nat ENTRIES_PER_L2_TABLE) 0)).

Fixpoint free_l3_entries (l3 : list Z) : PT unit :=
  match l3 with
  | [] => pt_ret tt
  | e :: l3' =>
      (if IS_SW e && (FIELD_GET PTE_TYPE e =? PTE_TABLE)
       then free (Z.land e PTE_TARGET_MASK) else pt_ret tt);;
      free_l3_entries l3'
  end.

Definition hv_pt_free_l3 (l3 : Z) : PT unit :=
  if l3 =? 0 then pt_ret tt
  else fun s =>
    match tables s !! l3 with
    | Some t => (free_l3_entries t;; free l3) s
    | None => None
    end.

(** The loops [for (; size; size -= BIT(n))] run [size / BIT(n)] times when
    [size] is a multiple of the granule, which the asserts before them
    check; [fuel] is that number, and [None] is returned should it not
    suffice. *)
Fixpoint hv_pt_map_l2_loop (fuel : nat) (from to size incr : Z) : PT unit :=
  if size =? 0 then pt_ret tt
  else match fuel with
       | O => fun _ => None
       | S fuel' =>
           let idx := Z.shiftr from VADDR_L2_OFFSET_BITS in
           let* l2d := L2_load idx in
           (if L2_IS_TABLE l2d then hv_pt_free_l3 (Z.land l2d PTE_TARGET_MASK)
            else pt_ret tt);;
           L2_store idx to;;
           hv_pt_map_l2_loop fuel'
             (u64 (from + BIT VADDR_L2_OFFSET_BITS))
             (u64 (to + u64 (incr * BIT VADDR_L2_OFFSET_BITS)))
             (u64 (size - BIT VADDR_L2_OFFSET_BITS)) incr
       end.

Definition hv_pt_map_l2 (from to size incr : Z) : PT unit :=
  pt_assert (Z.land from (MASK VADDR_L2_OFFSET_BITS) =? 0);;
  pt_assert (IS_SW to ||
             (Z.land (Z.land to PTE_TARGET_MASK) (MASK VADDR_L2_OFFSET_BITS) =? 0));;
  pt_assert (Z.land size (MASK VADDR_L2_OFFSET_BITS) =? 0);;
  let to := Z.lor to (FIELD_PREP PTE_TYPE PTE_BLOCK) in
  hv_pt_map_l2_loop (Z.to_nat (Z.shiftr size VADDR_L2_OFFSET_BITS)) from to size incr.

Definition hv_pt_get_l3 (from : Z) : PT Z :=
  let l2idx := Z.shiftr from VADDR_L2_OFFSET_BITS in
  let* l2d := L2_load l2idx in
  if L2_IS_TABLE l2d then pt_ret (Z.land l2d PTE_TARGET_MASK)
  else
    let* l3 := memalign PAGE_SIZE (ENTRIES_PER_L3_TABLE * 8) in
    (if nonzero l2d then
       let incr := 0 in
       let l3d := l2d in
       let '(l3d, incr) :=
         if IS_HW l2d then
           (Z.lor (andn l3d PTE_TYPE) (FIELD_PREP PTE_TYPE PTE_PAGE),
            BIT VADDR_L3_OFFSET_BITS)
         else if IS_SW l2d && (FIELD_GET SPTE_TYPE l3d =? SPTE_MAP) then
           (l3d, BIT VADDR_L3_OFFSET_BITS)
         else (l3d, incr) in
       tbl_init l3 (fill_table (Z.to_nat ENTRIES_PER_L3_TABLE) l3d incr)
     else tbl_init l3 (replicate (Z.to_nat ENTRIES_PER_L3_TABLE) 0));;
    let l2d := Z.lor (Z.lor l3 (FIELD_PREP PTE_TYPE PTE_TABLE)) PTE_VALID in
    L2_store l2idx l2d;;
    pt_ret l3.

Fixpoint hv_pt_map_l3_loop (fuel : nat) (from to size incr : Z) : PT unit :=
  if size =? 0 then pt_ret tt
  else match fuel with
       | O => fun _ => None
       | S fuel' =>
           let idx := Z.land (Z.shiftr from VADDR_L3_OFFSET_BITS)
                        (MASK VADDR_L3_INDEX_BITS) in
           let* l3 := hv_pt_get_l3 from in
           let* l3d := tbl_load l3 idx in
           (if L3_IS_TABLE l3d then free (Z.land l3d PTE_TARGET_MASK)
            else pt_ret tt);;
           tbl_store l3 idx to;;
           hv_pt_map_l3_loop fuel'
             (u64 (from + BIT VADDR_L3_OFFSET_BITS))
             (u64 (to + u64 (incr * BIT VADDR_L3_OFFSET_BITS)))
             (u64 (size - BIT VADDR_L3_OFFSET_BITS)) incr
       end.

Definition hv_pt_map_l3 (from to size incr : Z) : PT unit :=
  pt_assert (Z.land from (MASK VADDR_L3_OFFSET_BITS) =? 0);;
  pt_assert (IS_SW to ||
             (Z.land (Z.land to PTE_TARGET_MASK) (MASK VADDR_L3_OFFSET_BITS) =? 0));;
  pt_assert (Z.land size (MASK VADDR_L3_OFFSET_BITS) =? 0);;
  let to := if IS_HW to then Z.lor to (FIELD_PREP PTE_TYPE PTE_PAGE)
            else Z.lor to (FIELD_PREP PTE_TYPE PTE_BLOCK) in
  hv_pt_map_l3_loop (Z.to_nat (Z.shiftr size VADDR_L3_OFFSET_BITS)) from to size incr.

Definition hv_pt_get_l4 (from : Z) : PT Z :=
  let* l3 := hv_pt_get_l3 from in
  let l3idx := Z.land (Z.shiftr from VADDR_L3_OFFSET_BITS)
                 (MASK VADDR_L3_INDEX_BITS) in
  let* l3d := tbl_load l3 l3idx in
  if L3_IS_TABLE l3d then pt_ret (Z.land l3d PTE_TARGET_MASK)
  else
    let* l3d :=
      if IS_HW l3d then
        pt_assert (FIELD_GET PTE_TYPE l3d =? PTE_PAGE);;
        let l3d := Z.land l3d PTE_TARGET_MASK in
        pt_ret (Z.lor l3d (Z.lor (FIELD_PREP PTE_TYPE PTE_BLOCK)
                                 (FIELD_PREP SPTE_TYPE SPTE_MAP)))
      else pt_ret l3d in
    let* l4 := memalign PAGE_SIZE (ENTRIES_PER_L4_TABLE * 8) in
    (if nonzero l3d then
       let incr := 0 in
       let l4d := l3d in
       let l4d := andn l4d PTE_TYPE in
       let l4d := Z.lor l4d (FIELD_PREP PTE_TYPE PTE_PAGE) in
       let incr := if FIELD_GET SPTE_TYPE l4d =? SPTE_MAP
                   then BIT VADDR_L4_OFFSET_BITS else incr in
       tbl_init l4 (fill_table (Z.to_nat ENTRIES_PER_L4_TABLE) l4d incr)
     else tbl_init l4 (replicate (Z.to_nat ENTRIES_PER_L4_TABLE) 0));;
    let l3d := Z.lor l4 (FIELD_PREP PTE_TYPE PTE_TABLE) in
    tbl_store l3 l3idx l3d;;
    pt_ret l4.

Fixpoint hv_pt_map_l4_loop (fuel : nat) (from to size incr : Z) : PT unit :=
  if size =? 0 then pt_ret tt
  else match fuel with
       | O => fun _ => None
       | S fuel' =>
           let idx := Z.land (Z.shiftr from VADDR_L4_OFFSET_BITS)
                        (MASK VADDR_L4_INDEX_BITS) in
           let* l4 := hv_pt_get_l4 from in
           tbl_store l4 idx to;;
           hv_pt_map_l4_loop fuel'
             (u64 (from + BIT VADDR_L4_OFFSET_BITS))
             (u64 (to + u64 (incr * BIT VADDR_L4_OFFSET_BITS)))
             (u64 (size - BIT VADDR_L4_OFFSET_BITS)) incr
       end.

Definition hv_pt_map_l4 (from to size incr : Z) : PT unit :=
  pt_assert (Z.land from (MASK VADDR_L4_OFFSET_BITS) =? 0);;
  pt_assert (Z.land size (MASK VADDR_L4_OFFSET_BITS) =? 0);;
  pt_assert (negb (IS_HW to));;
  let to := if IS_SW to then Z.lor to (FIELD_PREP PTE_TYPE PTE_PAGE) else to in
  hv_pt_map_l4_loop (Z.to_nat (Z.shiftr size VADDR_L4_OFFSET_BITS)) from to size incr.

(** [hv_map] (lines 514-572); the result is the C return value. *)
Definition hv_map (from to size incr : Z) : PT Z :=
  let hw := IS_HW to in
  if nonzero (Z.land from (MASK VADDR_L4_OFFSET_BITS))
     || nonzero (Z.land size (MASK VADDR_L4_OFFSET_BITS))
  then pt_ret (-1)
  else if hw && (nonzero (Z.land from (MASK VADDR_L3_OFFSET_BITS))
                 || nonzero (Z.land size (MASK VADDR_L3_OFFSET_BITS)))
  then pt_ret (-1)
  else
    (* L4 mappings to boundary *)
    let chunk := min size (u64 (ALIGN_UP from (MASK VADDR_L3_OFFSET_BITS) - from)) in
    let* '(from, to, size) :=
      if nonzero chunk then
        pt_assert (negb hw);;
        hv_pt_map_l4 from to chunk incr;;
        pt_ret (u64 (from + chunk), u64 (to + u64 (incr * chunk)), u64 (size - chunk))
      else pt_ret (from, to, size) in
    (* L3 mappings to boundary *)
    let chunk :=
      ALIGN_DOWN (min size (u64 (ALIGN_UP from (MASK VADDR_L2_OFFSET_BITS) - from)))
        (MASK VADDR_L3_OFFSET_BITS) in
    let* '(from, to, size) :=
      if nonzero chunk then
        hv_pt_map_l3 from to chunk incr;;
        pt_ret (u64 (from + chunk), u64 (to + u64 (incr * chunk)), u64 (size - chunk))
      else pt_ret (from, to, size) in
    (* L2 mappings *)
    let chunk := ALIGN_DOWN size (MASK VADDR_L2_OFFSET_BITS) in
    let* '(from, to, size) :=
      if nonzero chunk && (negb hw || (Z.land to VADDR_L2_ALIGN_MASK =? 0)) then
        hv_pt_map_l2 from to chunk incr;;
        pt_ret (u64 (from + chunk), u64 (to + u64 (incr * chunk)), u64 (size - chunk))
      else pt_ret (from, to, size) in
    (* L3 mappings to end *)
    let chunk := ALIGN_DOWN size (MASK VADDR_L3_OFFSET_BITS) in
    let* '(from, to, size) :=
      if nonzero chunk then
        hv_pt_map_l3 from to chunk incr;;
        pt_ret (u64 (from + chunk), u64 (to + u64 (incr * chunk)), u64 (size - chunk))
      else pt_ret (from, to, size) in
    (* L4 mappings to end *)
    (if nonzero size then
       pt_assert (negb hw);;
       hv_pt_map_l4 from to size incr
     else pt_ret tt);;
    pt_ret 0.

Definition hv_unmap (from size : Z) : PT Z := hv_map from 0 size 0.

Definition hv_map_hw (from to size : Z) : PT Z :=
  hv_map from (Z.lor (Z.lor to PTE_ATTRIBUTES) PTE_VALID) size 1.

Definition hv_map_sw (from to size : Z) : PT Z :=
  hv_map from (Z.lor to (FIELD_PREP SPTE_TYPE SPTE_MAP)) size 1.

Definition hv_map_hook (from hook size : Z) : PT Z :=
  hv_map from (Z.lor hook (FIELD_PREP SPTE_TYPE SPTE_HOOK)) size 0.

Definition hv_map_proxy_hook (from id size : Z) : PT Z :=
  hv_map from (Z.lor (FIELD_PREP PTE_TARGET_MASK_L4 id)
                     (FIELD_PREP SPTE_TYPE SPTE_HOOK)) size 0.

(** [hv_pt_walk] (lines 645-682); [None] when the walk leaves the root array
    or follows a pointer that is not an allocated table. *)
Definition hv_pt_walk (addr : Z) (s : pt_state) : option Z :=
  let idx := Z.shiftr addr VADDR_L2_OFFSET_BITS in
  match hv_L2 s !! Z.to_nat idx with
  | None => None
  | Some l2d =>
      if negb (L2_IS_TABLE l2d) then
        let l2d :=
          if L2_IS_SW_BLOCK l2d || L2_IS_HW_BLOCK l2d
          then Z.lor l2d (Z.land addr (Z.lor VADDR_L2_ALIGN_MASK VADDR_L3_ALIGN_MASK))
          else l2d in
        Some l2d
      else
        let idx := Z.land (Z.shiftr addr VADDR_L3_OFFSET_BITS)
                     (MASK VADDR_L3_INDEX_BITS) in
        match tables s !! Z.land l2d PTE_TARGET_MASK with
        | None => None
        | Some l3 =>
            match l3 !! Z.to_nat idx with
            | None => None
            | Some l3d =>
                if negb (L3_IS_TABLE l3d) then
                  let l3d :=
                    if L3_IS_SW_BLOCK l3d
                    then Z.lor l3d (Z.land addr VADDR_L3_ALIGN_MASK) else l3d in
                  let l3d :=
                    if L3_IS_HW_BLOCK l3d
                    then Z.lor (andn l3d PTE_LOWER_ATTRIBUTES)
                               (Z.land addr VADDR_L3_ALIGN_MASK)
                    else l3d in
                  Some l3d
                else
                  let idx := Z.land (Z.shiftr addr VADDR_L4_OFFSET_BITS)
                               (MASK VADDR_L4_INDEX_BITS) in
                  match tables s !! Z.land l3d PTE_TARGET_MASK with
                  | None => None
                  | Some l4 => l4 !! Z.to_nat idx
                  end
            end
        end
  end.

(** ** Load and store emulation (lines 684-786) *)

Definition s32 (z : Z) : Z :=
  let z := u32 z in if z <? 2 ^ 31 then z else z - 2 ^ 32.

(** [EXT(n, b)]: the shifts are those of the macro, on 32 bits.  For [b]
    from 1 to 32 the count [32 - b] is in range.  For [b = 64] (a load with
    size bits 3 that is decoded as LDRS) the count is out of range, which C
    leaves undefined: the shift instructions of the target take the count
    modulo 32, and so does the model, which thus gives the low 32 bits of
    [n] sign-extended; no property below relies on that case. *)
Definition EXT (n b : Z) : Z :=
  let count := (32 - b) mod 32 in
  Z.shiftr (s32 (u32 (Z.shiftl (u32 n) count))) count.

(** The saved register frame [regs], by register number. *)
Definition reg (regs : gmap Z Z) (r : Z) : Z := default 0 (regs !! r).

(** [emulate_load regs insn val width]: [val] is [None] for the null
    pointer of the first call; the result carries the register frame and
    [*width]. *)
Definition emulate_load (regs : gmap Z Z) (insn : Z) (val : option Z)
  : bool * gmap Z Z * Z :=
  let Rt := Z.land insn 0x1f in
  let Rn := Z.land (Z.shiftr insn 5) 0x1f in
  let imm9 := u64 (EXT (Z.land (Z.shiftr insn 12) 0x1ff) 9) in
  let width := Z.shiftr insn 30 in
  let bail := (false, regs, width) in
  (* the tail shared by all forms: DECODE_OK; [writeback;] CHECK_RT; regs[Rt] = ... *)
  let commit (writeback : bool) (ext : bool) :=
    match val with
    | None => (true, regs, width)
    | Some v =>
        let regs := if writeback then <[Rn := u64 (reg regs Rn + imm9)]> regs
                    else regs in
        if Rt =? 31 then (true, regs, width)
        else
          let v := if ext then u64 (EXT v (Z.shiftl 8 width)) else v in
          (true, <[Rt := v]> regs, width)
    end in
  if Z.land insn 0x3fe00400 =? 0x38400400 then
    (* LDRx (immediate) Pre/Post-index *)
    if Rn =? 31 then bail else commit true false
  else if Z.land insn 0x3fc00000 =? 0x39400000 then
    (* LDRx (immediate) Unsigned offset *)
    commit false false
  else if Z.land insn 0x3fa00400 =? 0x38800400 then
    (* LDRSx (immediate) Pre/Post-index *)
    if Rn =? 31 then bail else commit true true
  else if Z.land insn 0x3fa00000 =? 0x39800000 then
    (* LDRSx (immediate) Unsigned offset *)
    commit false true
  else if Z.land insn 0x3fe04c00 =? 0x38604800 then
    (* LDRx (register) *)
    commit false false
  else if Z.land insn 0x3fa04c00 =? 0x38a04800 then
    (* LDRSx (register) *)
    commit false true
  else bail.

(** [emulate_store regs insn val width]: [val] is the caller's variable,
    left as it is when [Rt] is the zero register. *)
Definition emulate_store (regs : gmap Z Z) (insn : Z) (val : Z)
  : bool * gmap Z Z * Z * Z :=
  let Rt := Z.land insn 0x1f in
  let Rn := Z.land (Z.shiftr insn 5) 0x1f in
  let imm9 := u64 (EXT (Z.land (Z.shiftr insn 12) 0x1ff) 9) in
  let width := Z.shiftr insn 30 in
  let bail := (false, regs, val, width) in
  let fetch (regs : gmap Z Z) :=
    if Rt =? 31 then (true, regs, val, width)
    else (true, regs, reg regs Rt, width) in
  if Z.land insn 0x3fe00400 =? 0x38000400 then
    (* STRx (immediate) Pre/Post-index *)
    if Rn =? 31 then bail
    else fetch (<[Rn := u64 (reg regs Rn + imm9)]> regs)
  else if Z.land insn 0x3fc00000 =? 0x39000000 then
    (* STRx (immediate) Unsigned offset *)
    fetch regs
  else if Z.land insn 0x3fe04c00 =? 0x38204800 then
    (* STRx (register) *)
    fetch regs
  else bail.

(** ** Data-abort handler (lines 788-963) *)

(** Modelled from the spec: cpu_regs.h and hv.h are not among the sources.
    ESR.WnR is bit 6 of the syndrome; in the flags of an MMIO event bits 1:0
    are the width and bit 2 says write; the access sizes are 0 (8 bits) to
    3 (64 bits). *)
Definition ESR_ISS_DABORT_WnR : Z := BIT 6.
Definition MMIO_EVT_WIDTH : Z := GENMASK 1 0.
Definition MMIO_EVT_WRITE : Z := BIT 2.
Definition SAS_8B : Z := 0.
Definition SAS_16B : Z := 1.
Definition SAS_32B : Z := 2.
Definition SAS_64B : Z := 3.

(** What the handler calls outside this file: address translation (the AT
    instructions), the fetch of the instruction, reads of device memory,
    the in-hypervisor hooks (result: success and the new [*val]), the
    exception proxy (result: the register frame it leaves and [hook.data]),
    and the event number of hv.h. *)
Record hv_env : Type := mk_hv_env {
  hv_translate : Z -> bool -> bool -> Z;
  read32 : Z -> Z;
  mmio_read : Z -> Z -> Z;
  hook_call : Z -> Z -> Z -> bool -> Z -> bool * Z;
  hv_exc_proxy : gmap Z Z -> Z -> Z -> Z -> Z -> gmap Z Z * Z;
  EVT_MMIOTRACE : Z
}.

(** [struct hv_evt_mmiotrace], as laid out in the specification. *)
Definition mmiotrace_bytes (flags pc addr data : Z) : list byte :=
  le_bytes 4 flags ++ le_bytes 4 0 ++ le_bytes 8 pc ++ le_bytes 8 addr
  ++ le_bytes 8 data.

(** The value that [write8] ... [write64] store, by access size. *)
Definition trunc_width (width val : Z) : Z := val mod 2 ^ (Z.shiftl 8 width).

(** The trace event of lines 839-849 and 946-956, with the optional flush. *)
Definition trace_effects (env : hv_env) (iodev : Z) (pte : Z) (enabled : Z)
  (flags pc addr data : Z) : list effect :=
  if nonzero (Z.land pte enabled) then
    send_event_effects iodev (EVT_MMIOTRACE env) (mmiotrace_bytes flags pc addr data)
    ++ (if nonzero (Z.land pte SPTE_SYNC_TRACE) then [IoFlush iodev] else [])
  else [].

(** [hv_handle_dabort regs], given the page table, [uartproxy_iodev] and the
    system registers ESR_EL2, FAR_EL2 and ELR_EL2.  The result is the return
    value, the register frame and the effects in program order; [None] when
    the walk is undefined. *)
Definition hv_handle_dabort (env : hv_env) (pt : pt_state) (iodev : Z)
  (esr far elr : Z) (regs : gmap Z Z) : option (bool * gmap Z Z * list effect) :=
  let wnr := nonzero (Z.land esr ESR_ISS_DABORT_WnR) in
  let ipa := hv_translate env far true wnr in
  if ipa =? 0 then Some (false, regs, [])
  else if BIT VADDR_BITS <=? ipa then Some (false, regs, [])
  else
    match hv_pt_walk ipa pt with
    | None => None
    | Some pte =>
        if pte =? 0 then Some (false, regs, [])
        else if IS_HW pte then Some (false, regs, [])
        else
          let target := Z.land pte PTE_TARGET_MASK_L4 in
          let paddr := Z.lor target (Z.land far (MASK VADDR_L4_OFFSET_BITS)) in
          let elr_pa := hv_translate env elr false false in
          if elr_pa =? 0 then Some (false, regs, [])
          else
            let insn := u32 (read32 env elr_pa) in
            let val := 0 in
            let advance := [MsrElr (u64 (elr + 4))] in
            if wnr then
              let '(ok, regs, val, width) := emulate_store regs insn val in
              if negb ok then Some (false, regs, [])
              else
                let flags := Z.lor (FIELD_PREP MMIO_EVT_WIDTH width) MMIO_EVT_WRITE in
                let t := trace_effects env iodev pte SPTE_TRACE_WRITE
                           flags elr ipa val in
                let type := FIELD_GET SPTE_TYPE pte in
                if (type =? SPTE_PROXY_HOOK_R) || (type =? SPTE_MAP) then
                  let paddr := if type =? SPTE_PROXY_HOOK_R then ipa else paddr in
                  Some (true, regs,
                        t ++ [MmioWrite width paddr (trunc_width width val)] ++ advance)
                else if type =? SPTE_HOOK then
                  let '(ok, val') := hook_call env target ipa val true width in
                  let t := t ++ [HookCall target ipa val true width] in
                  if negb ok then Some (false, regs, t)
                  else Some (true, regs, t ++ advance)
                else if (type =? SPTE_PROXY_HOOK_RW) || (type =? SPTE_PROXY_HOOK_W) then
                  let id := FIELD_GET PTE_TARGET_MASK_L4 pte in
                  let '(regs, _) := hv_exc_proxy env regs flags id ipa val in
                  Some (true, regs, t ++ [ExcProxy flags id ipa val] ++ advance)
                else Some (false, regs, t)
            else
              let '(ok, regs, width) := emulate_load regs insn None in
              if negb ok then Some (false, regs, [])
              else
                let type := FIELD_GET SPTE_TYPE pte in
                let flags := FIELD_PREP MMIO_EVT_WIDTH width in
                let finish (regs : gmap Z Z) (val : Z) (t : list effect) :=
                  let t := t ++ trace_effects env iodev pte SPTE_TRACE_READ
                                  flags elr ipa val in
                  let '(ok, regs, _) := emulate_load regs insn (Some val) in
                  if negb ok then Some (false, regs, t)
                  else Some (true, regs, t ++ advance) in
                if (type =? SPTE_PROXY_HOOK_W) || (type =? SPTE_MAP) then
                  let paddr := if type =? SPTE_PROXY_HOOK_W then ipa else paddr in
                  let val := trunc_width width (mmio_read env width paddr) in
                  finish regs val [MmioRead width paddr]
                else if type =? SPTE_HOOK then
                  let val := 0 in
                  let '(ok, val) := hook_call env target ipa val false width in
                  let t := [HookCall target ipa 0 false width] in
                  if negb ok then Some (false, regs, t)
                  else finish regs val t
                else if (type =? SPTE_PROXY_HOOK_RW) || (type =? SPTE_PROXY_HOOK_R) then
                  let id := FIELD_GET PTE_TARGET_MASK_L4 pte in
                  let '(regs, data) := hv_exc_proxy env regs flags id ipa 0 in
                  finish regs data [ExcProxy flags id ipa 0]
                else Some (false, regs, [])
    end.

(** ** Notions used in the statements *)

(** The low [b] bits of [v] read as a two's complement number. *)
Definition sign_extend (b v : Z) : Z :=
  let m := v mod 2 ^ b in if m <? 2 ^ (b - 1) then m else m - 2 ^ b.

(** A request as the host frames it: type, 56 bytes of payload, checksum of
    these 60 bytes. *)
Definition mk_request (type : Z) (payload : list byte) : list byte :=
  let body := le_bytes 4 type ++ take 56 (payload ++ replicate 56 x00) in
  body ++ le_bytes 4 (checksum body).

Definition mrequest_payload (addr size dchecksum : Z) : list byte :=
  le_bytes 8 addr ++ le_bytes 8 size ++ le_bytes 4 dchecksum.

(** [frame] is a well-formed request of type [type] on the wire. *)
Definition valid_request (type : Z) (frame : list byte) : Prop :=
  length frame = 64%nat
  /\ take 4 frame = le_bytes 4 type
  /\ checksum (take 60 frame) = le_val (drop 60 frame).

(** One iteration of the proxy, sticking to [iodev], consumes the pending
    bytes down to [rest] and answers with a single reply, of status
    CSUMERR, after which nothing is written. *)
Definition rejects_with_csumerr (env : up_env) (fuel : nat) (iodev : Z)
  (s : up_state) (rest : list byte) : Prop :=
  exists (reply : list byte) (s2 : up_state),
    uartproxy_iteration env fuel true iodev s = Iterated Continue iodev s2
    /\ trace s2 = trace s ++ [IoWrite iodev reply]
    /\ length reply = 36%nat
    /\ reply_status reply = ST_CSUMERR
    /\ rx_of s2 iodev = rest.

(** The addresses of the region [[addr, addr + size)]. *)
Definition in_region (addr size a : Z) : Prop :=
  exists i : Z, 0 <= i < size /\ a = u64 (addr + i).

(** An environment with four devices, the UART first, whose RPC layer does
    nothing. *)
Definition demo_env : up_env :=
  mk_up_env 0 4 (fun _ s => (0, [], s)) (fun _ _ => 0).

(** Memory holding [n] bytes [b] from [addr] on. *)
Definition mem_fill (addr : Z) (n : nat) (b : byte) : gmap Z byte :=
  list_to_map ((fun i => (addr + Z.of_nat i, b)) <$> seq 0 n).

(** The values written to ELR_EL2 in a trace, and the effects that are
    output to an I/O device. *)
Definition elr_writes (t : list effect) : list Z :=
  flat_map (fun e => match e with MsrElr v => [v] | _ => [] end) t.

Definition is_io (e : effect) : bool :=
  match e with
  | IoWrite _ _ | IoQueue _ _ | IoFlush _ => true
  | _ => false
  end.

(** An environment for the abort handler: the MMU is off, the instruction
    at every address is [insn], device memory reads as zero, hooks succeed
    and the host answers a proxy hook with zero. *)
Definition demo_hv_env (insn : Z) : hv_env :=
  mk_hv_env (fun addr _ _ => addr) (fun _ => insn) (fun _ _ => 0)
    (fun _ _ val _ _ => (true, val)) (fun regs _ _ _ _ => (regs, 0)) 1.

(** The page table after [hv_pt_init] and [m], from an empty heap at
    0x10000000; [None] should [m] fail. *)
Definition pt_after {A : Type} (m : PT A) : option pt_state :=
  match (hv_pt_init;; m) (mk_pt [] ∅ 0x10000000) with
  | Some (_, s) => Some s
  | None => None
  end.

(** ** Invariant of the page table under hardware mappings

    The shapes of the entries that [hv_map_hw] leaves: a hardware block or
    page descriptor for the target [t], and a pointer that fits the TARGET
    field. *)
Definition hw_block (e t : Z) : Prop :=
  e = t + 0x7FD /\ t mod 2 ^ 25 = 0 /\ 0 <= t < 2 ^ 50.
Definition hw_page (e t : Z) : Prop :=
  e = t + 0x7FF /\ t mod 2 ^ 14 = 0 /\ 0 <= t < 2 ^ 50.
Definition ptr_ok (p : Z) : Prop := p mod 2 ^ 14 = 0 /\ 0 <= p < 2 ^ 50.

Definition l3_ok (t : list Z) : Prop :=
  length t = 2048%nat
  /\ forall (j : nat) (e : Z), t !! j = Some e -> e = 0 \/ exists tg, hw_page e tg.

Definition l2_entry_ok (s : pt_state) (e : Z) : Prop :=
  e = 0
  \/ (exists tg, hw_block e tg)
  \/ (exists (p : Z) (t : list Z),
        e = p + 3 /\ ptr_ok p /\ p + 2 ^ 14 <= brk s
        /\ tables s !! p = Some t /\ l3_ok t).

(** The root array has its 2048 entries, each of them is empty, a hardware
    block or the pointer to an allocated L3 table below the break that
    holds hardware pages only, and no two entries point to the same
    table. *)
Record pt_inv (s : pt_state) : Prop := mk_pt_inv {
  inv_len : length (hv_L2 s) = 2048%nat;
  inv_brk : 0 <= brk s <= 2 ^ 50;
  inv_l2 : forall (i : nat) (e : Z), hv_L2 s !! i = Some e -> l2_entry_ok s e;
  inv_inj : forall (i j : nat) (e : Z),
      hv_L2 s !! i = Some e -> hv_L2 s !! j = Some e -> e mod 4 = 3 -> i = j
}.

(** [pte] is a valid descriptor whose TARGET field is [target]. *)
Definition good_pte (pte target : Z) : Prop :=
  Z.land pte PTE_VALID = 1 /\ Z.land pte PTE_TARGET_MASK = target.

(** The walk of [ipa] ends on a valid descriptor for [target]. *)
Definition walks_to (s : pt_state) (ipa target : Z) : Prop :=
  exists pte : Z, hv_pt_walk ipa s = Some pte /\ good_pte pte target.

(** The address the allocator hands out next. *)
Definition next_ptr (s : pt_state) : Z := ALIGN_UP (brk s) (PAGE_SIZE - 1).

(* ===================================================================== *)
(** * Part II: properties *)
(* ===================================================================== *)

(** ** Bytes and little-endian fields *)

Lemma byte_to_Z_range (b : byte) : 0 <= byte_to_Z b < 256.
Proof.
  unfold byte_to_Z. pose proof (Byte.to_N_bounded b). lia.
Qed.

Lemma Z_to_byte_to_Z (b : byte) : Z_to_byte (byte_to_Z b) = b.
Proof.
  unfold Z_to_byte, byte_to_Z. pose proof (Byte.to_N_bounded b).
  rewrite Z.mod_small by lia. rewrite N2Z.id, Byte.of_to_N. reflexivity.
Qed.

Lemma byte_to_Z_to_byte (z : Z) : byte_to_Z (Z_to_byte z) = z mod 256.
Proof.
  unfold Z_to_byte, byte_to_Z.
  assert (Hr : 0 <= z mod 256 < 256) by (apply Z.mod_pos_bound; lia).
  destruct (Byte.of_N (Z.to_N (z mod 256))) as [b|] eqn:E.
  - apply Byte.to_of_N in E. simpl. rewrite E. lia.
  - exfalso. pose proof (Byte.to_of_N_option_map (Z.to_N (z mod 256))) as H.
    rewrite E in H. simpl in H.
    destruct (N.leb_spec (Z.to_N (z mod 256)) 255); [discriminate | lia].
Qed.

Lemma byte_to_Z_inj (a b : byte) : byte_to_Z a = byte_to_Z b -> a = b.
Proof.
  intros H. rewrite <- (Z_to_byte_to_Z a), <- (Z_to_byte_to_Z b). now rewrite H.
Qed.

Lemma le_val_range (l : list byte) : 0 <= le_val l < 256 ^ Z.of_nat (length l).
Proof.
  induction l as [|b l IH]; simpl le_val.
  - simpl. lia.
  - pose proof (byte_to_Z_range b).
    change (length (b :: l)) with (S (length l)).
    rewrite Nat2Z.inj_succ, Z.pow_succ_r by lia. lia.
Qed.

Lemma le_bytes_le_val (l : list byte) : le_bytes (length l) (le_val l) = l.
Proof.
  induction l as [|b l IH]; simpl; [reflexivity|].
  pose proof (byte_to_Z_range b).
  f_equal.
  - rewrite <- (Z_to_byte_to_Z b) at 2. unfold Z_to_byte.
    replace ((byte_to_Z b + 256 * le_val l) mod 256) with (byte_to_Z b mod 256).
    + reflexivity.
    + rewrite (Z.mul_comm 256), Z.mod_add by lia. reflexivity.
  - replace ((byte_to_Z b + 256 * le_val l) / 256) with (le_val l); [exact IH|].
    rewrite (Z.mul_comm 256), Z.div_add by lia.
    rewrite Z.div_small by lia. lia.
Qed.

Lemma le_val_le_bytes (n : nat) (z : Z) :
  le_val (le_bytes n z) = z mod 256 ^ Z.of_nat n.
Proof.
  revert z. induction n as [|n IH]; intros z.
  - simpl. now rewrite Z.mod_1_r.
  - simpl le_bytes. simpl le_val. rewrite IH, byte_to_Z_to_byte.
    rewrite Nat2Z.inj_succ, Z.pow_succ_r by lia.
    rewrite Z.rem_mul_r by lia. reflexivity.
Qed.

Lemma length_le_bytes (n : nat) (z : Z) : length (le_bytes n z) = n.
Proof. revert z. induction n; intros; simpl; [|rewrite IHn]; reflexivity. Qed.

Lemma le_val_inj (l1 l2 : list byte) :
  length l1 = length l2 -> le_val l1 = le_val l2 -> l1 = l2.
Proof.
  intros Hl Hv. rewrite <- (le_bytes_le_val l1), <- (le_bytes_le_val l2).
  now rewrite Hl, Hv.
Qed.

(** ** Checksum *)

Lemma checksum_block_app (b c : list byte) (init : Z) :
  checksum_block (b ++ c) init = checksum_block c (checksum_block b init).
Proof.
  revert init. induction b as [|x b IH]; intros init; simpl; [reflexivity|].
  apply IH.
Qed.

Lemma checksum_step_eq (s : Z) (x : byte) :
  u32 (u32 (s * 31337) + Z.lxor (byte_to_Z x) 0x5A)
  = (s * 31337 + Z.lxor (byte_to_Z x) 0x5A) mod 2 ^ 32.
Proof. unfold u32. now rewrite Zplus_mod_idemp_l. Qed.

Lemma checksum_block_range (d : list byte) (init : Z) :
  0 <= init < 2 ^ 32 -> 0 <= checksum_block d init < 2 ^ 32.
Proof.
  revert init. induction d as [|x d IH]; intros init Hi; simpl; [exact Hi|].
  apply IH. unfold u32. apply Z.mod_pos_bound. lia.
Qed.

Lemma lxor_5A_range (x : byte) : 0 <= Z.lxor (byte_to_Z x) 0x5A < 256.
Proof. destruct x; vm_compute; split; congruence. Qed.

Lemma lxor_5A_inj (x y : byte) :
  Z.lxor (byte_to_Z x) 0x5A = Z.lxor (byte_to_Z y) 0x5A -> x = y.
Proof.
  intros H. apply byte_to_Z_inj.
  rewrite <- (Z.lxor_0_r (byte_to_Z x)), <- (Z.lxor_0_r (byte_to_Z y)).
  rewrite <- (Z.lxor_nilpotent 0x5A), <- !Z.lxor_assoc. now rewrite H.
Qed.

(** 31337 is odd, hence invertible modulo 2^32: one step of the checksum is
    injective in the running sum. *)
Lemma mul_31337_inj (s1 s2 : Z) :
  (s1 * 31337) mod 2 ^ 32 = (s2 * 31337) mod 2 ^ 32 ->
  s1 mod 2 ^ 32 = s2 mod 2 ^ 32.
Proof.
  intros H.
  assert (E : forall s, s mod 2 ^ 32 = ((s * 31337) mod 2 ^ 32 * 3341596121) mod 2 ^ 32).
  { intros s. rewrite Z.mul_mod_idemp_l by lia.
    replace (s * 31337 * 3341596121) with (s + s * 24381 * 2 ^ 32) by lia.
    now rewrite Z.mod_add by lia. }
  rewrite (E s1), (E s2), H. reflexivity.
Qed.

Lemma checksum_step_inj_sum (s1 s2 : Z) (x : byte) :
  0 <= s1 < 2 ^ 32 -> 0 <= s2 < 2 ^ 32 ->
  u32 (u32 (s1 * 31337) + Z.lxor (byte_to_Z x) 0x5A)
  = u32 (u32 (s2 * 31337) + Z.lxor (byte_to_Z x) 0x5A) ->
  s1 = s2.
Proof.
  intros H1 H2 H. rewrite !checksum_step_eq in H.
  assert (E : (s1 * 31337) mod 2 ^ 32 = (s2 * 31337) mod 2 ^ 32).
  { set (k := Z.lxor (byte_to_Z x) 90) in *.
    replace (s1 * 31337) with (s1 * 31337 + k - k) by lia.
    replace (s2 * 31337) with (s2 * 31337 + k - k) by lia.
    rewrite Zminus_mod, H, <- Zminus_mod. reflexivity. }
  apply mul_31337_inj in E. rewrite !Z.mod_small in E by lia. exact E.
Qed.

Lemma checksum_step_inj_byte (s : Z) (x y : byte) :
  u32 (u32 (s * 31337) + Z.lxor (byte_to_Z x) 0x5A)
  = u32 (u32 (s * 31337) + Z.lxor (byte_to_Z y) 0x5A) ->
  x = y.
Proof.
  intros H. rewrite !checksum_step_eq in H.
  apply lxor_5A_inj.
  pose proof (lxor_5A_range x) as Hx. pose proof (lxor_5A_range y) as Hy.
  set (kx := Z.lxor (byte_to_Z x) 90) in *. set (ky := Z.lxor (byte_to_Z y) 90) in *.
  assert (E : kx mod 2 ^ 32 = ky mod 2 ^ 32).
  { replace kx with (s * 31337 + kx - s * 31337) by lia.
    replace ky with (s * 31337 + ky - s * 31337) by lia.
    rewrite Zminus_mod, H, <- Zminus_mod. reflexivity. }
  rewrite !Z.mod_small in E by lia. exact E.
Qed.

Lemma checksum_block_inj (d : list byte) (s1 s2 : Z) :
  0 <= s1 < 2 ^ 32 -> 0 <= s2 < 2 ^ 32 ->
  checksum_block d s1 = checksum_block d s2 -> s1 = s2.
Proof.
  revert s1 s2. induction d as [|x d IH]; intros s1 s2 H1 H2 H; simpl in H.
  - exact H.
  - apply IH in H; [| apply Z.mod_pos_bound; lia ..].
    eapply checksum_step_inj_sum; eauto.
Qed.

(** Changing one byte of the data changes the running sum. *)
Lemma checksum_block_corrupt (d : list byte) (i : nat) (x y : byte) (init : Z) :
  0 <= init < 2 ^ 32 ->
  d !! i = Some y -> x <> y ->
  checksum_block (<[i := x]> d) init <> checksum_block d init.
Proof.
  revert i init. induction d as [|b d IH]; intros i init Hi Hd Hxy; [discriminate|].
  destruct i as [|i]; simpl in *.
  - injection Hd as ->. intros H.
    apply checksum_block_inj in H; [| apply Z.mod_pos_bound; lia ..].
    apply checksum_step_inj_byte in H. contradiction.
  - apply IH; auto. apply Z.mod_pos_bound. lia.
Qed.

Lemma lxor_range (a b n : Z) :
  0 <= n -> 0 <= a < 2 ^ n -> 0 <= b < 2 ^ n -> 0 <= Z.lxor a b < 2 ^ n.
Proof.
  intros Hn Ha Hb.
  assert (E : Z.lxor a b = Z.lxor a b mod 2 ^ n).
  { rewrite <- Z.land_ones by lia.
    rewrite <- (Z.mod_small a (2 ^ n)), <- (Z.mod_small b (2 ^ n)) at 1 by lia.
    rewrite <- !Z.land_ones by lia.
    apply Z.bits_inj'. intros k Hk.
    rewrite Z.land_spec, !Z.lxor_spec, !Z.land_spec.
    destruct (Z.testbit a k), (Z.testbit b k), (Z.testbit (Z.ones n) k); reflexivity. }
  rewrite E. apply Z.mod_pos_bound. lia.
Qed.

Lemma checksum_range (d : list byte) : 0 <= checksum d < 2 ^ 32.
Proof.
  unfold checksum, checksum_finish, checksum_start.
  apply lxor_range; [lia | | unfold CHECKSUM_FINAL; lia].
  apply checksum_block_range. unfold CHECKSUM_INIT. lia.
Qed.

Lemma checksum_corrupt (d : list byte) (i : nat) (x y : byte) :
  d !! i = Some y -> x <> y -> checksum (<[i := x]> d) <> checksum d.
Proof.
  intros Hd Hxy H. unfold checksum, checksum_finish, checksum_start in H.
  apply (f_equal (fun v => Z.lxor v CHECKSUM_FINAL)) in H.
  rewrite !Z.lxor_assoc, !Z.lxor_nilpotent, !Z.lxor_0_r in H.
  eapply (checksum_block_corrupt d i x y CHECKSUM_INIT); eauto.
  unfold CHECKSUM_INIT. lia.
Qed.

(** C9: the one-shot checksum is the streaming one: [checksum b] is
    [finish] of [add b] from the state of the empty sequence, and
    [checksum (b ++ c)] is [finish] of [add c] continuing from [start b];
    the state starts at 0xDEADBEEF, each byte takes it to
    [state * 31337 + (byte XOR 0x5A)] modulo 2^32, and [finish] XORs it
    with 0xADDEDBAD. *)
Theorem checksum_streaming (b c : list byte) :
  checksum b = checksum_finish (checksum_add b (checksum_start []))
  /\ checksum (b ++ c) = checksum_finish (checksum_add c (checksum_start b))
  /\ checksum_start [] = 0xDEADBEEF
  /\ (forall x : byte,
        checksum_start (b ++ [x])
        = (checksum_start b * 31337 + Z.lxor (byte_to_Z x) 0x5A) mod 2 ^ 32)
  /\ (forall s : Z, checksum_finish s = Z.lxor s 0xADDEDBAD).
Proof.
  repeat split.
  - unfold checksum, checksum_add, checksum_start.
    now rewrite checksum_block_app.
  - intros x. unfold checksum_start. rewrite checksum_block_app. simpl.
    apply checksum_step_eq.
Qed.

(** ** Replies *)

Lemma reply_status_CSUMERR (type : Z) :
  reply_status (reply_bytes type ST_CSUMERR []) = ST_CSUMERR.
Proof. reflexivity. Qed.

Lemma length_reply_bytes (type status : Z) (payload : list byte) :
  length (reply_bytes type status payload) = 36%nat.
Proof.
  unfold reply_bytes. rewrite !length_app, !length_le_bytes, length_take.
  rewrite length_app, length_replicate. unfold reply_payload_size. lia.
Qed.

(** ** The binding of the active device *)

Lemma sync_any_frame (env : up_env) (fuel : nat) (i iodev : Z) (s s1 : up_state) :
  sync_any env fuel i s = Some (iodev, s1) ->
  trace s1 = trace s /\ uartproxy_iodev s1 = uartproxy_iodev s /\ mem s1 = mem s.
Proof.
  revert i s. induction fuel as [|fuel IH]; intros i s H; simpl in H; [discriminate|].
  destruct (i <? IODEV_MAX env); simpl in H.
  - destruct (rx_of s i) as [|b rest].
    + apply IH in H. exact H.
    + destruct (synced _).
      * injection H as _ <-. auto.
      * apply IH in H. exact H.
  - injection H as _ <-. auto.
Qed.

(** A request that is not accepted: [Some reply] when it is answered. *)
Lemma request_rejected (env : up_env) (iodev : Z) (s : up_state) :
  let type := buffer_of s iodev in
  let body := take 60 (rx_of s iodev) in
  length body = 60%nat ->
  checksum (le_bytes 4 type ++ req_payload body) <> req_checksum body ->
  uartproxy_request env iodev s
  = Some (Continue,
          iodev_write iodev (reply_bytes type ST_CSUMERR [])
            (iodev_read iodev (REQ_SIZE - 4) s).2).
Proof.
  intros type body Hlen Hsum. unfold uartproxy_request.
  change (Z.to_nat (REQ_SIZE - 4)) with 60%nat.
  unfold iodev_read. change (Z.to_nat (REQ_SIZE - 4)) with 60%nat.
  fold body. rewrite Hlen. simpl negb at 1. cbv iota.
  fold type. destruct (Z.eqb_spec (checksum (le_bytes 4 type ++ req_payload body))
                         (req_checksum body)) as [E|E]; [contradiction|].
  reflexivity.
Qed.

(** C10: [uartproxy_iodev] is assigned only once the checksum of a frame has
    been validated.  A frame that synchronised on device [iodev] (whichever
    device was bound before) and whose checksum does not match is answered
    with a CSUMERR reply on [iodev]; [uartproxy_iodev] is not changed, so an
    event sent afterwards still goes to the device bound before. *)
Theorem iodev_bound_after_checksum (env : up_env) (fuel : nat) (i iodev : Z)
  (s s1 : up_state) :
  sync_any env fuel 0 s = Some (iodev, s1) ->
  let type := buffer_of s1 iodev in
  let body := take 60 (rx_of s1 iodev) in
  length body = 60%nat ->
  checksum (le_bytes 4 type ++ req_payload body) <> req_checksum body ->
  exists (reply : list byte) (s2 : up_state),
    uartproxy_iteration env fuel false i s = Iterated Continue iodev s2
    /\ trace s2 = trace s ++ [IoWrite iodev reply]
    /\ reply_status reply = ST_CSUMERR
    /\ uartproxy_iodev s2 = uartproxy_iodev s
    /\ forall (event_type : Z) (data : list byte),
         trace (uartproxy_send_event event_type data s2)
         = trace s2 ++ send_event_effects (uartproxy_iodev s) event_type data.
Proof.
  intros Hsync type body Hlen Hsum.
  pose proof (request_rejected env iodev s1 Hlen Hsum) as Hreq. fold type in Hreq.
  destruct (sync_any_frame _ _ _ _ _ _ Hsync) as (Ht & Hd & _).
  eexists _, _. split; [|split; [|split; [|split]]].
  - unfold uartproxy_iteration. rewrite Hsync, Hreq. reflexivity.
  - simpl. rewrite Ht. reflexivity.
  - apply reply_status_CSUMERR.
  - simpl. exact Hd.
  - intros et data. simpl. rewrite Hd. reflexivity.
Qed.

Lemma iodev_bound_after_checksum_witness :
  let s := mk_up {[ 1 := le_bytes 4 REQ_NOP ++ replicate 60 x00 ]} [] ∅ ∅ 0 in
  exists (reply : list byte) (s2 : up_state),
    uartproxy_iteration demo_env 20 false 4 s = Iterated Continue 1 s2
    /\ trace s2 = trace s ++ [IoWrite 1 reply]
    /\ reply_status reply = ST_CSUMERR
    /\ uartproxy_iodev s2 = uartproxy_iodev s
    /\ forall (event_type : Z) (data : list byte),
         trace (uartproxy_send_event event_type data s2)
         = trace s2 ++ send_event_effects (uartproxy_iodev s) event_type data.
Proof.
  intros s.
  eapply (iodev_bound_after_checksum demo_env 20 4 1 s).
  - vm_compute. reflexivity.
  - vm_compute. reflexivity.
  - vm_compute. discriminate.
Defined.

(** ** Synchronisation *)

Lemma land_lo_hi (x y k : Z) : 0 <= k -> 0 <= x < 2 ^ k -> Z.land x (y * 2 ^ k) = 0.
Proof.
  intros Hk Hx. apply Z.bits_inj'. intros n Hn.
  rewrite Z.land_spec, Z.bits_0.
  destruct (Z.ltb_spec n k).
  - rewrite Z.mul_pow2_bits_low by lia. apply andb_false_r.
  - rewrite <- (Z.mod_small x (2 ^ k)) by lia.
    rewrite Z.mod_pow2_bits_high by lia. reflexivity.
Qed.

Lemma lor_lo_hi (x y k : Z) :
  0 <= k -> 0 <= x < 2 ^ k -> Z.lor x (y * 2 ^ k) = x + y * 2 ^ k.
Proof.
  intros Hk Hx. pose proof (Z.add_lor_land x (y * 2 ^ k)) as H.
  rewrite land_lo_hi in H by assumption. lia.
Qed.

Lemma shift_in_eq (buf : Z) (b : byte) :
  0 <= buf < 2 ^ 32 ->
  shift_in buf b = buf / 2 ^ 8 + byte_to_Z b * 2 ^ 24.
Proof.
  intros Hb. unfold shift_in, u32. pose proof (byte_to_Z_range b).
  rewrite Z.shiftr_div_pow2, Z.shiftl_mul_pow2 by lia.
  rewrite (Z.mod_small (byte_to_Z b * 2 ^ 24)) by lia.
  apply lor_lo_hi; [lia|].
  split; [apply Z.div_pos; lia | apply Z.div_lt_upper_bound; lia].
Qed.

Lemma synced_eq (buf : Z) : synced buf = (buf mod 2 ^ 24 =? 0xAA55FF).
Proof.
  unfold synced. change 0xffffff with (Z.ones 24). now rewrite Z.land_ones by lia.
Qed.

(** The fingerprint is recognised on the fourth byte of a frame, whatever
    that byte is, provided the bytes seen before do not end in the first
    three bytes of a fingerprint. *)
Lemma sync_scan_frame (buf : Z) (t3 : byte) (rest : list byte) :
  0 <= buf < 2 ^ 32 ->
  Z.shiftr buf 8 <> 0xAA55FF ->
  sync_scan buf (xff :: x55 :: xaa :: t3 :: rest)
  = (true, le_val [xff; x55; xaa; t3], rest).
Proof.
  intros Hb Hn. rewrite Z.shiftr_div_pow2 in Hn by lia.
  pose proof (byte_to_Z_range t3) as Ht.
  assert (H1 : 0 <= buf / 2 ^ 8 < 2 ^ 24)
    by (split; [apply Z.div_pos; lia | apply Z.div_lt_upper_bound; lia]).
  cbn [sync_scan].
  rewrite (shift_in_eq buf xff) by lia. change (byte_to_Z xff) with 255.
  set (b1 := buf / 2 ^ 8 + 255 * 2 ^ 24).
  assert (S1 : synced b1 = false).
  { rewrite synced_eq. apply Z.eqb_neq. unfold b1.
    rewrite Z.mod_add by lia. rewrite Z.mod_small by lia. exact Hn. }
  rewrite S1.
  assert (R1 : 0 <= b1 < 2 ^ 32) by (unfold b1; lia).
  rewrite (shift_in_eq b1 x55) by lia. change (byte_to_Z x55) with 85.
  assert (D1 : b1 / 2 ^ 8 = buf / 2 ^ 8 / 2 ^ 8 + 255 * 2 ^ 16).
  { unfold b1. replace (255 * 2 ^ 24) with (255 * 2 ^ 16 * 2 ^ 8) by lia.
    now rewrite Z.div_add by lia. }
  assert (H2 : 0 <= buf / 2 ^ 8 / 2 ^ 8 < 2 ^ 16)
    by (split; [apply Z.div_pos; lia | apply Z.div_lt_upper_bound; lia]).
  set (b2 := b1 / 2 ^ 8 + 85 * 2 ^ 24).
  assert (S2 : synced b2 = false).
  { rewrite synced_eq. apply Z.eqb_neq. unfold b2.
    rewrite Z.mod_add by lia. rewrite Z.mod_small by lia. lia. }
  rewrite S2.
  assert (R2 : 0 <= b2 < 2 ^ 32) by (unfold b2; lia).
  rewrite (shift_in_eq b2 xaa) by lia. change (byte_to_Z xaa) with 170.
  assert (D2 : b2 / 2 ^ 8 = buf / 2 ^ 8 / 2 ^ 8 / 2 ^ 8 + 255 * 2 ^ 8 + 85 * 2 ^ 16).
  { unfold b2. rewrite D1.
    replace (buf / 2 ^ 8 / 2 ^ 8 + 255 * 2 ^ 16 + 85 * 2 ^ 24)
      with (buf / 2 ^ 8 / 2 ^ 8 + (255 * 2 ^ 8 + 85 * 2 ^ 16) * 2 ^ 8) by lia.
    rewrite Z.div_add by lia. lia. }
  assert (H3 : 0 <= buf / 2 ^ 8 / 2 ^ 8 / 2 ^ 8 < 2 ^ 8)
    by (split; [apply Z.div_pos; lia | apply Z.div_lt_upper_bound; lia]).
  set (b3 := b2 / 2 ^ 8 + 170 * 2 ^ 24).
  assert (S3 : synced b3 = false).
  { rewrite synced_eq. apply Z.eqb_neq. unfold b3.
    rewrite Z.mod_add by lia. rewrite Z.mod_small by lia. lia. }
  rewrite S3.
  assert (R3 : 0 <= b3 < 2 ^ 32) by (unfold b3; lia).
  rewrite (shift_in_eq b3 t3) by lia.
  assert (D3 : b3 / 2 ^ 8 = 255 + 85 * 2 ^ 8 + 170 * 2 ^ 16).
  { unfold b3. rewrite D2.
    replace (buf / 2 ^ 8 / 2 ^ 8 / 2 ^ 8 + 255 * 2 ^ 8 + 85 * 2 ^ 16 + 170 * 2 ^ 24)
      with (buf / 2 ^ 8 / 2 ^ 8 / 2 ^ 8 + (255 + 85 * 2 ^ 8 + 170 * 2 ^ 16) * 2 ^ 8) by lia.
    rewrite Z.div_add by lia. rewrite (Z.div_small _ (2 ^ 8)) by lia. lia. }
  rewrite D3.
  assert (S4 : synced (255 + 85 * 2 ^ 8 + 170 * 2 ^ 16 + byte_to_Z t3 * 2 ^ 24) = true).
  { rewrite synced_eq. apply Z.eqb_eq.
    rewrite Z.mod_add by lia. reflexivity. }
  rewrite S4. f_equal. f_equal. cbn [le_val].
  change (byte_to_Z xff) with 255. change (byte_to_Z x55) with 85.
  change (byte_to_Z xaa) with 170. lia.
Qed.

(** ** Corrupted requests *)

Lemma corrupt_frame_mismatch (frame : list byte) (i : nat) (x y : byte) :
  length frame = 64%nat ->
  checksum (take 60 frame) = le_val (drop 60 frame) ->
  frame !! i = Some y -> x <> y ->
  checksum (take 60 (<[i := x]> frame)) <> le_val (drop 60 (<[i := x]> frame)).
Proof.
  intros Hlen Hv Hi Hxy.
  assert (Hlt : (i < 64)%nat) by (rewrite <- Hlen; eapply lookup_lt_Some; eauto).
  destruct (Nat.lt_ge_cases i 60) as [Hlo|Hhi].
  - rewrite take_insert_lt, drop_insert_lt by lia. rewrite <- Hv.
    apply checksum_corrupt with (y := y); [|assumption].
    rewrite lookup_take_lt by lia. exact Hi.
  - rewrite take_insert_ge, drop_insert_ge by lia. rewrite Hv.
    intros E. apply le_val_inj in E.
    + apply (f_equal (fun l => l !! (i - 60)%nat)) in E.
      rewrite list_lookup_insert_eq in E by (rewrite length_drop; lia).
      rewrite lookup_drop in E. replace (60 + (i - 60))%nat with i in E by lia.
      congruence.
    + now rewrite length_insert.
Qed.

Lemma rx_of_set (s : up_state) (iodev : Z) (l : list byte) (b : gmap Z Z) :
  rx_of (set_buffer (set_rx s (<[iodev := l]> (rx s))) b) iodev = l.
Proof. unfold rx_of. simpl. now rewrite lookup_insert_eq. Qed.

Lemma buffer_of_set (s : up_state) (iodev : Z) (r : gmap Z (list byte)) (v : Z) :
  buffer_of (set_buffer (set_rx s r) (<[iodev := v]> (iodev_proxy_buffer s))) iodev = v.
Proof. unfold buffer_of. simpl. now rewrite lookup_insert_eq. Qed.

(** C8 (amended): a valid MEMREAD request in which one byte other than the
    three bytes of the sync fingerprint is corrupted (offsets 3 to 63: the
    type's top byte, the payload, the checksum) is answered with one reply
    of status CSUMERR, and no data is streamed after it. *)
Theorem corrupted_memread_rejected (env : up_env) (fuel : nat) (iodev : Z)
  (s : up_state) (frame rest : list byte) (i : nat) (x y : byte) :
  valid_request REQ_MEMREAD frame ->
  frame !! i = Some y -> x <> y -> (3 <= i)%nat ->
  rx_of s iodev = <[i := x]> frame ++ rest ->
  0 <= buffer_of s iodev < 2 ^ 32 ->
  Z.shiftr (buffer_of s iodev) 8 <> 0xAA55FF ->
  rejects_with_csumerr env fuel iodev s rest.
Proof.
  intros (Hlen & Htype & Hsum) Hi Hxy H3 Hrx Hbuf Hnosync.
  pose proof (corrupt_frame_mismatch frame i x y Hlen Hsum Hi Hxy) as Hbad.
  assert (Hlen' : length (<[i := x]> frame) = 64%nat) by now rewrite length_insert.
  assert (Hhead : take 3 (<[i := x]> frame) = [xff; x55; xaa]).
  { rewrite take_insert_ge by lia.
    change 3%nat with (Init.Nat.min 3 4). rewrite <- take_take, Htype. reflexivity. }
  set (frame' := <[i := x]> frame) in *. clearbody frame'.
  destruct frame' as [|b0 [|b1 [|b2 [|t3 body]]]]; try discriminate.
  injection Hhead as -> -> ->.
  assert (Hbody : length body = 60%nat) by (simpl in Hlen'; lia).
  unfold rejects_with_csumerr, uartproxy_iteration, sync_current.
  rewrite Hrx. cbn [app].
  rewrite sync_scan_frame by assumption.
  set (s1 := set_buffer _ _).
  assert (Hrx1 : rx_of s1 iodev = body ++ rest) by apply rx_of_set.
  assert (Hb1 : buffer_of s1 iodev = le_val [xff; x55; xaa; t3]) by apply buffer_of_set.
  assert (Htake : take 60 (rx_of s1 iodev) = body)
    by (rewrite Hrx1; now apply take_app_length').
  pose proof (request_rejected env iodev s1) as Hreq. cbv zeta in Hreq.
  rewrite Htake, Hb1 in Hreq.
  assert (E4 : le_bytes 4 (le_val [xff; x55; xaa; t3]) = [xff; x55; xaa; t3])
    by apply (le_bytes_le_val [xff; x55; xaa; t3]).
  rewrite E4 in Hreq.
  rewrite Hreq; [|assumption|].
  - eexists _, _. split; [reflexivity|]. split; [reflexivity|].
    split; [apply length_reply_bytes|]. split; [reflexivity|].
    unfold rx_of, iodev_read. simpl.
    rewrite lookup_insert_eq. simpl. fold (rx_of s1 iodev). rewrite Hrx1.
    change (Z.to_nat (REQ_SIZE - 4)) with 60%nat. now apply drop_app_length'.
  - unfold req_payload, req_checksum. exact Hbad.
Qed.

Lemma corrupted_memread_rejected_witness :
  let frame := mk_request REQ_MEMREAD (mrequest_payload 0x1000 16 0) in
  let s := mk_up {[ 0 := <[10%nat := x01]> frame ]} [] ∅ ∅ 0 in
  rejects_with_csumerr demo_env 1 0 s [].
Proof.
  intros frame s.
  apply (corrupted_memread_rejected demo_env 1 0 s frame [] 10 x01 x00).
  - vm_compute. repeat split; reflexivity.
  - vm_compute. reflexivity.
  - discriminate.
  - lia.
  - vm_compute. reflexivity.
  - change (buffer_of s 0) with 0. lia.
  - change (buffer_of s 0) with 0. discriminate.
Defined.

(** C8 as stated fails when the corrupted byte belongs to the fingerprint:
    the frame is never recognised, so no reply at all is written. *)
Lemma corrupted_sync_byte_not_answered :
  let frame := mk_request REQ_MEMREAD (mrequest_payload 0x1000 16 0) in
  let s := mk_up {[ 0 := <[0%nat := x00]> frame ]} [] ∅ ∅ 0 in
  valid_request REQ_MEMREAD frame
  /\ frame !! 0%nat = Some xff
  /\ ~ rejects_with_csumerr demo_env 1 0 s []
  /\ exists s' : up_state,
       uartproxy_iteration demo_env 1 true 0 s = Iterated (Exit (-1)) 0 s'
       /\ trace s' = [].
Proof.
  intros frame s. split; [|split; [|split]].
  - vm_compute. repeat split; reflexivity.
  - vm_compute. reflexivity.
  - intros (reply & s2 & H & _). vm_compute in H. discriminate.
  - eexists. split; [vm_compute; reflexivity | reflexivity].
Qed.

(** ** MEMWRITE *)

Lemma u64_succ (addr i : Z) : u64 (u64 (addr + i) + 1) = u64 (addr + (i + 1)).
Proof. unfold u64. rewrite Zplus_mod_idemp_l. f_equal. lia. Qed.

Lemma write_mem_frame (data : list byte) (m m' : gmap Z byte) (addr a : Z) :
  0 <= addr < 2 ^ 64 ->
  write_mem m addr data = Some m' ->
  (forall i, 0 <= i < Z.of_nat (length data) -> a <> u64 (addr + i)) ->
  m' !! a = m !! a.
Proof.
  revert m addr. induction data as [|b data IH]; intros m addr Ha Hw Hout.
  - simpl in Hw. congruence.
  - simpl in Hw. destruct (m !! addr) eqn:E; [|discriminate].
    apply IH in Hw.
    + rewrite Hw. apply lookup_insert_ne.
      specialize (Hout 0). rewrite Z.add_0_r in Hout. unfold u64 in Hout.
      rewrite Z.mod_small in Hout by lia.
      intros ->. apply Hout; [|reflexivity]. simpl length. lia.
    + apply Z.mod_pos_bound. lia.
    + intros i Hi. replace (u64 (addr + 1) + i) with (u64 (addr + 1) + i + 0) by lia.
      assert (E1 : u64 (u64 (addr + 1) + i) = u64 (addr + (i + 1))).
      { unfold u64. rewrite Zplus_mod_idemp_l. f_equal. lia. }
      rewrite Z.add_0_r, E1. apply Hout. simpl length. lia.
Qed.

Lemma write8_skip_frame (addr a : Z) (v : byte) (mc : gmap Z byte * Z) :
  a <> addr -> (write8_skip addr v mc).1 !! a = mc.1 !! a.
Proof.
  intros Hne. unfold write8_skip. destruct (mc.1 !! addr); simpl; [|reflexivity].
  now apply lookup_insert_ne.
Qed.

Lemma mrequest_addr_range (body : list byte) : 0 <= mrequest_addr body < 2 ^ 64.
Proof.
  unfold mrequest_addr. pose proof (le_val_range (take 8 body)) as H.
  assert (Hl : (length (take 8 body) <= 8)%nat) by (rewrite length_take; lia).
  assert (256 ^ Z.of_nat (length (take 8 body)) <= 256 ^ 8)
    by (apply Z.pow_le_mono_r; lia).
  lia.
Qed.

Lemma mrequest_size_range (body : list byte) : 0 <= mrequest_size body < 2 ^ 64.
Proof.
  unfold mrequest_size. pose proof (le_val_range (take 8 (drop 8 body))) as H.
  assert (Hl : (length (take 8 (drop 8 body)) <= 8)%nat) by (rewrite length_take; lia).
  assert (256 ^ Z.of_nat (length (take 8 (drop 8 body))) <= 256 ^ 8)
    by (apply Z.pow_le_mono_r; lia).
  lia.
Qed.

(** The handler of MEMWRITE writes inside the destination region only. *)
Lemma do_memwrite_frame (iodev : Z) (body : list byte) (s s' : up_state)
  (status dck a : Z) :
  do_memwrite iodev body s = Some (status, dck, s') ->
  ~ in_region (mrequest_addr body) (mrequest_size body) a ->
  mem s' !! a = mem s !! a.
Proof.
  unfold do_memwrite. intros H Hout.
  pose proof (mrequest_addr_range body) as Ha.
  pose proof (mrequest_size_range body) as Hs.
  set (addr := mrequest_addr body) in *. set (size := mrequest_size body) in *.
  (* the probes *)
  assert (Hprobe : forall mc,
            (if negb (size =? 0)
             then write8_skip (u64 (addr + size - 1)) x00 (write8_skip addr x00 mc)
             else mc).1 !! a = mc.1 !! a).
  { intros mc. destruct (Z.eqb_spec size 0) as [E|E]; simpl; [reflexivity|].
    rewrite !write8_skip_frame; [reflexivity| |].
    - intros ->. apply Hout. exists 0. split; [lia|].
      unfold u64. rewrite Z.add_0_r, Z.mod_small by lia. reflexivity.
    - intros ->. apply Hout. exists (size - 1). split; [lia|]. f_equal. lia. }
  specialize (Hprobe (mem s, 0)).
  destruct (if negb (size =? 0) then _ else _) as [m1 exc_count] eqn:Ep.
  simpl in Hprobe.
  destruct (negb (exc_count =? 0)).
  - injection H; intros; subst s'. simpl. exact Hprobe.
  - unfold iodev_read in H. cbn [set_mem set_rx mem rx trace iodev_proxy_buffer
                                 uartproxy_iodev] in H.
    set (data := take (Z.to_nat size) _) in H.
    destruct (write_mem m1 addr data) as [m2|] eqn:Ew; [|discriminate].
    assert (Hm2 : m2 !! a = m1 !! a).
    { apply (write_mem_frame data m1 m2 addr a Ha Ew). intros i Hi Hc. apply Hout.
      exists i. split; [|exact Hc].
      assert (Hl : (length data <= Z.to_nat size)%nat)
        by (unfold data; rewrite length_take; lia).
      lia. }
    match type of H with context [if ?c then _ else _] => destruct c end.
    + injection H; intros; subst s'. simpl. congruence.
    + destruct (read_mem m2 addr _); [|discriminate].
      match type of H with context [if ?c then _ else _] => destruct c end;
        injection H; intros; subst s'; simpl; congruence.
Qed.

Lemma do_memwrite_probe_fault (iodev : Z) (body : list byte) (s : up_state) :
  let addr := mrequest_addr body in
  let size := mrequest_size body in
  size <> 0 ->
  mem s !! addr = None \/ mem s !! u64 (addr + size - 1) = None ->
  exists m1 : gmap Z byte,
    do_memwrite iodev body s = Some (ST_XFRERR, 0, set_mem s m1).
Proof.
  intros addr size Hsz Hf. unfold do_memwrite. fold addr size.
  destruct (Z.eqb_spec size 0) as [E|_]; [contradiction|]. simpl negb.
  assert (Hexc : exists m1 n, write8_skip (u64 (addr + size - 1)) x00
                                (write8_skip addr x00 (mem s, 0)) = (m1, n)
                              /\ 0 < n).
  { unfold write8_skip at 2. simpl.
    destruct (mem s !! addr) as [b|] eqn:Ea; simpl.
    - destruct Hf as [Hf|Hf]; [congruence|].
      unfold write8_skip. simpl.
      destruct (Z.eq_dec addr (u64 (addr + size - 1))) as [E|E].
      + rewrite <- E in Hf. congruence.
      + rewrite lookup_insert_ne by exact E. rewrite Hf.
        eexists _, _. split; [reflexivity|]. simpl. lia.
    - unfold write8_skip. simpl.
      destruct (mem s !! u64 (addr + size - 1)); simpl;
        eexists _, _; (split; [reflexivity|]); simpl; lia. }
  destruct Hexc as (m1 & n & -> & Hn).
  destruct (Z.eqb_spec n 0) as [E|_]; [lia|]. simpl. eexists. reflexivity.
Qed.

Lemma request_memwrite (env : up_env) (iodev : Z) (s s' : up_state) (c : ctl) :
  buffer_of s iodev = REQ_MEMWRITE ->
  uartproxy_request env iodev s = Some (c, s') ->
  let body := take 60 (rx_of s iodev) in
  let s1 := (iodev_read iodev (REQ_SIZE - 4) s).2 in
  (length body <> 60%nat /\ s' = s1)
  \/ (length body = 60%nat
      /\ checksum (le_bytes 4 REQ_MEMWRITE ++ req_payload body) <> req_checksum body
      /\ s' = iodev_write iodev (reply_bytes REQ_MEMWRITE ST_CSUMERR []) s1)
  \/ (length body = 60%nat
      /\ checksum (le_bytes 4 REQ_MEMWRITE ++ req_payload body) = req_checksum body
      /\ exists status dck s2,
           do_memwrite iodev body (set_iodev s1 iodev) = Some (status, dck, s2)
           /\ s' = iodev_write iodev
                     (reply_bytes REQ_MEMWRITE status (le_bytes 4 dck)) s2).
Proof.
  intros Hty H body s1. unfold uartproxy_request in H. rewrite Hty in H.
  subst s1. unfold iodev_read in H |- *.
  change (Z.to_nat (REQ_SIZE - 4)) with 60%nat in *.
  fold body in H. cbv zeta in H. cbn [snd].
  destruct (Z.eqb_spec (Z.of_nat (length body)) (REQ_SIZE - 4)) as [El|El];
    cbv beta match delta [negb] in H.
  2: { left. split; [unfold REQ_SIZE in El; lia|]. congruence. }
  assert (Hl : length body = 60%nat) by (unfold REQ_SIZE in El; lia).
  right.
  destruct (Z.eqb_spec (checksum (le_bytes 4 REQ_MEMWRITE ++ req_payload body))
              (req_checksum body)) as [Ec|Ec]; cbv beta match delta [negb] in H.
  2: { left. split; [assumption|]. split; [assumption|]. congruence. }
  right. split; [assumption|]. split; [assumption|].
  change (REQ_MEMWRITE =? REQ_NOP) with false in H.
  change (REQ_MEMWRITE =? REQ_PROXY) with false in H.
  change (REQ_MEMWRITE =? REQ_MEMREAD) with false in H.
  change (REQ_MEMWRITE =? REQ_MEMWRITE) with true in H.
  cbv beta match in H.
  destruct (do_memwrite _ _ _) as [[[status dck] s2]|] eqn:Ew; [|discriminate].
  cbv beta match delta [andb] in H.
  exists status, dck, s2. split; [reflexivity|]. congruence.
Qed.




(** ** Bit fields as arithmetic *)

Lemma land_field (x k lo : Z) :
  0 <= k -> 0 <= lo ->
  Z.land x (Z.shiftl (Z.ones k) lo) = (x / 2 ^ lo) mod 2 ^ k * 2 ^ lo.
Proof.
  intros Hk Hlo. apply Z.bits_inj'. intros n Hn.
  rewrite Z.land_spec, Z.shiftl_spec by lia.
  destruct (Z.ltb_spec n lo) as [Hlt|Hge].
  - rewrite Z.mul_pow2_bits_low by lia.
    rewrite (Z.testbit_neg_r _ (n - lo)) by lia. apply andb_false_r.
  - rewrite Z.mul_pow2_bits by lia.
    rewrite Z.testbit_ones_nonneg by lia.
    destruct (Z.ltb_spec (n - lo) k) as [Hin|Hout].
    + rewrite Z.mod_pow2_bits_low by lia.
      rewrite Z.div_pow2_bits by lia. rewrite andb_true_r. f_equal. lia.
    + rewrite Z.mod_pow2_bits_high by lia. apply andb_false_r.
Qed.

Lemma land_low (x k : Z) : 0 <= k -> Z.land x (MASK k) = x mod 2 ^ k.
Proof.
  intros Hk. replace (MASK k) with (Z.ones k).
  - now apply Z.land_ones.
  - unfold MASK, BIT. rewrite Z.shiftl_1_l, Z.ones_equiv. lia.
Qed.

Lemma andn_field (x k lo : Z) :
  0 <= k -> 0 <= lo ->
  andn x (Z.shiftl (Z.ones k) lo) = x - (x / 2 ^ lo) mod 2 ^ k * 2 ^ lo.
Proof.
  intros Hk Hlo. unfold andn. rewrite <- Z.sub_land_same_l.
  now rewrite land_field.
Qed.

Lemma lor_disjoint (a b : Z) : Z.land a b = 0 -> Z.lor a b = a + b.
Proof. intros H. pose proof (Z.add_lor_land a b). lia. Qed.

(** The masks of the page-table code, as fields. *)
Lemma land_VALID (x : Z) : Z.land x PTE_VALID = x mod 2.
Proof. apply (Z.land_ones x 1). lia. Qed.

Lemma land_TYPE (x : Z) : Z.land x PTE_TYPE = (x / 2) mod 2 * 2.
Proof. apply (land_field x 1 1); lia. Qed.

Lemma land_TARGET (x : Z) :
  Z.land x PTE_TARGET_MASK = (x / 2 ^ 14) mod 2 ^ 36 * 2 ^ 14.
Proof. apply (land_field x 36 14); lia. Qed.

Lemma land_L2_ALIGN (x : Z) :
  Z.land x VADDR_L2_ALIGN_MASK = (x / 2 ^ 14) mod 2 ^ 11 * 2 ^ 14.
Proof. apply (land_field x 11 14); lia. Qed.

Lemma land_L3_ALIGN (x : Z) :
  Z.land x VADDR_L3_ALIGN_MASK = (x / 2 ^ 2) mod 2 ^ 12 * 2 ^ 2.
Proof. apply (land_field x 12 2); lia. Qed.

Lemma land_L23_ALIGN (x : Z) :
  Z.land x (Z.lor VADDR_L2_ALIGN_MASK VADDR_L3_ALIGN_MASK)
  = (x / 2 ^ 2) mod 2 ^ 23 * 2 ^ 2.
Proof. apply (land_field x 23 2); lia. Qed.

Lemma FIELD_GET_TYPE (x : Z) : FIELD_GET PTE_TYPE x = (x / 2) mod 2.
Proof.
  unfold FIELD_GET. rewrite land_TYPE.
  change (FIELD_LSB PTE_TYPE) with 2. now rewrite Z.div_mul by lia.
Qed.

Lemma FIELD_GET_SPTE_TYPE (x : Z) : FIELD_GET SPTE_TYPE x = (x / 2 ^ 50) mod 2 ^ 3.
Proof.
  unfold FIELD_GET. change SPTE_TYPE with (Z.shiftl (Z.ones 3) 50).
  rewrite land_field by lia.
  change (FIELD_LSB (Z.shiftl (Z.ones 3) 50)) with (2 ^ 50).
  now rewrite Z.div_mul by lia.
Qed.

Lemma FIELD_GET_TARGET_L4 (x : Z) :
  FIELD_GET PTE_TARGET_MASK_L4 x = (x / 2 ^ 2) mod 2 ^ 48.
Proof.
  unfold FIELD_GET. change PTE_TARGET_MASK_L4 with (Z.shiftl (Z.ones 48) 2).
  rewrite land_field by lia.
  change (FIELD_LSB (Z.shiftl (Z.ones 48) 2)) with (2 ^ 2).
  now rewrite Z.div_mul by lia.
Qed.

Lemma u64_small (x : Z) : 0 <= x < 2 ^ 64 -> u64 x = x.
Proof. intros H. unfold u64. now apply Z.mod_small. Qed.

Lemma land_not_low (x k : Z) :
  0 <= k <= 64 -> 0 <= x < 2 ^ 64 ->
  Z.land x (u64 (Z.lnot (MASK k))) = x / 2 ^ k * 2 ^ k.
Proof.
  intros Hk Hx.
  assert (E : u64 (Z.lnot (MASK k)) = Z.land (Z.lnot (MASK k)) (Z.ones 64))
    by (unfold u64; now rewrite Z.land_ones by lia).
  rewrite E, (Z.land_comm (Z.lnot _)), Z.land_assoc, Z.land_ones by lia.
  rewrite Z.mod_small by lia.
  assert (M : MASK k = Z.ones k).
  { unfold MASK, BIT. rewrite Z.shiftl_1_l, Z.ones_equiv. lia. }
  rewrite M, <- Z.ldiff_land, Z.ldiff_ones_r by lia.
  now rewrite Z.shiftr_div_pow2, Z.shiftl_mul_pow2 by lia.
Qed.

Lemma ALIGN_DOWN_eq (x k : Z) :
  0 <= k <= 64 -> 0 <= x < 2 ^ 64 ->
  ALIGN_DOWN x (MASK k) = x / 2 ^ k * 2 ^ k.
Proof. intros. unfold ALIGN_DOWN. now apply land_not_low. Qed.

Lemma MASK_eq (k : Z) : 0 <= k -> MASK k = 2 ^ k - 1.
Proof. intros. unfold MASK, BIT. now rewrite Z.shiftl_1_l. Qed.

Lemma ALIGN_UP_eq (x k : Z) :
  0 <= k <= 64 -> 0 <= x -> x + 2 ^ k <= 2 ^ 64 ->
  ALIGN_UP x (MASK k) = (x + 2 ^ k - 1) / 2 ^ k * 2 ^ k.
Proof.
  intros Hk Hx Hb. unfold ALIGN_UP.
  assert (0 < 2 ^ k) by (apply Z.pow_pos_nonneg; lia).
  rewrite (MASK_eq k) at 1 by lia.
  rewrite u64_small by lia. rewrite land_not_low by lia. f_equal. f_equal. lia.
Qed.

(** ** Argument validation of hv_map *)

(** C5: [hv_map] returns -1 when [from] or [size] is not a multiple of 4,
    and when the target is a hardware entry and [from] or [size] is not a
    multiple of 16 KiB; in these cases the state (root array, tables,
    allocator) is returned as it was. *)
Theorem hv_map_badalign (from to size incr : Z) (s : pt_state) :
  from mod 4 <> 0 \/ size mod 4 <> 0
  \/ (IS_HW to = true /\ (from mod 2 ^ 14 <> 0 \/ size mod 2 ^ 14 <> 0)) ->
  hv_map from to size incr s = Some (-1, s).
Proof.
  intros H. unfold hv_map.
  change VADDR_L4_OFFSET_BITS with 2. change VADDR_L3_OFFSET_BITS with 14.
  rewrite !land_low by lia. change (2 ^ 2) with 4.
  unfold nonzero.
  destruct (Z.eqb_spec (from mod 4) 0) as [E1|E1]; [|reflexivity].
  destruct (Z.eqb_spec (size mod 4) 0) as [E2|E2]; [|reflexivity].
  destruct H as [H|[H|(Hhw & H)]]; [contradiction..|].
  rewrite Hhw. cbn [negb orb andb].
  destruct (Z.eqb_spec (from mod 2 ^ 14) 0) as [E3|E3]; [|reflexivity].
  destruct (Z.eqb_spec (size mod 2 ^ 14) 0) as [E4|E4]; [|reflexivity].
  destruct H; contradiction.
Qed.

Lemma hv_map_badalign_witness :
  hv_map 0x100002 0 4 0 (mk_pt [] ∅ 0) = Some (-1, mk_pt [] ∅ 0)
  /\ hv_map_hw 0x100000 0x100000 0x1000 (mk_pt [] ∅ 0) = Some (-1, mk_pt [] ∅ 0).
Proof.
  split.
  - apply hv_map_badalign. left. discriminate.
  - apply hv_map_badalign. right. right. split; [reflexivity|]. right. discriminate.
Defined.

(** ** hv_map_proxy_hook *)

(** C2 (what the code does): the entry that [hv_map_proxy_hook] installs
    for a word is a software entry whose TARGET field holds the
    identifier, but its SPTE_TYPE is SPTE_HOOK (1), not a proxy-hook
    kind. *)
Lemma map_proxy_hook_installs_hook :
  exists (s : pt_state) (pte : Z),
    pt_after (hv_map_proxy_hook 0x400000 5 4) = Some s
    /\ hv_pt_walk 0x400000 s = Some pte
    /\ IS_SW pte = true
    /\ FIELD_GET PTE_TARGET_MASK_L4 pte = 5
    /\ FIELD_GET SPTE_TYPE pte = SPTE_HOOK
    /\ FIELD_GET SPTE_TYPE pte <> SPTE_PROXY_HOOK_R
    /\ FIELD_GET SPTE_TYPE pte <> SPTE_PROXY_HOOK_W
    /\ FIELD_GET SPTE_TYPE pte <> SPTE_PROXY_HOOK_RW.
Proof.
  eexists _, _. split; [vm_compute; reflexivity|].
  split; [vm_compute; reflexivity|].
  repeat split; vm_compute; congruence.
Qed.

(** ** Shapes of entries *)

Ltac zdm := Z.div_mod_to_equations; lia.

Lemma tbl_entry_is_table (p : Z) : ptr_ok p -> L2_IS_TABLE (p + 3) = true.
Proof.
  intros (Ha & Hr). unfold L2_IS_TABLE, nonzero. rewrite FIELD_GET_TYPE.
  apply andb_true_iff. split.
  - apply negb_true_iff, Z.eqb_neq. lia.
  - apply Z.eqb_eq. unfold PTE_TABLE. zdm.
Qed.

Lemma tbl_entry_target (p : Z) : ptr_ok p -> Z.land (p + 3) PTE_TARGET_MASK = p.
Proof. intros (Ha & Hr). rewrite land_TARGET. zdm. Qed.

Lemma tbl_entry_make (p : Z) :
  ptr_ok p -> Z.lor (Z.lor p (FIELD_PREP PTE_TYPE PTE_TABLE)) PTE_VALID = p + 3.
Proof.
  intros (Ha & Hr). change (FIELD_PREP PTE_TYPE PTE_TABLE) with 2.
  change PTE_VALID with 1.
  rewrite (lor_disjoint p 2).
  - rewrite lor_disjoint; [lia|]. change 1 with PTE_VALID. rewrite land_VALID. zdm.
  - change 2 with PTE_TYPE. rewrite land_TYPE. zdm.
Qed.

Lemma hw_block_not_table (e t : Z) : hw_block e t -> L2_IS_TABLE e = false.
Proof.
  intros (-> & Ha & Hr). unfold L2_IS_TABLE. rewrite FIELD_GET_TYPE.
  apply andb_false_iff. right. apply Z.eqb_neq. unfold PTE_TABLE. zdm.
Qed.

Lemma hw_block_is_block (e t : Z) : hw_block e t -> L2_IS_HW_BLOCK e = true.
Proof.
  intros (-> & Ha & Hr). unfold L2_IS_HW_BLOCK, IS_HW, nonzero.
  rewrite FIELD_GET_TYPE, land_VALID.
  repeat (apply andb_true_iff; split).
  - apply negb_true_iff, Z.eqb_neq. lia.
  - apply negb_true_iff, Z.eqb_neq. zdm.
  - apply Z.eqb_eq. unfold PTE_BLOCK. zdm.
Qed.

Lemma hw_page_not_table (e t : Z) : hw_page e t -> L3_IS_TABLE e = false.
Proof.
  intros (-> & Ha & Hr). unfold L3_IS_TABLE, IS_SW, nonzero. rewrite land_VALID.
  apply andb_false_iff. left. apply andb_false_iff. right.
  apply negb_false_iff, negb_true_iff, Z.eqb_neq. zdm.
Qed.

Lemma hw_page_not_sw_block (e t : Z) : hw_page e t -> L3_IS_SW_BLOCK e = false.
Proof.
  intros (-> & Ha & Hr). unfold L3_IS_SW_BLOCK, IS_SW, nonzero. rewrite land_VALID.
  apply andb_false_iff. left. apply andb_false_iff. left.
  apply andb_false_iff. right.
  apply negb_false_iff, negb_true_iff, Z.eqb_neq. zdm.
Qed.

Lemma hw_page_is_page (e t : Z) : hw_page e t -> L3_IS_HW_BLOCK e = true.
Proof.
  intros (-> & Ha & Hr). unfold L3_IS_HW_BLOCK, IS_HW, nonzero.
  rewrite FIELD_GET_TYPE, land_VALID.
  repeat (apply andb_true_iff; split).
  - apply negb_true_iff, Z.eqb_neq. lia.
  - apply negb_true_iff, Z.eqb_neq. zdm.
  - apply Z.eqb_eq. unfold PTE_PAGE. zdm.
Qed.

(** ** The walk, by the shape of the entries it meets *)

Lemma walk_zero (s : pt_state) (ipa : Z) :
  hv_L2 s !! Z.to_nat (ipa / 2 ^ 25) = Some 0 -> hv_pt_walk ipa s = Some 0.
Proof.
  intros H. unfold hv_pt_walk. change VADDR_L2_OFFSET_BITS with 25.
  rewrite Z.shiftr_div_pow2 by lia. rewrite H. reflexivity.
Qed.

Lemma walk_block (s : pt_state) (ipa e t : Z) :
  hv_L2 s !! Z.to_nat (ipa / 2 ^ 25) = Some e -> hw_block e t ->
  walks_to s ipa (t + (ipa / 2 ^ 14) mod 2 ^ 11 * 2 ^ 14).
Proof.
  intros H Hb. unfold walks_to, hv_pt_walk. change VADDR_L2_OFFSET_BITS with 25.
  rewrite Z.shiftr_div_pow2 by lia. rewrite H.
  rewrite (hw_block_not_table e t Hb), (hw_block_is_block e t Hb), orb_true_r.
  cbn [negb]. eexists. split; [reflexivity|].
  destruct Hb as (-> & Ha & Hr). unfold good_pte.
  rewrite !Z.land_lor_distr_l, <- !Z.land_assoc.
  change (Z.land (Z.lor VADDR_L2_ALIGN_MASK VADDR_L3_ALIGN_MASK) PTE_VALID) with 0.
  change (Z.land (Z.lor VADDR_L2_ALIGN_MASK VADDR_L3_ALIGN_MASK) PTE_TARGET_MASK)
    with VADDR_L2_ALIGN_MASK.
  rewrite Z.land_0_r, Z.lor_0_r, land_VALID, land_TARGET, land_L2_ALIGN.
  split; [zdm|].
  assert (E : (t + 2045) / 2 ^ 14 mod 2 ^ 36 * 2 ^ 14 = t) by zdm.
  rewrite E. rewrite lor_disjoint; [reflexivity|].
  rewrite Z.land_comm.
  assert (Et : t = t / 2 ^ 25 * 2 ^ 25) by zdm.
  rewrite Et at 1. apply land_lo_hi; [lia|]. zdm.
Qed.

Lemma walk_table (s : pt_state) (ipa p : Z) (tb : list Z) (e3 : Z) :
  0 <= ipa ->
  hv_L2 s !! Z.to_nat (ipa / 2 ^ 25) = Some (p + 3) -> ptr_ok p ->
  tables s !! p = Some tb ->
  tb !! Z.to_nat ((ipa / 2 ^ 14) mod 2 ^ 11) = Some e3 ->
  (e3 = 0 -> hv_pt_walk ipa s = Some 0)
  /\ (forall t, hw_page e3 t -> walks_to s ipa t).
Proof.
  intros Hipa H Hp Htb He3.
  assert (W : hv_pt_walk ipa s
              = if negb (L3_IS_TABLE e3) then
                  Some (let l3d := if L3_IS_SW_BLOCK e3
                                   then Z.lor e3 (Z.land ipa VADDR_L3_ALIGN_MASK)
                                   else e3 in
                        if L3_IS_HW_BLOCK l3d
                        then Z.lor (andn l3d PTE_LOWER_ATTRIBUTES)
                               (Z.land ipa VADDR_L3_ALIGN_MASK)
                        else l3d)
                else
                  match tables s !! Z.land e3 PTE_TARGET_MASK with
                  | Some l4 =>
                      l4 !! Z.to_nat (Z.land (Z.shiftr ipa VADDR_L4_OFFSET_BITS)
                                        (MASK VADDR_L4_INDEX_BITS))
                  | None => None
                  end).
  { unfold hv_pt_walk. change VADDR_L2_OFFSET_BITS with 25.
    change VADDR_L3_OFFSET_BITS with 14. change VADDR_L3_INDEX_BITS with 11.
    rewrite !Z.shiftr_div_pow2 by lia. rewrite H.
    rewrite (tbl_entry_is_table p Hp), (tbl_entry_target p Hp). cbn [negb].
    rewrite Htb, land_low by lia. rewrite He3. reflexivity. }
  rewrite W. split.
  - intros ->. reflexivity.
  - intros t Ht. unfold walks_to. rewrite W.
    rewrite (hw_page_not_table e3 t Ht), (hw_page_not_sw_block e3 t Ht). cbn [negb].
    cbv zeta. rewrite (hw_page_is_page e3 t Ht).
    eexists. split; [reflexivity|].
    destruct Ht as (-> & Ha & Hr). unfold good_pte, andn.
    rewrite !Z.land_lor_distr_l, <- !Z.land_assoc.
    change (Z.land VADDR_L3_ALIGN_MASK PTE_VALID) with 0.
    change (Z.land VADDR_L3_ALIGN_MASK PTE_TARGET_MASK) with 0.
    change (Z.land (Z.lnot PTE_LOWER_ATTRIBUTES) PTE_VALID) with PTE_VALID.
    change (Z.land (Z.lnot PTE_LOWER_ATTRIBUTES) PTE_TARGET_MASK) with PTE_TARGET_MASK.
    rewrite !Z.land_0_r, !Z.lor_0_r, land_VALID, land_TARGET. split; zdm.
Qed.

(** The walk reads one root entry and, below a table, one L3 entry: two
    states that agree on them give the same walk. *)
Lemma walk_ext (s s' : pt_state) (ipa : Z) :
  pt_inv s -> 0 <= ipa < 2 ^ 36 ->
  hv_L2 s' !! Z.to_nat (ipa / 2 ^ 25) = hv_L2 s !! Z.to_nat (ipa / 2 ^ 25) ->
  (forall p tb, hv_L2 s !! Z.to_nat (ipa / 2 ^ 25) = Some (p + 3) -> ptr_ok p ->
                tables s !! p = Some tb ->
                exists tb', tables s' !! p = Some tb'
                            /\ tb' !! Z.to_nat ((ipa / 2 ^ 14) mod 2 ^ 11)
                               = tb !! Z.to_nat ((ipa / 2 ^ 14) mod 2 ^ 11)) ->
  hv_pt_walk ipa s' = hv_pt_walk ipa s.
Proof.
  intros Hinv Hipa HL2 Htb.
  assert (Hlt : (Z.to_nat (ipa / 2 ^ 25) < length (hv_L2 s))%nat).
  { rewrite (inv_len s Hinv). zdm. }
  destruct (lookup_lt_is_Some_2 _ _ Hlt) as (e & He).
  destruct (inv_l2 s Hinv _ _ He) as [->|[(tg & Hb)|(p & tb & -> & Hp & _ & Ht & Hok)]].
  - rewrite (walk_zero s ipa He). apply walk_zero. congruence.
  - unfold hv_pt_walk. change VADDR_L2_OFFSET_BITS with 25.
    rewrite !Z.shiftr_div_pow2 by lia. rewrite HL2, He.
    now rewrite (hw_block_not_table e tg Hb).
  - destruct (Htb p tb He Hp Ht) as (tb' & Ht' & Heq).
    destruct Hok as (Hlen & Hent).
    assert (Hj : (Z.to_nat ((ipa / 2 ^ 14) mod 2 ^ 11) < length tb)%nat)
      by (rewrite Hlen; zdm).
    destruct (lookup_lt_is_Some_2 _ _ Hj) as (e3 & He3).
    unfold hv_pt_walk. change VADDR_L2_OFFSET_BITS with 25.
    change VADDR_L3_OFFSET_BITS with 14. change VADDR_L3_INDEX_BITS with 11.
    rewrite !Z.shiftr_div_pow2 by lia. rewrite HL2, He.
    rewrite (tbl_entry_is_table p Hp), (tbl_entry_target p Hp). cbn [negb].
    rewrite Ht, Ht', land_low by lia. rewrite Heq, He3.
    destruct (Hent _ _ He3) as [->|(tg & Hpg)]; [reflexivity|].
    now rewrite (hw_page_not_table e3 tg Hpg).
Qed.

(** ** The allocator *)

Lemma next_ptr_eq (s : pt_state) :
  0 <= brk s <= 2 ^ 50 ->
  next_ptr s = (brk s + 2 ^ 14 - 1) / 2 ^ 14 * 2 ^ 14.
Proof.
  intros H. unfold next_ptr. change (PAGE_SIZE - 1) with (MASK 14).
  apply ALIGN_UP_eq; lia.
Qed.

Lemma memalign_page (size : Z) (s : pt_state) :
  memalign PAGE_SIZE size s
  = Some (next_ptr s, mk_pt (hv_L2 s) (tables s) (next_ptr s + size)).
Proof. reflexivity. Qed.

(** ** hv_pt_get_l3 *)

Lemma L2_load_eq (idx e : Z) (s : pt_state) :
  0 <= idx -> hv_L2 s !! Z.to_nat idx = Some e -> L2_load idx s = Some (e, s).
Proof.
  intros Hi He. unfold L2_load. rewrite He.
  destruct (Z.leb_spec 0 idx); [reflexivity|lia].
Qed.

Lemma L2_store_eq (idx v : Z) (s : pt_state) :
  0 <= idx < Z.of_nat (length (hv_L2 s)) ->
  L2_store idx v s = Some (tt, set_L2 s (<[Z.to_nat idx := v]> (hv_L2 s))).
Proof.
  intros Hi. unfold L2_store.
  destruct (Z.leb_spec 0 idx); [|lia].
  destruct (Z.ltb_spec idx (Z.of_nat (length (hv_L2 s)))); [reflexivity|lia].
Qed.

Lemma tbl_load_eq (p idx e : Z) (tb : list Z) (s : pt_state) :
  0 <= idx -> tables s !! p = Some tb -> tb !! Z.to_nat idx = Some e ->
  tbl_load p idx s = Some (e, s).
Proof.
  intros Hi Ht He. unfold tbl_load. rewrite Ht, He.
  destruct (Z.leb_spec 0 idx); [reflexivity|lia].
Qed.

Lemma tbl_store_eq (p idx v : Z) (tb : list Z) (s : pt_state) :
  tables s !! p = Some tb -> 0 <= idx < Z.of_nat (length tb) ->
  tbl_store p idx v s
  = Some (tt, set_tables s (<[p := <[Z.to_nat idx := v]> tb]> (tables s))).
Proof.
  intros Ht Hi. unfold tbl_store. rewrite Ht.
  destruct (Z.leb_spec 0 idx); [|lia].
  destruct (Z.ltb_spec idx (Z.of_nat (length tb))); [reflexivity|lia].
Qed.

Lemma l3_ok_zero : l3_ok (replicate 2048 0).
Proof.
  split; [apply length_replicate|].
  intros j e He. apply lookup_replicate in He. left. tauto.
Qed.

Lemma hw_block_mod4 (e t : Z) : hw_block e t -> e mod 4 = 1.
Proof. intros (-> & Ha & Hr). zdm. Qed.

Lemma l2_entry_ok_mono (s s' : pt_state) (e : Z) :
  l2_entry_ok s e -> brk s <= brk s' ->
  (forall p tb, tables s !! p = Some tb -> p + 2 ^ 14 <= brk s ->
                tables s' !! p = Some tb) ->
  l2_entry_ok s' e.
Proof.
  intros [->|[Hb|(p & tb & -> & Hp & Hbrk & Ht & Hok)]] Hle Hsame.
  - now left.
  - right. now left.
  - right. right. exists p, tb.
    split; [reflexivity|]. split; [exact Hp|]. split; [lia|].
    split; [now apply Hsame|exact Hok].
Qed.

(** [hv_pt_get_l3] on a root entry that is empty or a table: it returns the
    table, allocating a zeroed one for an empty entry, and the walk of
    every address is what it was. *)
Lemma get_l3_spec (s : pt_state) (from : Z) :
  pt_inv s -> 0 <= from < 2 ^ 36 ->
  (forall e tg, hv_L2 s !! Z.to_nat (from / 2 ^ 25) = Some e -> ~ hw_block e tg) ->
  next_ptr s + 2 ^ 14 <= 2 ^ 50 ->
  exists (p : Z) (s1 : pt_state) (tb : list Z),
    hv_pt_get_l3 from s = Some (p, s1)
    /\ pt_inv s1
    /\ hv_L2 s1 = <[Z.to_nat (from / 2 ^ 25) := p + 3]> (hv_L2 s)
    /\ ptr_ok p
    /\ tables s1 !! p = Some tb /\ l3_ok tb
    /\ (forall ipa, 0 <= ipa < 2 ^ 36 -> hv_pt_walk ipa s1 = hv_pt_walk ipa s)
    /\ next_ptr s1 <= next_ptr s + 2 ^ 14.
Proof.
  intros Hinv Hfrom Hnb Hroom.
  pose proof (inv_len s Hinv) as Hlen. pose proof (inv_brk s Hinv) as Hbrk.
  set (i := Z.to_nat (from / 2 ^ 25)).
  assert (Hi : (i < length (hv_L2 s))%nat) by (rewrite Hlen; unfold i; zdm).
  destruct (lookup_lt_is_Some_2 _ _ Hi) as (e & He).
  assert (Hidx : 0 <= from / 2 ^ 25 < 2048) by zdm.
  unfold hv_pt_get_l3. change VADDR_L2_OFFSET_BITS with 25.
  rewrite Z.shiftr_div_pow2 by lia. unfold pt_bind at 1.
  rewrite (L2_load_eq _ e) by (fold i; lia || exact He).
  destruct (inv_l2 s Hinv _ _ He) as [->|[(tg & Hb)|(p & tb & -> & Hp & Hpb & Ht & Hok)]].
  - (* empty entry: allocate *)
    change (L2_IS_TABLE 0) with false. change (nonzero 0) with false. cbv iota.
    unfold pt_bind at 1. rewrite memalign_page.
    change (ENTRIES_PER_L3_TABLE * 8) with (2 ^ 14).
    change (Z.to_nat ENTRIES_PER_L3_TABLE) with 2048%nat.
    set (P := next_ptr s).
    assert (HP : ptr_ok P).
    { unfold P, ptr_ok. rewrite next_ptr_eq by lia. rewrite next_ptr_eq in Hroom by lia.
      zdm. }
    assert (HPb : brk s <= P) by (unfold P; rewrite next_ptr_eq by lia; zdm).
    unfold pt_bind at 1. unfold tbl_init at 1. cbn [tables hv_L2 brk set_tables].
    unfold pt_bind at 1. rewrite L2_store_eq
      by (cbn [hv_L2 set_tables]; rewrite Hlen; lia).
    rewrite (tbl_entry_make P HP). unfold pt_ret. fold i.
    cbn [hv_L2 tables brk set_L2 set_tables].
    set (s1 := mk_pt (<[i := P + 3]> (hv_L2 s))
                 (<[P := replicate 2048 0]> (tables s)) (P + 2 ^ 14)).
    assert (Hinv1 : pt_inv s1).
    { split; unfold s1; cbn [hv_L2 tables brk].
      - now rewrite length_insert.
      - destruct HP. lia.
      - intros k e Hk. destruct (decide (i = k)) as [<-|Hne].
        + rewrite list_lookup_insert_eq in Hk by exact Hi. injection Hk as <-.
          right. right. exists P, (replicate 2048 0).
          cbn [tables brk]. rewrite lookup_insert_eq.
          split; [reflexivity|]. split; [exact HP|]. split; [lia|].
          split; [reflexivity|apply l3_ok_zero].
        + rewrite list_lookup_insert_ne in Hk by exact Hne.
          eapply l2_entry_ok_mono; [exact (inv_l2 s Hinv _ _ Hk)|cbn [brk]; lia|].
          intros q tq Hq Hqb. cbn [tables]. rewrite lookup_insert_ne; [exact Hq|lia].
      - intros k1 k2 e Hk1 Hk2 Hmod.
        destruct (decide (i = k1)) as [<-|Hn1]; destruct (decide (i = k2)) as [<-|Hn2];
          try reflexivity.
        + rewrite list_lookup_insert_eq in Hk1 by exact Hi. injection Hk1 as <-.
          rewrite list_lookup_insert_ne in Hk2 by exact Hn2.
          destruct (inv_l2 s Hinv _ _ Hk2) as [E|[(tg & Hb)|(q & tq & E & Hq & Hqb & _)]].
          * destruct HP. lia.
          * apply hw_block_mod4 in Hb. lia.
          * lia.
        + rewrite list_lookup_insert_eq in Hk2 by exact Hi. injection Hk2 as <-.
          rewrite list_lookup_insert_ne in Hk1 by exact Hn1.
          destruct (inv_l2 s Hinv _ _ Hk1) as [E|[(tg & Hb)|(q & tq & E & Hq & Hqb & _)]].
          * destruct HP. lia.
          * apply hw_block_mod4 in Hb. lia.
          * lia.
        + rewrite list_lookup_insert_ne in Hk1, Hk2 by assumption.
          eapply (inv_inj s Hinv); eauto. }
    exists P, s1, (replicate 2048 0).
    split; [reflexivity|]. split; [exact Hinv1|]. split; [reflexivity|].
    split; [exact HP|]. split; [unfold s1; cbn [tables]; apply lookup_insert_eq|].
    split; [apply l3_ok_zero|]. split.
    + intros ipa Hipa. destruct (decide (Z.to_nat (ipa / 2 ^ 25) = i)) as [Ei|Ei].
      * rewrite (walk_zero s ipa) by (rewrite Ei; exact He).
        apply (walk_table s1 ipa P (replicate 2048 0) 0); try tauto; try lia.
        -- unfold s1; cbn [hv_L2]. rewrite Ei. now apply list_lookup_insert_eq.
        -- unfold s1; cbn [tables]. apply lookup_insert_eq.
        -- apply lookup_replicate. split; [reflexivity|]. zdm.
      * apply walk_ext; [exact Hinv|exact Hipa| |].
        -- unfold s1; cbn [hv_L2]. apply list_lookup_insert_ne. congruence.
        -- intros q tq Hq Hqo Hqt. exists tq. split; [|reflexivity].
           unfold s1; cbn [tables]. rewrite lookup_insert_ne; [exact Hqt|].
           destruct (inv_l2 s Hinv _ _ Hq) as [E|[(tg & Hb)|(q' & tq' & E & _ & Hqb & _)]].
           ++ destruct Hqo. lia.
           ++ apply hw_block_mod4 in Hb. destruct Hqo. zdm.
           ++ lia.
    + unfold next_ptr at 1. unfold s1; cbn [brk]. change (PAGE_SIZE - 1) with (MASK 14).
      destruct HP. rewrite ALIGN_UP_eq by lia. fold P. zdm.
  - exfalso. exact (Hnb _ _ He Hb).
  - rewrite (tbl_entry_is_table p Hp), (tbl_entry_target p Hp). unfold pt_ret.
    exists p, s, tb. split; [reflexivity|]. split; [exact Hinv|].
    split; [symmetry; now apply list_insert_id|].
    split; [exact Hp|]. split; [exact Ht|]. split; [exact Hok|].
    split; [reflexivity|lia].
Qed.

(** ** One hardware page *)

Lemma l3_ok_insert (tb : list Z) (j : nat) (e t : Z) :
  l3_ok tb -> hw_page e t -> l3_ok (<[j := e]> tb).
Proof.
  intros (Hlen & Hent) He. split; [now rewrite length_insert|].
  intros k e' Hk. destruct (decide (j = k)) as [<-|Hne].
  - rewrite list_lookup_insert_eq in Hk by (rewrite Hlen; apply lookup_lt_Some in Hk;
      rewrite length_insert in Hk; lia).
    injection Hk as <-. right. now exists t.
  - rewrite list_lookup_insert_ne in Hk by exact Hne. eauto.
Qed.

Lemma l3_store_spec (s : pt_state) (from p : Z) (tb : list Z) (e t : Z) :
  pt_inv s -> 0 <= from < 2 ^ 36 ->
  hv_L2 s !! Z.to_nat (from / 2 ^ 25) = Some (p + 3) -> ptr_ok p ->
  tables s !! p = Some tb -> l3_ok tb -> hw_page e t ->
  let s2 := set_tables s
              (<[p := <[Z.to_nat ((from / 2 ^ 14) mod 2 ^ 11) := e]> tb]> (tables s)) in
  pt_inv s2
  /\ (forall ipa, 0 <= ipa < 2 ^ 36 -> ipa / 2 ^ 14 = from / 2 ^ 14 -> walks_to s2 ipa t)
  /\ (forall ipa, 0 <= ipa < 2 ^ 36 -> ipa / 2 ^ 14 <> from / 2 ^ 14 ->
                  hv_pt_walk ipa s2 = hv_pt_walk ipa s).
Proof.
  intros Hinv Hfrom HL2 Hp Htb Hok He s2.
  set (j := Z.to_nat ((from / 2 ^ 14) mod 2 ^ 11)) in *.
  assert (Hj : (j < length tb)%nat) by (destruct Hok as (-> & _); unfold j; zdm).
  assert (Hinv2 : pt_inv s2).
  { split; unfold s2; cbn [hv_L2 tables brk set_tables].
    - apply (inv_len s Hinv).
    - apply (inv_brk s Hinv).
    - intros k e' Hk.
      destruct (inv_l2 s Hinv _ _ Hk) as [->|[Hb|(q & tq & -> & Hq & Hqb & Hqt & Hqok)]].
      + now left.
      + right. now left.
      + right. right. destruct (decide (q = p)) as [->|Hne].
        * exists p, (<[j := e]> tb). cbn [tables brk set_tables]. rewrite lookup_insert_eq.
          split; [reflexivity|]. split; [exact Hp|]. split; [exact Hqb|].
          split; [reflexivity|]. now apply (l3_ok_insert tb j e t).
        * exists q, tq. cbn [tables brk set_tables]. rewrite lookup_insert_ne by congruence.
          split; [reflexivity|]. split; [exact Hq|]. split; [exact Hqb|].
          split; [exact Hqt|exact Hqok].
    - apply (inv_inj s Hinv). }
  split; [exact Hinv2|]. split.
  - intros ipa Hipa Hpage.
    assert (E25 : ipa / 2 ^ 25 = from / 2 ^ 25) by zdm.
    apply (walk_table s2 ipa p (<[j := e]> tb) e); try tauto; try lia.
    + unfold s2. cbn [hv_L2 set_tables]. now rewrite E25.
    + unfold s2. cbn [tables set_tables]. apply lookup_insert_eq.
    + rewrite Hpage. fold j. now apply list_lookup_insert_eq.
  - intros ipa Hipa Hpage. apply walk_ext; [exact Hinv|exact Hipa|reflexivity|].
    intros q tq Hq Hqo Hqt. unfold s2. cbn [tables set_tables].
    destruct (decide (q = p)) as [->|Hne].
    + rewrite lookup_insert_eq. eexists. split; [reflexivity|].
      assert (tq = tb) by congruence. subst tq.
      apply list_lookup_insert_ne. fold j.
      assert (Ei : Z.to_nat (ipa / 2 ^ 25) = Z.to_nat (from / 2 ^ 25)).
      { eapply (inv_inj s Hinv); eauto. destruct Hp. zdm. }
      unfold j. intros Ej. apply Hpage.
      assert (ipa / 2 ^ 25 = from / 2 ^ 25) by zdm.
      assert ((from / 2 ^ 14) mod 2 ^ 11 = (ipa / 2 ^ 14) mod 2 ^ 11) by zdm.
      zdm.
    + rewrite lookup_insert_ne by congruence. exists tq. split; [exact Hqt|reflexivity].
Qed.

(** ** The loop of hv_pt_map_l3 on hardware pages *)

Lemma map_l3_loop_spec (n : nat) :
  forall (s : pt_state) (from t : Z),
    pt_inv s -> from mod 2 ^ 14 = 0 -> 0 <= from ->
    from + Z.of_nat n * 2 ^ 14 <= 2 ^ 36 ->
    t mod 2 ^ 14 = 0 -> 0 <= t -> t + Z.of_nat n * 2 ^ 14 <= 2 ^ 50 ->
    (forall i e tg, (Z.to_nat (from / 2 ^ 25) <= i)%nat -> hv_L2 s !! i = Some e ->
                    ~ hw_block e tg) ->
    next_ptr s + Z.of_nat n * 2 ^ 14 <= 2 ^ 50 ->
    exists s' : pt_state,
      hv_pt_map_l3_loop n from (t + 0x7FF) (Z.of_nat n * 2 ^ 14) 1 s = Some (tt, s')
      /\ pt_inv s'
      /\ next_ptr s' <= next_ptr s + Z.of_nat n * 2 ^ 14
      /\ (forall ipa, from <= ipa < from + Z.of_nat n * 2 ^ 14 ->
                      walks_to s' ipa (t + (ipa - from) / 2 ^ 14 * 2 ^ 14))
      /\ (forall ipa, 0 <= ipa < 2 ^ 36 ->
                      ~ (from <= ipa < from + Z.of_nat n * 2 ^ 14) ->
                      hv_pt_walk ipa s' = hv_pt_walk ipa s)
      /\ (forall i : nat, from + Z.of_nat n * 2 ^ 14 <= Z.of_nat i * 2 ^ 25 ->
                          hv_L2 s' !! i = hv_L2 s !! i)
      /\ (forall (i : nat) (e tg : Z), hv_L2 s' !! i = Some e -> hw_block e tg ->
                                       hv_L2 s !! i = Some e).
Proof.
  induction n as [|n IH]; intros s from t Hinv Hfa Hf0 Hfb Hta Ht0 Htb Hnb Hroom.
  - exists s. cbn [hv_pt_map_l3_loop]. change (Z.of_nat 0 * 2 ^ 14 =? 0) with true.
    split; [reflexivity|]. split; [exact Hinv|]. split; [lia|].
    split; [intros; lia|]. split; [reflexivity|]. split; [reflexivity|]. auto.
  - rewrite Nat2Z.inj_succ in *. cbn [hv_pt_map_l3_loop].
    destruct (Z.eqb_spec (Z.succ (Z.of_nat n) * 2 ^ 14) 0) as [E|_]; [lia|].
    change VADDR_L3_OFFSET_BITS with 14. change VADDR_L3_INDEX_BITS with 11.
    change (BIT 14) with (2 ^ 14).
    rewrite Z.shiftr_div_pow2, land_low by lia.
    destruct (get_l3_spec s from Hinv) as
      (p & s1 & tb & Hget & Hinv1 & HL1 & Hp & Htb1 & Hok & Hw1 & Hn1);
      [lia| |lia|].
    { intros e tg He. apply (Hnb _ e tg (Nat.le_refl _) He). }
    unfold pt_bind at 1. rewrite Hget.
    assert (Hi0 : (Z.to_nat (from / 2 ^ 25) < length (hv_L2 s))%nat)
      by (rewrite (inv_len s Hinv); zdm).
    assert (HL1i : hv_L2 s1 !! Z.to_nat (from / 2 ^ 25) = Some (p + 3))
      by (rewrite HL1; now apply list_lookup_insert_eq).
    assert (Hj : (Z.to_nat ((from / 2 ^ 14) mod 2 ^ 11) < length tb)%nat)
      by (destruct Hok as (-> & _); zdm).
    destruct (lookup_lt_is_Some_2 _ _ Hj) as (e3 & He3).
    unfold pt_bind at 1. rewrite (tbl_load_eq p _ e3 tb) by (zdm || assumption).
    assert (Hnt : L3_IS_TABLE e3 = false).
    { destruct Hok as (_ & Hent). destruct (Hent _ _ He3) as [->|(tg & Hpg)];
        [reflexivity|now apply (hw_page_not_table e3 tg)]. }
    rewrite Hnt. unfold pt_bind at 1. unfold pt_ret at 1.
    unfold pt_bind at 1. rewrite (tbl_store_eq p _ _ tb)
      by (try assumption; destruct Hok as (-> & _); zdm).
    assert (Hpage : hw_page (t + 0x7FF) t) by (repeat split; lia).
    destruct (l3_store_spec s1 from p tb (t + 0x7FF) t Hinv1) as (Hinv2 & Hin2 & Hout2);
      try assumption; [lia|].
    set (s2 := set_tables s1 _) in *.
    rewrite (u64_small (from + 2 ^ 14)) by lia.
    rewrite (u64_small (1 * 2 ^ 14)) by lia.
    rewrite (u64_small (t + 0x7FF + 1 * 2 ^ 14)) by lia.
    replace (u64 (Z.succ (Z.of_nat n) * 2 ^ 14 - 2 ^ 14)) with (Z.of_nat n * 2 ^ 14)
      by (rewrite u64_small; lia).
    replace (t + 0x7FF + 1 * 2 ^ 14) with (t + 2 ^ 14 + 0x7FF) by lia.
    destruct (IH s2 (from + 2 ^ 14) (t + 2 ^ 14) Hinv2) as
      (s' & Hloop & Hinv' & Hn' & Hin' & Hout' & HL' & Hnew');
      [zdm|lia|lia|zdm|lia|lia| |unfold s2, next_ptr in *; cbn [brk set_tables] in *; lia|].
    { intros i e tg Hi He. unfold s2 in He. cbn [hv_L2 set_tables] in He.
      rewrite HL1 in He.
      destruct (decide (Z.to_nat (from / 2 ^ 25) = i)) as [<-|Hne].
      - rewrite list_lookup_insert_eq in He by exact Hi0. injection He as <-.
        intros Hb. apply hw_block_mod4 in Hb. destruct Hp. zdm.
      - rewrite list_lookup_insert_ne in He by exact Hne.
        apply (Hnb i e tg); [|exact He]. zdm. }
    exists s'. split; [exact Hloop|]. split; [exact Hinv'|].
    split; [unfold s2, next_ptr in *; cbn [brk set_tables] in *; lia|].
    split; [|split; [|split]].
    + intros ipa Hipa. destruct (Z.lt_ge_cases ipa (from + 2 ^ 14)) as [Hlo|Hhi].
      * assert (Hpg : ipa / 2 ^ 14 = from / 2 ^ 14) by zdm.
        destruct (Hin2 ipa ltac:(lia) Hpg) as (pte & Hwalk & Hgood).
        exists pte. rewrite Hout' by lia. split; [exact Hwalk|].
        replace ((ipa - from) / 2 ^ 14 * 2 ^ 14) with 0 by zdm.
        now rewrite Z.add_0_r.
      * replace (t + (ipa - from) / 2 ^ 14 * 2 ^ 14)
          with (t + 2 ^ 14 + (ipa - (from + 2 ^ 14)) / 2 ^ 14 * 2 ^ 14) by zdm.
        apply Hin'. lia.
    + intros ipa Hipa Hnot. rewrite Hout' by lia.
      rewrite Hout2 by (try lia; zdm). now apply Hw1.
    + intros i Hi. rewrite HL' by lia. unfold s2. cbn [hv_L2 set_tables].
      rewrite HL1. apply list_lookup_insert_ne. zdm.
    + intros i e tg He Hb. apply (Hnew' i e tg) in He; [|exact Hb].
      unfold s2 in He. cbn [hv_L2 set_tables] in He. rewrite HL1 in He.
      destruct (decide (Z.to_nat (from / 2 ^ 25) = i)) as [<-|Hne].
      * rewrite list_lookup_insert_eq in He by exact Hi0. injection He as <-.
        apply hw_block_mod4 in Hb. destruct Hp. zdm.
      * now rewrite list_lookup_insert_ne in He by exact Hne.
Qed.

Lemma hw_entry_is_hw (t : Z) : t mod 2 ^ 14 = 0 -> 0 <= t -> IS_HW (t + 0x7FD) = true.
Proof.
  intros Ha Ht. unfold IS_HW, nonzero. rewrite land_VALID.
  apply andb_true_iff. split; apply negb_true_iff, Z.eqb_neq; [lia|zdm].
Qed.

Lemma hv_pt_map_l3_hw (n : nat) (s : pt_state) (from t : Z) :
  from mod 2 ^ 14 = 0 -> 0 <= from -> t mod 2 ^ 14 = 0 -> 0 <= t ->
  hv_pt_map_l3 from (t + 0x7FD) (Z.of_nat n * 2 ^ 14) 1 s
  = hv_pt_map_l3_loop n from (t + 0x7FF) (Z.of_nat n * 2 ^ 14) 1 s.
Proof.
  intros Hfa Hf0 Hta Ht0. unfold hv_pt_map_l3.
  change VADDR_L3_OFFSET_BITS with 14.
  rewrite <- Z.land_assoc. change (Z.land PTE_TARGET_MASK (MASK 14)) with 0.
  rewrite Z.land_0_r, !land_low by lia.
  rewrite Hfa, Z.mod_mul by lia. change (0 =? 0) with true. rewrite orb_true_r.
  unfold pt_assert, pt_bind. rewrite (hw_entry_is_hw t Hta Ht0).
  rewrite Z.shiftr_div_pow2, Z.div_mul, Nat2Z.id by lia.
  change (FIELD_PREP PTE_TYPE PTE_PAGE) with 2.
  rewrite lor_disjoint; [f_equal; lia|].
  change 2 with PTE_TYPE. rewrite land_TYPE. zdm.
Qed.

(** ** The loop of hv_pt_map_l2 on hardware blocks *)

Lemma map_l2_loop_spec (n : nat) :
  forall (s : pt_state) (from t : Z),
    pt_inv s -> from mod 2 ^ 25 = 0 -> 0 <= from ->
    from + Z.of_nat n * 2 ^ 25 <= 2 ^ 36 ->
    t mod 2 ^ 25 = 0 -> 0 <= t -> t + Z.of_nat n * 2 ^ 25 <= 2 ^ 50 ->
    (forall i : nat, (Z.to_nat (from / 2 ^ 25) <= i < 2048)%nat ->
                     hv_L2 s !! i = Some 0) ->
    exists s' : pt_state,
      hv_pt_map_l2_loop n from (t + 0x7FD) (Z.of_nat n * 2 ^ 25) 1 s = Some (tt, s')
      /\ pt_inv s'
      /\ next_ptr s' = next_ptr s
      /\ (forall ipa, from <= ipa < from + Z.of_nat n * 2 ^ 25 ->
                      walks_to s' ipa (t + (ipa - from) / 2 ^ 14 * 2 ^ 14))
      /\ (forall ipa, 0 <= ipa < 2 ^ 36 ->
                      ~ (from <= ipa < from + Z.of_nat n * 2 ^ 25) ->
                      hv_pt_walk ipa s' = hv_pt_walk ipa s)
      /\ (forall i : nat, from + Z.of_nat n * 2 ^ 25 <= Z.of_nat i * 2 ^ 25 ->
                          hv_L2 s' !! i = hv_L2 s !! i).
Proof.
  induction n as [|n IH]; intros s from t Hinv Hfa Hf0 Hfb Hta Ht0 Htb Hz.
  - exists s. cbn [hv_pt_map_l2_loop]. change (Z.of_nat 0 * 2 ^ 25 =? 0) with true.
    split; [reflexivity|]. split; [exact Hinv|]. split; [reflexivity|].
    split; [intros; lia|]. split; reflexivity.
  - rewrite Nat2Z.inj_succ in *. cbn [hv_pt_map_l2_loop].
    destruct (Z.eqb_spec (Z.succ (Z.of_nat n) * 2 ^ 25) 0) as [E|_]; [lia|].
    change VADDR_L2_OFFSET_BITS with 25. change (BIT 25) with (2 ^ 25).
    rewrite Z.shiftr_div_pow2 by lia.
    set (i0 := Z.to_nat (from / 2 ^ 25)).
    assert (Hi0 : (i0 < 2048)%nat) by (unfold i0; zdm).
    assert (He0 : hv_L2 s !! i0 = Some 0) by (apply Hz; lia).
    unfold pt_bind at 1. rewrite (L2_load_eq _ 0) by (fold i0; zdm || exact He0).
    change (L2_IS_TABLE 0) with false. cbv iota.
    unfold pt_bind at 1. unfold pt_ret at 1.
    unfold pt_bind at 1. rewrite L2_store_eq by (rewrite (inv_len s Hinv); zdm).
    fold i0. set (s1 := set_L2 s (<[i0 := t + 0x7FD]> (hv_L2 s))).
    assert (Hblk : hw_block (t + 0x7FD) t) by (repeat split; lia).
    assert (Hinv1 : pt_inv s1).
    { split; unfold s1; cbn [hv_L2 tables brk set_L2].
      - rewrite length_insert. apply (inv_len s Hinv).
      - apply (inv_brk s Hinv).
      - intros k e Hk. destruct (decide (i0 = k)) as [<-|Hne].
        + rewrite list_lookup_insert_eq in Hk by (rewrite (inv_len s Hinv); lia).
          injection Hk as <-. right. left. now exists t.
        + rewrite list_lookup_insert_ne in Hk by exact Hne.
          exact (inv_l2 s Hinv _ _ Hk).
      - intros k1 k2 e Hk1 Hk2 Hmod.
        destruct (decide (i0 = k1)) as [<-|Hn1].
        { rewrite list_lookup_insert_eq in Hk1 by (rewrite (inv_len s Hinv); lia).
          injection Hk1 as <-. zdm. }
        destruct (decide (i0 = k2)) as [<-|Hn2].
        { rewrite list_lookup_insert_eq in Hk2 by (rewrite (inv_len s Hinv); lia).
          injection Hk2 as <-. zdm. }
        rewrite list_lookup_insert_ne in Hk1, Hk2 by assumption.
        eapply (inv_inj s Hinv); eauto. }
    rewrite (u64_small (from + 2 ^ 25)) by lia.
    rewrite (u64_small (1 * 2 ^ 25)) by lia.
    rewrite (u64_small (t + 0x7FD + 1 * 2 ^ 25)) by lia.
    replace (u64 (Z.succ (Z.of_nat n) * 2 ^ 25 - 2 ^ 25)) with (Z.of_nat n * 2 ^ 25)
      by (rewrite u64_small; lia).
    replace (t + 0x7FD + 1 * 2 ^ 25) with (t + 2 ^ 25 + 0x7FD) by lia.
    destruct (IH s1 (from + 2 ^ 25) (t + 2 ^ 25) Hinv1) as
      (s' & Hloop & Hinv' & Hn' & Hin' & Hout' & HL'); [zdm|lia|lia|zdm|lia|lia| |].
    { intros i Hi. unfold s1. cbn [hv_L2 set_L2].
      rewrite list_lookup_insert_ne by (unfold i0; zdm).
      apply Hz. unfold i0. zdm. }
    exists s'. split; [exact Hloop|]. split; [exact Hinv'|].
    split; [rewrite Hn'; reflexivity|]. split; [|split].
    + intros ipa Hipa. destruct (Z.lt_ge_cases ipa (from + 2 ^ 25)) as [Hlo|Hhi].
      * assert (E25 : ipa / 2 ^ 25 = from / 2 ^ 25) by zdm.
        assert (Hs1 : walks_to s1 ipa (t + (ipa / 2 ^ 14) mod 2 ^ 11 * 2 ^ 14)).
        { apply (walk_block s1 ipa (t + 0x7FD) t); [|exact Hblk].
          unfold s1. cbn [hv_L2 set_L2]. rewrite E25. fold i0.
          apply list_lookup_insert_eq. rewrite (inv_len s Hinv). lia. }
        destruct Hs1 as (pte & Hwalk & Hgood).
        exists pte. rewrite Hout' by lia. split; [exact Hwalk|].
        replace ((ipa - from) / 2 ^ 14 * 2 ^ 14)
          with ((ipa / 2 ^ 14) mod 2 ^ 11 * 2 ^ 14) by zdm.
        exact Hgood.
      * replace (t + (ipa - from) / 2 ^ 14 * 2 ^ 14)
          with (t + 2 ^ 25 + (ipa - (from + 2 ^ 25)) / 2 ^ 14 * 2 ^ 14) by zdm.
        apply Hin'. lia.
    + intros ipa Hipa Hnot. rewrite Hout' by lia.
      apply walk_ext; [exact Hinv|exact Hipa| |].
      * unfold s1. cbn [hv_L2 set_L2]. apply list_lookup_insert_ne. unfold i0. zdm.
      * intros q tq Hq Hqo Hqt. exists tq. split; [exact Hqt|reflexivity].
    + intros i Hi. rewrite HL' by lia. unfold s1. cbn [hv_L2 set_L2].
      apply list_lookup_insert_ne. unfold i0. zdm.
Qed.

Lemma hv_pt_map_l2_hw (n : nat) (s : pt_state) (from t : Z) :
  from mod 2 ^ 25 = 0 -> 0 <= from -> t mod 2 ^ 25 = 0 -> 0 <= t ->
  hv_pt_map_l2 from (t + 0x7FD) (Z.of_nat n * 2 ^ 25) 1 s
  = hv_pt_map_l2_loop n from (t + 0x7FD) (Z.of_nat n * 2 ^ 25) 1 s.
Proof.
  intros Hfa Hf0 Hta Ht0. unfold hv_pt_map_l2.
  change VADDR_L2_OFFSET_BITS with 25.
  rewrite <- Z.land_assoc.
  change (Z.land PTE_TARGET_MASK (MASK 25)) with VADDR_L2_ALIGN_MASK.
  rewrite land_L2_ALIGN, !land_low by lia.
  rewrite Hfa, Z.mod_mul by lia. change (0 =? 0) with true.
  replace ((t + 2045) / 2 ^ 14 mod 2 ^ 11 * 2 ^ 14) with 0 by zdm.
  change (0 =? 0) with true. rewrite orb_true_r.
  unfold pt_assert, pt_bind.
  rewrite Z.shiftr_div_pow2, Z.div_mul, Nat2Z.id by lia.
  change (FIELD_PREP PTE_TYPE PTE_BLOCK) with 0. now rewrite Z.lor_0_r.
Qed.

(** ** The phases of hv_map on a hardware range *)

Lemma phase_l3_spec (n : nat) (s : pt_state) (from t size : Z) :
  pt_inv s -> from mod 2 ^ 14 = 0 -> 0 <= from ->
  from + Z.of_nat n * 2 ^ 14 <= 2 ^ 36 ->
  t mod 2 ^ 14 = 0 -> 0 <= t -> t + Z.of_nat n * 2 ^ 14 <= 2 ^ 50 ->
  (forall i e tg, (Z.to_nat (from / 2 ^ 25) <= i)%nat -> hv_L2 s !! i = Some e ->
                  ~ hw_block e tg) ->
  next_ptr s + Z.of_nat n * 2 ^ 14 <= 2 ^ 50 ->
  Z.of_nat n * 2 ^ 14 <= size < 2 ^ 64 ->
  let c := Z.of_nat n * 2 ^ 14 in
  exists s' : pt_state,
    (if nonzero c then
       hv_pt_map_l3 from (t + 0x7FD) c 1;;
       pt_ret (u64 (from + c), u64 (t + 0x7FD + u64 (1 * c)), u64 (size - c))
     else pt_ret (from, t + 0x7FD, size)) s
    = Some ((from + c, t + c + 0x7FD, size - c), s')
    /\ pt_inv s'
    /\ next_ptr s' <= next_ptr s + c
    /\ (forall ipa, from <= ipa < from + c ->
                    walks_to s' ipa (t + (ipa - from) / 2 ^ 14 * 2 ^ 14))
    /\ (forall ipa, 0 <= ipa < 2 ^ 36 -> ~ (from <= ipa < from + c) ->
                    hv_pt_walk ipa s' = hv_pt_walk ipa s)
    /\ (forall i : nat, from + c <= Z.of_nat i * 2 ^ 25 ->
                        hv_L2 s' !! i = hv_L2 s !! i)
    /\ (forall (i : nat) (e tg : Z), hv_L2 s' !! i = Some e -> hw_block e tg ->
                                     hv_L2 s !! i = Some e).
Proof.
  intros Hinv Hfa Hf0 Hfb Hta Ht0 Htb Hnb Hroom Hsz c.
  destruct (map_l3_loop_spec n s from t) as (s' & Hloop & Hpost); try assumption.
  exists s'. split; [|exact Hpost].
  unfold nonzero. destruct (Z.eqb_spec c 0) as [E|E]; cbn [negb].
  - assert (n = 0%nat) by (unfold c in E; lia). subst n.
    cbn [hv_pt_map_l3_loop] in Hloop. change (Z.of_nat 0 * 2 ^ 14 =? 0) with true in Hloop.
    unfold pt_ret in *. injection Hloop as <-.
    rewrite E, !Z.add_0_r, Z.sub_0_r. reflexivity.
  - unfold pt_bind. unfold c. rewrite hv_pt_map_l3_hw by assumption. rewrite Hloop.
    fold c. unfold pt_ret.
    rewrite (u64_small (1 * c)) by (unfold c; lia).
    rewrite !u64_small by (unfold c; lia).
    replace (t + 2045 + 1 * c) with (t + c + 2045) by lia. reflexivity.
Qed.

Lemma phase_l2_spec (n : nat) (s : pt_state) (from t size : Z) :
  pt_inv s -> 0 <= from -> from + Z.of_nat n * 2 ^ 25 <= 2 ^ 36 ->
  (n <> 0%nat -> from mod 2 ^ 25 = 0) ->
  t mod 2 ^ 14 = 0 -> 0 <= t -> t + Z.of_nat n * 2 ^ 25 <= 2 ^ 50 ->
  (forall i : nat, (i < 2048)%nat -> from <= Z.of_nat i * 2 ^ 25 ->
                   hv_L2 s !! i = Some 0) ->
  Z.of_nat n * 2 ^ 25 <= size < 2 ^ 64 ->
  let c := Z.of_nat n * 2 ^ 25 in
  let taken := nonzero c && (negb true || (Z.land (t + 0x7FD) VADDR_L2_ALIGN_MASK =? 0)) in
  let c' := if taken then c else 0 in
  exists s' : pt_state,
    (if taken then
       hv_pt_map_l2 from (t + 0x7FD) c 1;;
       pt_ret (u64 (from + c), u64 (t + 0x7FD + u64 (1 * c)), u64 (size - c))
     else pt_ret (from, t + 0x7FD, size)) s
    = Some ((from + c', t + c' + 0x7FD, size - c'), s')
    /\ pt_inv s'
    /\ next_ptr s' = next_ptr s
    /\ (forall ipa, from <= ipa < from + c' ->
                    walks_to s' ipa (t + (ipa - from) / 2 ^ 14 * 2 ^ 14))
    /\ (forall ipa, 0 <= ipa < 2 ^ 36 -> ~ (from <= ipa < from + c') ->
                    hv_pt_walk ipa s' = hv_pt_walk ipa s)
    /\ (forall i : nat, from + c' <= Z.of_nat i * 2 ^ 25 ->
                        hv_L2 s' !! i = hv_L2 s !! i)
    /\ (taken = false -> s' = s).
Proof.
  intros Hinv Hf0 Hfb Hfa Hta Ht0 Htb Hz Hsz c taken c'.
  assert (Hskip : taken = false ->
            exists s' : pt_state,
              pt_ret (from, t + 0x7FD, size) s = Some ((from + 0, t + 0 + 0x7FD, size - 0), s')
              /\ pt_inv s' /\ next_ptr s' = next_ptr s
              /\ (forall ipa, from <= ipa < from + 0 ->
                              walks_to s' ipa (t + (ipa - from) / 2 ^ 14 * 2 ^ 14))
              /\ (forall ipa, 0 <= ipa < 2 ^ 36 -> ~ (from <= ipa < from + 0) ->
                              hv_pt_walk ipa s' = hv_pt_walk ipa s)
              /\ (forall i : nat, from + 0 <= Z.of_nat i * 2 ^ 25 ->
                                  hv_L2 s' !! i = hv_L2 s !! i)
              /\ (false = false -> s' = s)).
  { intros _. exists s. unfold pt_ret.
    split; [rewrite !Z.add_0_r, Z.sub_0_r; reflexivity|].
    split; [exact Hinv|]. split; [reflexivity|]. split; [intros; lia|].
    split; [reflexivity|]. split; reflexivity. }
  unfold c'. destruct taken eqn:Etaken; [|now apply Hskip].
  unfold taken in Etaken. apply andb_true_iff in Etaken. destruct Etaken as (Enz & Eal).
  cbn [negb orb] in Eal. apply Z.eqb_eq in Eal. rewrite land_L2_ALIGN in Eal.
  assert (Hn : n <> 0%nat).
  { intros ->. unfold c in Enz. discriminate. }
  specialize (Hfa Hn).
  assert (Hta25 : t mod 2 ^ 25 = 0) by zdm.
  destruct (map_l2_loop_spec n s from t) as (s' & Hloop & Hpost); try assumption.
  { intros i Hi. apply Hz; [lia|]. zdm. }
  exists s'.
  split; [|destruct Hpost as (? & ? & ? & ? & ?); repeat (split; [assumption|]);
           discriminate].
  unfold pt_bind. unfold c. rewrite hv_pt_map_l2_hw by assumption. rewrite Hloop.
  fold c. unfold pt_ret.
  rewrite (u64_small (1 * c)) by (unfold c; lia).
  rewrite !u64_small by (unfold c; lia).
  replace (t + 2045 + 1 * c) with (t + c + 2045) by lia. reflexivity.
Qed.

Lemma hw_target_make (to : Z) :
  to mod 2 ^ 14 = 0 -> 0 <= to ->
  Z.lor (Z.lor to PTE_ATTRIBUTES) PTE_VALID = to + 0x7FD.
Proof.
  intros Ha H0. change PTE_ATTRIBUTES with 2044.
  assert (E : Z.lor to 2044 = to + 2044).
  { apply lor_disjoint. rewrite Z.land_comm.
    assert (Eq : to = to / 2 ^ 14 * 2 ^ 14) by zdm.
    rewrite Eq. apply land_lo_hi; lia. }
  rewrite E. rewrite lor_disjoint; [change PTE_VALID with 1; lia|].
  rewrite land_VALID. zdm.
Qed.

Lemma min_eq (a b : Z) : min a b = Z.min a b.
Proof. unfold min. destruct (Z.ltb_spec a b); lia. Qed.

Lemma hv_map_hw_spec (s : pt_state) (from to size : Z) :
  pt_inv s ->
  (forall i : nat, (i < 2048)%nat -> hv_L2 s !! i = Some 0) ->
  from mod 2 ^ 14 = 0 -> to mod 2 ^ 14 = 0 -> size mod 2 ^ 14 = 0 ->
  0 <= from -> 0 <= size -> from + size <= 2 ^ 36 ->
  0 <= to -> to + size <= 2 ^ 50 ->
  next_ptr s + size <= 2 ^ 50 ->
  exists s' : pt_state,
    hv_map_hw from to size s = Some (0, s')
    /\ pt_inv s'
    /\ (forall ipa, from <= ipa < from + size ->
                    walks_to s' ipa (to + (ipa - from) / 2 ^ 14 * 2 ^ 14))
    /\ (forall ipa, 0 <= ipa < 2 ^ 36 -> ~ (from <= ipa < from + size) ->
                    hv_pt_walk ipa s' = hv_pt_walk ipa s)
    /\ next_ptr s' <= next_ptr s + size.
Proof.
  intros Hinv Hz Hfa Hta Hsa Hf0 Hs0 Hfb Ht0 Htb Hroom.
  unfold hv_map_hw. rewrite (hw_target_make to Hta Ht0).
  unfold hv_map. rewrite (hw_entry_is_hw to Hta Ht0).
  change VADDR_L4_OFFSET_BITS with 2. change VADDR_L3_OFFSET_BITS with 14.
  change VADDR_L2_OFFSET_BITS with 25.
  rewrite !land_low by lia.
  replace (from mod 2 ^ 2) with 0 by zdm. replace (size mod 2 ^ 2) with 0 by zdm.
  rewrite Hfa, Hsa. change (nonzero 0) with false. cbn [orb andb]. cbv iota.
  cbv zeta.
  (* head L4 *)
  rewrite (ALIGN_UP_eq from 14) by lia.
  replace ((from + 2 ^ 14 - 1) / 2 ^ 14 * 2 ^ 14 - from) with 0 by zdm.
  change (u64 0) with 0. rewrite (min_eq size 0), Z.min_r by lia.
  change (nonzero 0) with false. cbv iota.
  unfold pt_bind at 1. unfold pt_ret at 1.
  (* head L3 *)
  rewrite (ALIGN_UP_eq from 25) by lia.
  set (d := (from + 2 ^ 25 - 1) / 2 ^ 25 * 2 ^ 25 - from).
  assert (Hd : 0 <= d < 2 ^ 25 /\ d mod 2 ^ 14 = 0 /\ (from + d) mod 2 ^ 25 = 0)
    by (unfold d; zdm).
  rewrite (u64_small d) by lia. rewrite (min_eq size d).
  set (m := Z.min size d).
  assert (Hm : 0 <= m <= size /\ m <= d /\ m mod 2 ^ 14 = 0 /\ (m = size \/ m = d))
    by (unfold m; destruct (Z.min_spec size d) as [(? & ->)|(? & ->)]; repeat split; try lia; zdm).
  clearbody m.
  rewrite (ALIGN_DOWN_eq m 14) by lia.
  set (n1 := Z.to_nat (m / 2 ^ 14)).
  assert (Ec1 : m / 2 ^ 14 * 2 ^ 14 = Z.of_nat n1 * 2 ^ 14) by (unfold n1; zdm).
  assert (Ec1' : Z.of_nat n1 * 2 ^ 14 = m) by (unfold n1; zdm).
  rewrite Ec1.
  destruct (phase_l3_spec n1 s from to size Hinv Hfa Hf0) as
    (s1 & Hph1 & Hinv1 & Hn1 & Hin1 & Hout1 & HL1 & Hnew1); try lia.
  { intros i e tg Hi He Hb.
    assert (i < 2048)%nat by (apply lookup_lt_Some in He; rewrite (inv_len s Hinv) in He; lia).
    rewrite Hz in He by lia. injection He as <-. destruct Hb. lia. }
  unfold pt_bind at 1. rewrite Hph1. clear Hph1.
  rewrite Ec1' in *.
  (* L2 *)
  set (from1 := from + m). set (t1 := to + m). set (size1 := size - m).
  rewrite (ALIGN_DOWN_eq size1 25) by (unfold size1; lia).
  set (n2 := Z.to_nat (size1 / 2 ^ 25)).
  assert (Ec2 : size1 / 2 ^ 25 * 2 ^ 25 = Z.of_nat n2 * 2 ^ 25) by (unfold n2, size1; zdm).
  rewrite Ec2.
  assert (Hn2 : Z.of_nat n2 * 2 ^ 25 <= size1) by (unfold n2, size1; zdm).
  destruct (phase_l2_spec n2 s1 from1 t1 size1 Hinv1) as
    (s2 & Hph2 & Hinv2 & Hnp2 & Hin2 & Hout2 & HL2 & Hskip2);
    try (unfold from1, t1, size1 in *; lia).
  { intros Hne. unfold from1.
    assert (Emd : m = d).
    { destruct Hm as (? & ? & ? & [E | E]); [|exact E].
      exfalso. apply Hne. unfold n2, size1. rewrite E, Z.sub_diag. reflexivity. }
    rewrite Emd. tauto. }
  { unfold t1. zdm. }
  { intros i Hi Hge. rewrite HL1 by (unfold from1 in Hge; lia). now apply Hz. }
  unfold pt_bind at 1. rewrite Hph2. clear Hph2.
  set (taken := nonzero (Z.of_nat n2 * 2 ^ 25) && _) in *.
  set (c2 := if taken then Z.of_nat n2 * 2 ^ 25 else 0) in *.
  assert (Hc2 : 0 <= c2 <= size1 /\ c2 mod 2 ^ 14 = 0
                /\ (taken = true -> from1 mod 2 ^ 25 = 0 /\ c2 mod 2 ^ 25 = 0
                                    /\ size1 - c2 < 2 ^ 25)).
  { unfold c2. destruct taken eqn:Et.
    - split; [lia|]. split; [zdm|]. intros _.
      unfold taken in Et. apply andb_true_iff in Et. destruct Et as (Enz & _).
      assert (n2 <> 0%nat) by (intros E0; rewrite E0 in Enz; discriminate).
      assert (Emd : m = d).
      { destruct Hm as (? & ? & ? & [E | E]); [|exact E].
        exfalso. apply H. unfold n2, size1. rewrite E, Z.sub_diag. reflexivity. }
      unfold from1, n2, size1. split; [rewrite Emd; tauto|]. split; zdm.
    - split; [unfold size1; lia|]. split; [reflexivity|]. discriminate. }
  (* tail L3 *)
  set (from2 := from1 + c2). set (t2 := t1 + c2). set (size2 := size1 - c2).
  rewrite (ALIGN_DOWN_eq size2 14) by (unfold size2, size1; lia).
  set (n3 := Z.to_nat (size2 / 2 ^ 14)).
  assert (Ec3 : size2 / 2 ^ 14 * 2 ^ 14 = Z.of_nat n3 * 2 ^ 14)
    by (unfold n3, size2, size1; zdm).
  assert (Ec3' : Z.of_nat n3 * 2 ^ 14 = size2) by (unfold n3, size2, size1; zdm).
  rewrite Ec3.
  destruct (phase_l3_spec n3 s2 from2 t2 size2 Hinv2) as
    (s3 & Hph3 & Hinv3 & Hn3 & Hin3 & Hout3 & HL3 & Hnew3);
    try (unfold from2, t2, size2, from1, t1, size1 in *; lia).
  { unfold from2, from1. zdm. }
  { unfold t2, t1. zdm. }
  { intros i e tg Hi He Hb.
    assert (Hi2 : (i < 2048)%nat)
      by (apply lookup_lt_Some in He; rewrite (inv_len s2 Hinv2) in He; lia).
    destruct taken eqn:Et.
    - destruct Hc2 as (_ & _ & Hal). destruct (Hal eq_refl) as (Ha1 & Ha2 & _).
      assert (Hge : from2 <= Z.of_nat i * 2 ^ 25) by (unfold from2 in *; zdm).
      rewrite HL2 in He by (unfold from2 in Hge; lia).
      rewrite HL1 in He by (unfold from2, from1 in Hge; lia).
      rewrite Hz in He by lia. injection He as <-. destruct Hb. lia.
    - rewrite (Hskip2 eq_refl) in He. apply (Hnew1 i e tg) in He; [|exact Hb].
      rewrite Hz in He by lia. injection He as <-. destruct Hb. lia. }
  unfold pt_bind at 1. rewrite Hph3. clear Hph3.
  rewrite Ec3' in *. rewrite Z.sub_diag. change (nonzero 0) with false. cbv iota.
  unfold pt_bind, pt_ret.
  exists s3. split; [reflexivity|]. split; [exact Hinv3|]. split.
  - intros ipa Hipa.
    destruct (Z.lt_ge_cases ipa from1) as [H1|H1].
    { destruct (Hin1 ipa ltac:(unfold from1 in H1; lia)) as (pte & Hw & Hg).
      exists pte. split; [|exact Hg].
      rewrite Hout3 by (unfold from2 in *; lia).
      rewrite Hout2 by (unfold from2 in *; lia). exact Hw. }
    destruct (Z.lt_ge_cases ipa from2) as [H2|H2].
    { destruct (Hin2 ipa ltac:(unfold from2 in H2; lia)) as (pte & Hw & Hg).
      exists pte. split.
      - rewrite Hout3 by (unfold from2, from1 in *; lia). exact Hw.
      - replace (to + (ipa - from) / 2 ^ 14 * 2 ^ 14)
          with (t1 + (ipa - from1) / 2 ^ 14 * 2 ^ 14)
          by (unfold t1, from1 in *; zdm).
        exact Hg. }
    replace (to + (ipa - from) / 2 ^ 14 * 2 ^ 14)
      with (t2 + (ipa - from2) / 2 ^ 14 * 2 ^ 14)
      by (unfold t2, t1, from2, from1 in *; zdm).
    apply Hin3. unfold size2, size1, from2, from1 in *. lia.
  - split.
    + intros ipa Hipa Hnot.
      rewrite Hout3 by (unfold size2, size1, from2, from1 in *; lia).
      rewrite Hout2 by (unfold size2, size1, from2, from1 in *; lia).
      apply Hout1; [exact Hipa|]. unfold size2, size1, from2, from1 in *. lia.
    + unfold size2, size1 in *. lia.
Qed.

Lemma hv_pt_init_eq (s0 : pt_state) :
  hv_pt_init s0 = Some (tt, mk_pt (replicate 2048 0) (tables s0) (brk s0)).
Proof. reflexivity. Qed.

Lemma pt_inv_init (s0 : pt_state) :
  0 <= brk s0 <= 2 ^ 50 ->
  let s := mk_pt (replicate 2048 0) (tables s0) (brk s0) in
  pt_inv s /\ forall i : nat, (i < 2048)%nat -> hv_L2 s !! i = Some 0.
Proof.
  intros Hb s.
  assert (Hz : forall (i : nat) (e : Z), hv_L2 s !! i = Some e -> e = 0).
  { intros i e He. apply lookup_replicate in He. tauto. }
  split.
  - split.
    + apply length_replicate.
    + exact Hb.
    + intros i e He. left. eauto.
    + intros i j e Hi _ Hmod. apply Hz in Hi. subst e. discriminate.
  - intros i Hi. apply lookup_replicate. split; [reflexivity|lia].
Qed.

(** C1 (amended): after [hv_pt_init] and [hv_map_hw from to size], with
    [from], [to] and [size] multiples of 16 KiB, the range inside the
    36-bit IPA space and the targets below 2^50, the map succeeds and the
    walk of every IPA of [[from, from + size)] yields a PTE with VALID set
    whose TARGET field is the 16 KiB page of [to + (ipa - from)], that is
    [to + (ipa - from)] less the offset of [ipa] in its page. *)
Theorem map_hw_walk_roundtrip (s0 : pt_state) (from to size ipa : Z) :
  0 <= brk s0 <= 2 ^ 49 ->
  from mod 2 ^ 14 = 0 -> to mod 2 ^ 14 = 0 -> size mod 2 ^ 14 = 0 ->
  0 <= from -> 0 <= size -> from + size <= 2 ^ 36 ->
  0 <= to -> to + size <= 2 ^ 50 ->
  from <= ipa < from + size ->
  exists (s1 : pt_state) (pte : Z),
    (hv_pt_init;; hv_map_hw from to size) s0 = Some (0, s1)
    /\ hv_pt_walk ipa s1 = Some pte
    /\ Z.land pte PTE_VALID = 1
    /\ Z.land pte PTE_TARGET_MASK = to + (ipa - from) - ipa mod 2 ^ 14.
Proof.
  intros Hb Hfa Hta Hsa Hf0 Hs0 Hfb Ht0 Htb Hipa.
  destruct (pt_inv_init s0) as (Hinv & Hz); [lia|].
  set (s := mk_pt (replicate 2048 0) (tables s0) (brk s0)) in *.
  destruct (hv_map_hw_spec s from to size Hinv Hz) as (s1 & Hmap & _ & Hin & _);
    try assumption.
  { rewrite next_ptr_eq by (unfold s; cbn [brk]; lia). unfold s. cbn [brk]. zdm. }
  destruct (Hin ipa Hipa) as (pte & Hw & Hv & Ht).
  exists s1, pte. unfold pt_bind. rewrite hv_pt_init_eq. fold s.
  split; [exact Hmap|]. split; [exact Hw|]. split; [exact Hv|].
  rewrite Ht. zdm.
Qed.

Lemma map_hw_walk_roundtrip_witness :
  exists (s1 : pt_state) (pte : Z),
    (hv_pt_init;; hv_map_hw 0x100000 0x100000 0x4000) (mk_pt [] ∅ 0x10000000)
    = Some (0, s1)
    /\ hv_pt_walk 0x100010 s1 = Some pte
    /\ Z.land pte PTE_VALID = 1
    /\ Z.land pte PTE_TARGET_MASK = 0x100000 + (0x100010 - 0x100000) - 0x100010 mod 2 ^ 14.
Proof.
  apply (map_hw_walk_roundtrip (mk_pt [] ∅ 0x10000000) 0x100000 0x100000 0x4000 0x100010);
    try reflexivity; cbn [brk]; lia.
Defined.

(** C1 as stated fails at an IPA that is not a multiple of 16 KiB: the
    TARGET field holds the page, not [to + (ipa - from)]. *)
Lemma map_hw_target_is_page :
  exists (s1 : pt_state) (pte : Z),
    pt_after (hv_map_hw 0x100000 0x100000 0x4000) = Some s1
    /\ hv_pt_walk 0x100010 s1 = Some pte
    /\ Z.land pte PTE_VALID = 1
    /\ Z.land pte PTE_TARGET_MASK = 0x100000
    /\ Z.land pte PTE_TARGET_MASK <> 0x100000 + (0x100010 - 0x100000).
Proof.
  eexists _, _. split; [vm_compute; reflexivity|].
  split; [vm_compute; reflexivity|].
  split; [reflexivity|]. split; [reflexivity|]. discriminate.
Qed.

(** ** Load emulation *)

(** A bit of [insn] that a mask-and-value test fixes. *)
Lemma land_bit (insn m v k : Z) :
  Z.land insn m = v -> Z.testbit m k = true -> Z.testbit insn k = Z.testbit v k.
Proof.
  intros <- Hm. rewrite Z.land_spec, Hm. now rewrite andb_true_r.
Qed.

Lemma emulate_load_success_independent (regs regs' : gmap Z Z) (insn v : Z) :
  (emulate_load regs insn None).1.1 = true ->
  (emulate_load regs' insn (Some v)).1.1 = true.
Proof.
  unfold emulate_load.
  repeat match goal with
         | |- context [if ?c then _ else _] => destruct c
         end; simpl; congruence.
Qed.

Lemma mod_pow_split (n b k : Z) :
  0 <= b -> 0 <= k ->
  ((n mod 2 ^ (b + k)) * 2 ^ k) mod 2 ^ (b + k) = (n mod 2 ^ b) * 2 ^ k.
Proof.
  intros Hb Hk. rewrite Z.pow_add_r by lia.
  assert (0 < 2 ^ b) by (apply Z.pow_pos_nonneg; lia).
  assert (0 < 2 ^ k) by (apply Z.pow_pos_nonneg; lia).
  rewrite Z.mul_mod_distr_r by lia. f_equal.
  rewrite Z.rem_mul_r by lia.
  rewrite (Z.mul_comm (2 ^ b) ((n / 2 ^ b) mod 2 ^ k)), Z.mod_add by lia.
  apply Z.mod_mod. lia.
Qed.

(** For a width of 1 to 32 bits the macro [EXT] is the sign extension. *)
Lemma EXT_sign_extension (n b : Z) :
  0 < b <= 32 ->
  EXT n b = (let m := n mod 2 ^ b in if m <? 2 ^ (b - 1) then m else m - 2 ^ b).
Proof.
  intros Hb. unfold EXT. cbv zeta.
  rewrite (Z.mod_small (32 - b) 32) by lia.
  set (k := 32 - b).
  assert (Hk : 0 <= k) by (unfold k; lia).
  assert (E32 : 2 ^ 32 = 2 ^ (b + k)) by (f_equal; unfold k; lia).
  set (m := n mod 2 ^ b).
  assert (Hm : 0 <= m < 2 ^ b) by (apply Z.mod_pos_bound, Z.pow_pos_nonneg; lia).
  assert (HP : 0 < 2 ^ k) by (apply Z.pow_pos_nonneg; lia).
  assert (HB : 2 ^ b = 2 * 2 ^ (b - 1)).
  { replace b with (1 + (b - 1)) at 1 by lia. rewrite Z.pow_add_r by lia. reflexivity. }
  assert (H31 : 2 ^ 31 = 2 ^ (b - 1) * 2 ^ k).
  { rewrite <- Z.pow_add_r by lia. f_equal. unfold k. lia. }
  assert (H32 : 2 ^ 32 = 2 ^ b * 2 ^ k) by (rewrite E32; apply Z.pow_add_r; lia).
  assert (E1 : u32 (Z.shiftl (u32 n) k) = m * 2 ^ k).
  { unfold u32. rewrite Z.shiftl_mul_pow2 by lia. rewrite E32.
    now apply mod_pow_split; lia. }
  rewrite E1. unfold s32. cbv zeta.
  assert (E2 : u32 (m * 2 ^ k) = m * 2 ^ k).
  { unfold u32. apply Z.mod_small. nia. }
  rewrite E2, Z.shiftr_div_pow2 by lia. rewrite H31, H32.
  destruct (Z.ltb_spec (m * 2 ^ k) (2 ^ (b - 1) * 2 ^ k)) as [Hlt|Hge];
    destruct (Z.ltb_spec m (2 ^ (b - 1))) as [Hlt'|Hge']; try nia.
  - apply Z.div_mul. lia.
  - replace (m * 2 ^ k - 2 ^ b * 2 ^ k) with ((m - 2 ^ b) * 2 ^ k) by lia.
    apply Z.div_mul. lia.
Qed.

(** C4 (amended): on a pre/post-index load whose base is not register 31,
    the first decode pass (no value) succeeds and leaves the register frame
    as it is; base-register writeback [regs[Rn] += imm9] is applied by the
    second pass, which then commits the value to [regs[Rt]] unless [Rt] is
    31: the value as it is for LDR, and for LDRS of 8, 16 or 32 bits the
    value sign-extended from the access size.  (For LDRS with size bits 3
    the shift count of [EXT] is out of range, which C leaves undefined:
    that case is left out.)  For every instruction, the second pass
    succeeds whenever the first does. *)
Theorem load_two_pass (regs : gmap Z Z) (insn v : Z) :
  let Rt := Z.land insn 0x1f in
  let Rn := Z.land (Z.shiftr insn 5) 0x1f in
  let imm9 := u64 (EXT (Z.land (Z.shiftr insn 12) 0x1ff) 9) in
  let width := Z.shiftr insn 30 in
  let ldr := Z.land insn 0x3fe00400 =? 0x38400400 in
  let ldrs := Z.land insn 0x3fa00400 =? 0x38800400 in
  ldr || ldrs = true ->
  Rn <> 31 ->
  (ldr = false -> 0 <= width <= 2) ->
  emulate_load regs insn None = (true, regs, width)
  /\ emulate_load regs insn (Some v)
     = (true,
        (let regs1 := <[Rn := u64 (reg regs Rn + imm9)]> regs in
         if Rt =? 31 then regs1
         else <[Rt := if ldr then v
                      else u64 (sign_extend (Z.shiftl 8 width) v)]> regs1),
        width)
  /\ forall (insn' v' : Z) (r r' : gmap Z Z),
       (emulate_load r insn' None).1.1 = true ->
       (emulate_load r' insn' (Some v')).1.1 = true.
Proof.
  intros Rt Rn imm9 width ldr ldrs Hform HRn Hw.
  assert (HRn' : (Rn =? 31) = false) by now apply Z.eqb_neq.
  assert (Hext : ldr = false ->
                 EXT v (Z.shiftl 8 width) = sign_extend (Z.shiftl 8 width) v).
  { intros Hl. specialize (Hw Hl). unfold sign_extend.
    apply EXT_sign_extension.
    assert (Hc : width = 0 \/ width = 1 \/ width = 2) by lia.
    destruct Hc as [Hc | [Hc | Hc]]; rewrite Hc; vm_compute;
      split; congruence. }
  split; [|split].
  3: { intros. eapply emulate_load_success_independent; eauto. }
  all: unfold emulate_load; fold Rt Rn imm9 width; fold ldr.
  all: destruct ldr eqn:E1; [rewrite HRn'; destruct (Rt =? 31); reflexivity|].
  all: try rewrite <- Hext by first [reflexivity | assumption].
  all: simpl in Hform; unfold ldrs in Hform; apply Z.eqb_eq in Hform.
  all: assert (E2 : (Z.land insn 0x3fc00000 =? 0x39400000) = false)
      by (apply Z.eqb_neq; intros E;
          pose proof (land_bit _ _ _ 24 Hform eq_refl) as B1;
          pose proof (land_bit _ _ _ 24 E eq_refl) as B2;
          rewrite B1 in B2; discriminate).
  all: rewrite E2; apply Z.eqb_eq in Hform; fold ldrs in Hform |- *; rewrite Hform.
  all: rewrite HRn'; destruct (Rt =? 31); reflexivity.
Qed.

Lemma load_two_pass_witness :
  let insn := 0xF8408401 in            (* ldr x1, [x0], #8 *)
  let insn' := 0x78808401 in           (* ldrsh x1, [x0], #8 *)
  let regs : gmap Z Z := {[ 0 := 0x1000 ]} in
  (emulate_load regs insn None = (true, regs, 3)
   /\ emulate_load regs insn (Some 0xABCD)
      = (true, <[1 := 0xABCD]> (<[0 := 0x1008]> regs), 3))
  /\ (emulate_load regs insn' None = (true, regs, 1)
      /\ emulate_load regs insn' (Some 0x128001)
         = (true, <[1 := 0xFFFFFFFFFFFF8001]> (<[0 := 0x1008]> regs), 1)).
Proof.
  intros insn insn' regs. split.
  - destruct (load_two_pass regs insn 0xABCD) as (H1 & H2 & _).
    + reflexivity.
    + discriminate.
    + discriminate.
    + split; [exact H1|]. rewrite H2. reflexivity.
  - destruct (load_two_pass regs insn' 0x128001) as (H1 & H2 & _).
    + reflexivity.
    + discriminate.
    + intros _. vm_compute. split; discriminate.
    + split; [exact H1|]. rewrite H2. reflexivity.
Defined.

(** C4 as stated fails: after the first pass of a post-index load the base
    register has not been written back. *)
Lemma first_pass_no_writeback :
  let insn := 0xF8408401 in            (* ldr x1, [x0], #8 *)
  let regs : gmap Z Z := {[ 0 := 0x1000 ]} in
  Z.land insn 0x3fe00400 = 0x38400400
  /\ exists regs' : gmap Z Z,
       emulate_load regs insn None = (true, regs', 3)
       /\ reg regs' 0 = 0x1000
       /\ reg regs' 0 <> u64 (reg regs 0 + 8).
Proof.
  intros insn regs. split; [reflexivity|].
  exists regs. split; [reflexivity|]. split; [reflexivity|]. discriminate.
Qed.

(** ** The abort handler *)

Lemma elr_writes_app (t1 t2 : list effect) :
  elr_writes (t1 ++ t2) = elr_writes t1 ++ elr_writes t2.
Proof. unfold elr_writes. apply flat_map_app. Qed.

Lemma elr_writes_trace_effects (env : hv_env) (iodev pte enabled flags pc addr data : Z) :
  elr_writes (trace_effects env iodev pte enabled flags pc addr data) = [].
Proof.
  unfold trace_effects.
  destruct (nonzero (Z.land pte enabled)); [|reflexivity].
  destruct (nonzero (Z.land pte SPTE_SYNC_TRACE)); reflexivity.
Qed.

Lemma is_io_trace_effects (env : hv_env) (iodev pte enabled flags pc addr data : Z) :
  forallb is_io (trace_effects env iodev pte enabled flags pc addr data) = true.
Proof.
  unfold trace_effects.
  destruct (nonzero (Z.land pte enabled)); [|reflexivity].
  destruct (nonzero (Z.land pte SPTE_SYNC_TRACE)); reflexivity.
Qed.

Lemma emulate_load_fail_regs (regs : gmap Z Z) (insn : Z) (val : option Z) :
  (emulate_load regs insn val).1.1 = false ->
  (emulate_load regs insn val).1.2 = regs.
Proof.
  unfold emulate_load.
  repeat match goal with
         | |- context [if ?c then _ else _] => destruct c
         | |- context [match val with _ => _ end] => destruct val
         end; simpl; congruence.
Qed.

Ltac case_if :=
  match goal with
  | H : context [if ?c then _ else _] |- _ => destruct c eqn:?
  end.

Ltac case_pair H :=
  match type of H with
  | context [let '(_, _) := ?p in _] => destruct p eqn:?
  end.

(** C7: the handler writes ELR_EL2 only on its success path, once and with
    [elr + 4]; when it returns false ELR_EL2 is not written.  It returns
    false when the stage-1 translation of FAR or of ELR fails, when the IPA
    is not below 2^36 or is unmapped, when the PTE is a hardware entry, when
    the instruction is not one of the supported encodings, and when an
    in-hypervisor hook reports failure. *)
Theorem dabort_elr (env : hv_env) (pt : pt_state) (iodev esr far elr : Z)
  (regs regs' : gmap Z Z) (ok : bool) (t : list effect) :
  hv_handle_dabort env pt iodev esr far elr regs = Some (ok, regs', t) ->
  let wnr := nonzero (Z.land esr ESR_ISS_DABORT_WnR) in
  let ipa := hv_translate env far true wnr in
  let elr_pa := hv_translate env elr false false in
  let insn := u32 (read32 env elr_pa) in
  let width := Z.shiftr insn 30 in
  let val := if wnr then (emulate_store regs insn 0).1.2 else 0 in
  elr_writes t = (if ok then [u64 (elr + 4)] else [])
  /\ (ok = true -> last t = Some (MsrElr (u64 (elr + 4))))
  /\ (ipa = 0
      \/ 2 ^ 36 <= ipa
      \/ hv_pt_walk ipa pt = Some 0
      \/ (exists pte, hv_pt_walk ipa pt = Some pte /\ IS_HW pte = true)
      \/ elr_pa = 0
      \/ (wnr = true /\ (emulate_store regs insn 0).1.1.1 = false)
      \/ (wnr = false /\ (emulate_load regs insn None).1.1 = false)
      \/ (exists pte, hv_pt_walk ipa pt = Some pte
                      /\ FIELD_GET SPTE_TYPE pte = SPTE_HOOK
                      /\ (hook_call env (Z.land pte PTE_TARGET_MASK_L4) ipa val
                            wnr width).1 = false)
      -> ok = false).
Proof.
  intros H wnr ipa elr_pa insn width val.
  unfold hv_handle_dabort in H. fold wnr ipa elr_pa insn in H.
  destruct (Z.eqb_spec ipa 0) as [Hipa|Hipa].
  { injection H; intros; subst. repeat split; try discriminate. }
  change (BIT VADDR_BITS) with (2 ^ 36) in H.
  destruct (Z.leb_spec (2 ^ 36) ipa) as [Hhi|Hhi].
  { injection H; intros; subst. repeat split; try discriminate. }
  destruct (hv_pt_walk ipa pt) as [pte|] eqn:Hwalk; [|discriminate].
  destruct (Z.eqb_spec pte 0) as [Hpte|Hpte].
  { injection H; intros; subst. repeat split; try discriminate. }
  destruct (IS_HW pte) eqn:Hhw.
  { injection H; intros; subst. repeat split; try discriminate. }
  destruct (Z.eqb_spec elr_pa 0) as [Hpa|Hpa].
  { injection H; intros; subst. repeat split; try discriminate. }
  assert (Hpre : forall P : Prop,
            (ipa = 0 \/ 2 ^ 36 <= ipa \/ Some pte = Some 0
             \/ (exists pte0, Some pte = Some pte0 /\ IS_HW pte0 = true)
             \/ elr_pa = 0 \/ P) -> P).
  { intros P [?|[?|[?|[(p & Hp & Hp')|[?|?]]]]]; try (lia || congruence). }
  destruct wnr eqn:Hwnr.
  - (* store *)
    unfold val. clear val.
    destruct (emulate_store regs insn 0) as [[[sok regs1] sval] swidth] eqn:Hst.
    assert (Hw : swidth = width).
    { unfold emulate_store in Hst. fold width in Hst.
      repeat case_if; injection Hst; intros; subst; reflexivity. }
    subst swidth. cbn [fst snd].
    destruct sok; cbn [negb] in H.
    2: { injection H; intros; subst. repeat split; try discriminate. }
    set (tr := trace_effects _ _ _ _ _ _ _ _) in H.
    assert (Htr : elr_writes tr = []) by apply elr_writes_trace_effects.
    destruct ((FIELD_GET SPTE_TYPE pte =? SPTE_PROXY_HOOK_R)
              || (FIELD_GET SPTE_TYPE pte =? SPTE_MAP)) eqn:Hmap.
    { injection H; intros; subst. split; [|split].
      - rewrite elr_writes_app, Htr. reflexivity.
      - intros _. rewrite last_app. reflexivity.
      - intros Hc. apply Hpre in Hc.
        destruct Hc as [(_ & ?)|[(? & _)|(p & Hp & Hty & _)]]; try discriminate.
        injection Hp as <-. rewrite Hty in Hmap. discriminate. }
    destruct (Z.eqb_spec (FIELD_GET SPTE_TYPE pte) SPTE_HOOK) as [Hhook|Hhook].
    { destruct (hook_call env _ ipa sval true width) as [hok hval] eqn:Hcall.
      destruct hok; cbn [negb] in H; injection H; intros; subst.
      - split; [|split].
        + rewrite !elr_writes_app, Htr. reflexivity.
        + intros _. rewrite last_app. reflexivity.
        + intros Hc. apply Hpre in Hc.
          destruct Hc as [(_ & ?)|[(? & _)|(p & Hp & _ & Hf)]]; try discriminate.
          injection Hp as <-. rewrite Hcall in Hf. discriminate.
      - split; [|split; [discriminate|reflexivity]].
        rewrite !elr_writes_app, Htr. reflexivity. }
    destruct ((FIELD_GET SPTE_TYPE pte =? SPTE_PROXY_HOOK_RW)
              || (FIELD_GET SPTE_TYPE pte =? SPTE_PROXY_HOOK_W)) eqn:Hpx.
    { destruct (hv_exc_proxy env regs1 _ _ ipa sval) as [regs2 d].
      injection H; intros; subst. split; [|split].
      - rewrite elr_writes_app, Htr. reflexivity.
      - intros _. rewrite last_app. reflexivity.
      - intros Hc. apply Hpre in Hc.
        destruct Hc as [(_ & ?)|[(? & _)|(p & Hp & Hty & _)]]; try discriminate.
        injection Hp as <-. contradiction. }
    injection H; intros; subst. split; [exact Htr|]. split; [discriminate|reflexivity].
  - (* load *)
    unfold val. clear val.
    destruct (emulate_load regs insn None) as [[lok regs1] lwidth] eqn:Hld.
    assert (Hw : lwidth = width).
    { unfold emulate_load in Hld. fold width in Hld.
      repeat case_if; injection Hld; intros; subst; reflexivity. }
    subst lwidth. cbn [fst snd].
    destruct lok; cbn [negb] in H.
    2: { injection H; intros; subst. repeat split; try discriminate. }
    assert (Hfin : forall (r r' : gmap Z Z) (v : Z) (t0 : list effect) (ok' : bool)
                     (t' : list effect),
               elr_writes t0 = [] ->
               (let t1 := t0 ++ trace_effects env iodev pte SPTE_TRACE_READ
                                  (FIELD_PREP MMIO_EVT_WIDTH width) elr ipa v in
                let '(ok2, r2, _) := emulate_load r insn (Some v) in
                if negb ok2 then Some (false, r2, t1)
                else Some (true, r2, t1 ++ [MsrElr (u64 (elr + 4))]))
               = Some (ok', r', t') ->
               elr_writes t' = (if ok' then [u64 (elr + 4)] else [])
               /\ (ok' = true -> last t' = Some (MsrElr (u64 (elr + 4))))).
    { intros r r' v t0 ok' t' Ht0 Hf. cbv zeta in Hf.
      destruct (emulate_load r insn (Some v)) as [[ok2 r2] w2].
      destruct ok2; cbn [negb] in Hf; injection Hf; intros; subst.
      - rewrite !elr_writes_app, Ht0, elr_writes_trace_effects. split; [reflexivity|].
        intros _. rewrite last_app. reflexivity.
      - rewrite !elr_writes_app, Ht0, elr_writes_trace_effects.
        split; [reflexivity|discriminate]. }
    destruct ((FIELD_GET SPTE_TYPE pte =? SPTE_PROXY_HOOK_W)
              || (FIELD_GET SPTE_TYPE pte =? SPTE_MAP)) eqn:Hmap.
    { apply Hfin in H; [|reflexivity]. destruct H as (H1 & H2).
      split; [exact H1|]. split; [exact H2|].
      intros Hc. apply Hpre in Hc.
      destruct Hc as [(? & _)|[(_ & ?)|(p & Hp & Hty & _)]]; try discriminate.
      injection Hp as <-. rewrite Hty in Hmap. discriminate. }
    destruct (Z.eqb_spec (FIELD_GET SPTE_TYPE pte) SPTE_HOOK) as [Hhook|Hhook].
    { destruct (hook_call env _ ipa 0 false width) as [hok hval] eqn:Hcall.
      destruct hok; cbn [negb] in H.
      - apply Hfin in H; [|reflexivity]. destruct H as (H1 & H2).
        split; [exact H1|]. split; [exact H2|].
        intros Hc. apply Hpre in Hc.
        destruct Hc as [(? & _)|[(_ & ?)|(p & Hp & _ & Hf)]]; try discriminate.
        injection Hp as <-. rewrite Hcall in Hf. discriminate.
      - injection H; intros; subst. repeat split; try discriminate. }
    destruct ((FIELD_GET SPTE_TYPE pte =? SPTE_PROXY_HOOK_RW)
              || (FIELD_GET SPTE_TYPE pte =? SPTE_PROXY_HOOK_R)) eqn:Hpx.
    { destruct (hv_exc_proxy env regs1 _ _ ipa 0) as [regs2 d].
      apply Hfin in H; [|reflexivity]. destruct H as (H1 & H2).
      split; [exact H1|]. split; [exact H2|].
      intros Hc. apply Hpre in Hc.
      destruct Hc as [(? & _)|[(_ & ?)|(p & Hp & Hty & _)]]; try discriminate.
      injection Hp as <-. contradiction. }
    injection H; intros; subst. repeat split; try discriminate.
Qed.

Lemma dabort_elr_witness :
  let env := demo_hv_env 0x39000001 in             (* strb w1, [x0] *)
  let pt := default (mk_pt [] ∅ 0) (pt_after (hv_map_sw 0x200000 0x300000 0x4000)) in
  let regs : gmap Z Z := {[ 0 := 0x200004; 1 := 0xAB ]} in
  exists (regs' : gmap Z Z) (t : list effect),
    hv_handle_dabort env pt 0 0x40 0x200004 0x80000 regs = Some (true, regs', t)
    /\ elr_writes t = [0x80004]
    /\ last t = Some (MsrElr 0x80004).
Proof.
  intros env pt regs. eexists _, _.
  assert (H : hv_handle_dabort env pt 0 0x40 0x200004 0x80000 regs
              = Some (true, regs, [MmioWrite 0 0x300004 0xAB; MsrElr 0x80004]))
    by (vm_compute; reflexivity).
  destruct (dabort_elr env pt 0 0x40 0x200004 0x80000 regs _ _ _ H) as (H1 & H2 & _).
  split; [exact H|]. split; [exact H1|]. apply H2. reflexivity.
Defined.

Lemma emulate_store_width (regs : gmap Z Z) (insn val : Z) :
  (emulate_store regs insn val).2 = Z.shiftr insn 30.
Proof.
  unfold emulate_store.
  repeat match goal with
         | |- context [if ?c then _ else _] => destruct c
         end; reflexivity.
Qed.

Lemma emulate_store_ok (regs regs1 : gmap Z Z) (insn v0 val width : Z) :
  emulate_store regs insn v0 = (true, regs1, val, width) ->
  width = Z.shiftr insn 30
  /\ val = (if Z.land insn 0x1f =? 31 then v0 else reg regs1 (Z.land insn 0x1f)).
Proof.
  unfold emulate_store.
  repeat match goal with
         | |- context [if ?c then _ else _] => destruct c
         end; intros [= <- <- <-]; split; reflexivity.
Qed.

Lemma insn_width_range (x : Z) : 0 <= Z.shiftr (u32 x) 30 <= 3.
Proof.
  unfold u32. rewrite Z.shiftr_div_pow2 by lia.
  change (2 ^ 32) with 4294967296. change (2 ^ 30) with 1073741824.
  Z.div_mod_to_equations. lia.
Qed.

Lemma mmio_write_flags (width : Z) :
  0 <= width <= 3 ->
  Z.lor (FIELD_PREP MMIO_EVT_WIDTH width) MMIO_EVT_WRITE = 4 + width.
Proof.
  intros H.
  assert (Hc : width = 0 \/ width = 1 \/ width = 2 \/ width = 3) by lia.
  destruct Hc as [-> | [-> | [-> | ->]]]; reflexivity.
Qed.

(** The three pieces in which an event goes out, and the fields of its
    header. *)
Lemma send_event_effects_frame (dev event_type : Z) (data : list byte) :
  exists hdr csum : list byte,
    send_event_effects dev event_type data
    = [IoQueue dev hdr; IoQueue dev data; IoWrite dev csum]
    /\ length hdr = 8%nat /\ length csum = 4%nat
    /\ le_val (take 4 hdr) = REQ_EVENT
    /\ le_val (take 2 (drop 4 hdr)) = Z.of_nat (length data) mod 2 ^ 16
    /\ le_val (drop 6 hdr) = event_type mod 2 ^ 16
    /\ le_val csum = checksum (hdr ++ data).
Proof.
  exists (event_hdr event_type (Z.of_nat (length data))).
  exists (le_bytes 4 (checksum (event_hdr event_type (Z.of_nat (length data)) ++ data))).
  split; [|split; [|split; [|split; [|split; [|split]]]]].
  - unfold send_event_effects, checksum, checksum_start, checksum_add.
    now rewrite checksum_block_app.
  - reflexivity.
  - apply length_le_bytes.
  - reflexivity.
  - unfold event_hdr. set (len := Z.of_nat (length data)).
    change (take 2 (drop 4 (le_bytes 4 REQ_EVENT ++ le_bytes 2 len ++ le_bytes 2 event_type)))
      with (le_bytes 2 len).
    apply (le_val_le_bytes 2).
  - unfold event_hdr. set (len := Z.of_nat (length data)).
    change (drop 6 (le_bytes 4 REQ_EVENT ++ le_bytes 2 len ++ le_bytes 2 event_type))
      with (le_bytes 2 event_type).
    apply (le_val_le_bytes 2).
  - rewrite (le_val_le_bytes 4). apply Z.mod_small. apply checksum_range.
Qed.

(** The fields of the MMIOTRACE event. *)
Lemma mmiotrace_fields (flags pc addr data : Z) :
  let ev := mmiotrace_bytes flags pc addr data in
  length ev = 32%nat
  /\ le_val (take 4 ev) = flags mod 2 ^ 32
  /\ le_val (take 8 (drop 8 ev)) = u64 pc
  /\ le_val (take 8 (drop 16 ev)) = u64 addr
  /\ le_val (drop 24 ev) = u64 data.
Proof.
  unfold mmiotrace_bytes. cbv zeta.
  split; [reflexivity|]. split; [|split; [|split]].
  - change (take 4 (le_bytes 4 flags ++ le_bytes 4 0 ++ le_bytes 8 pc
                    ++ le_bytes 8 addr ++ le_bytes 8 data))
      with (le_bytes 4 flags).
    apply (le_val_le_bytes 4).
  - change (take 8 (drop 8 (le_bytes 4 flags ++ le_bytes 4 0 ++ le_bytes 8 pc
                            ++ le_bytes 8 addr ++ le_bytes 8 data)))
      with (le_bytes 8 pc).
    apply (le_val_le_bytes 8).
  - change (take 8 (drop 16 (le_bytes 4 flags ++ le_bytes 4 0 ++ le_bytes 8 pc
                             ++ le_bytes 8 addr ++ le_bytes 8 data)))
      with (le_bytes 8 addr).
    apply (le_val_le_bytes 8).
  - change (drop 24 (le_bytes 4 flags ++ le_bytes 4 0 ++ le_bytes 8 pc
                     ++ le_bytes 8 addr ++ le_bytes 8 data))
      with (le_bytes 8 data).
    apply (le_val_le_bytes 8).
Qed.

(** The effects of a write abort on a traced entry, with the event as the
    handler builds it. *)
Lemma write_abort_trace (env : hv_env) (pt : pt_state) (iodev esr far elr : Z)
  (regs regs' : gmap Z Z) (ok : bool) (t : list effect) (pte : Z) :
  let ipa := hv_translate env far true true in
  let elr_pa := hv_translate env elr false false in
  let insn := u32 (read32 env elr_pa) in
  nonzero (Z.land esr ESR_ISS_DABORT_WnR) = true ->
  hv_pt_walk ipa pt = Some pte ->
  nonzero (Z.land pte SPTE_TRACE_WRITE) = true ->
  hv_handle_dabort env pt iodev esr far elr regs = Some (ok, regs', t) ->
  (ok = false /\ t = [])
  \/ exists (regs1 : gmap Z Z) (val width : Z) (rest : list effect),
       emulate_store regs insn 0 = (true, regs1, val, width)
       /\ t = send_event_effects iodev (EVT_MMIOTRACE env)
                (mmiotrace_bytes
                   (Z.lor (FIELD_PREP MMIO_EVT_WIDTH width) MMIO_EVT_WRITE)
                   elr ipa val)
              ++ (if nonzero (Z.land pte SPTE_SYNC_TRACE) then [IoFlush iodev] else [])
              ++ rest
       /\ forallb (fun e => negb (is_io e)) rest = true
       /\ (ok = true -> last rest = Some (MsrElr (u64 (elr + 4))))
       /\ (FIELD_GET SPTE_TYPE pte = SPTE_MAP ->
           rest = [MmioWrite width
                     (Z.lor (Z.land pte PTE_TARGET_MASK_L4)
                        (Z.land far (MASK VADDR_L4_OFFSET_BITS)))
                     (trunc_width width val);
                   MsrElr (u64 (elr + 4))]).
Proof.
  intros ipa elr_pa insn Hwnr Hwalk Htw H.
  unfold hv_handle_dabort in H. rewrite Hwnr in H.
  fold ipa elr_pa insn in H. rewrite Hwalk in H.
  repeat (match type of H with
          | context [if ?c then Some (false, regs, []) else _] =>
              destruct c; [left; injection H; intros; subst; auto|]
          end).
  destruct (emulate_store regs insn 0) as [[[sok regs1] val] width] eqn:Hst.
  destruct sok; cbn [negb] in H.
  2: { left. injection H; intros; subst; auto. }
  right. exists regs1, val, width.
  unfold trace_effects in H. rewrite Htw in H.
  set (ev := send_event_effects _ _ _) in *.
  set (fl := if nonzero (Z.land pte SPTE_SYNC_TRACE) then [IoFlush iodev] else []) in *.
  clearbody ev fl.
  assert (Hres : forall (b : bool) (r : gmap Z Z) (rest : list effect),
            Some (b, r, (ev ++ fl) ++ rest) = Some (ok, regs', t) ->
            t = ev ++ fl ++ rest /\ ok = b).
  { intros b r rest E. injection E; intros; subst. now rewrite <- app_assoc. }
  destruct (Z.eqb_spec (FIELD_GET SPTE_TYPE pte) SPTE_MAP) as [Hmap|Hmap].
  { rewrite Hmap in H. change (SPTE_MAP =? SPTE_PROXY_HOOK_R) with false in H.
    cbn [orb] in H. apply Hres in H. destruct H as (-> & ->).
    eexists. split; [reflexivity|]. split; [reflexivity|].
    split; [reflexivity|]. split; [reflexivity|]. reflexivity. }
  destruct ((FIELD_GET SPTE_TYPE pte =? SPTE_PROXY_HOOK_R) || false) eqn:Hr.
  { apply Hres in H. destruct H as (-> & ->).
    eexists. split; [reflexivity|]. split; [reflexivity|].
    split; [reflexivity|]. split; [reflexivity|]. intros; contradiction. }
  destruct (FIELD_GET SPTE_TYPE pte =? SPTE_HOOK).
  { destruct (hook_call env _ ipa val true width) as [hok hval].
    destruct hok; cbn [negb] in H.
    - rewrite <- (app_assoc (ev ++ fl)) in H. apply Hres in H. destruct H as (-> & ->).
      eexists. split; [reflexivity|]. split; [reflexivity|].
      split; [reflexivity|]. split; [reflexivity|]. intros; contradiction.
    - apply Hres in H. destruct H as (-> & ->).
      eexists. split; [reflexivity|]. split; [reflexivity|].
      split; [reflexivity|]. split; [discriminate|]. intros; contradiction. }
  destruct ((FIELD_GET SPTE_TYPE pte =? SPTE_PROXY_HOOK_RW)
            || (FIELD_GET SPTE_TYPE pte =? SPTE_PROXY_HOOK_W)).
  { destruct (hv_exc_proxy env regs1 _ _ ipa val) as [regs2 d].
    apply Hres in H. destruct H as (-> & ->).
    eexists. split; [reflexivity|]. split; [reflexivity|].
    split; [reflexivity|]. split; [reflexivity|]. intros; contradiction. }
  rewrite <- (app_nil_r (ev ++ fl)) in H. apply Hres in H. destruct H as (-> & ->).
  exists []. split; [reflexivity|]. split; [reflexivity|].
  split; [reflexivity|]. split; [discriminate|]. intros; contradiction.
Qed.




(* ===================================================================== *)
(** * Part III: further properties of the code *)
(* ===================================================================== *)

(** ** Checksum and event framing *)

(** X1: The checksum tells apart any two byte sequences that differ in exactly
    one byte. *)
Theorem checksum_detects_single_byte (d : list byte) (i : nat) (x y : byte) :
  d !! i = Some y -> x <> y -> checksum (<[i := x]> d) <> checksum d.
Proof.
  intros Hd Hxy H. unfold checksum, checksum_finish, checksum_start in H.
  apply (f_equal (fun v => Z.lxor v CHECKSUM_FINAL)) in H.
  rewrite !Z.lxor_assoc, !Z.lxor_nilpotent, !Z.lxor_0_r in H.
  eapply (checksum_block_corrupt d i x y CHECKSUM_INIT); eauto.
  unfold CHECKSUM_INIT. lia.
Qed.

Lemma checksum_detects_single_byte_witness :
  checksum (<[1%nat := x07]> [x01; x02; x03]) <> checksum [x01; x02; x03].
Proof.
  apply (checksum_detects_single_byte [x01; x02; x03] 1 x07 x02);
    [reflexivity | discriminate].
Defined.


(** ** Requests of the proxy *)

Lemma reply_type_eq (type status : Z) (payload : list byte) :
  reply_type (reply_bytes type status payload) = u32 type.
Proof.
  unfold reply_type, reply_bytes.
  change (take 4 ((le_bytes 4 type ++ le_bytes 4 status
            ++ take reply_payload_size (payload ++ replicate reply_payload_size x00))
           ++ le_bytes 4 (checksum (le_bytes 4 type ++ le_bytes 4 status
            ++ take reply_payload_size (payload ++ replicate reply_payload_size x00)))))
    with (le_bytes 4 type).
  apply (le_val_le_bytes 4).
Qed.

Lemma reply_status_eq (type status : Z) (payload : list byte) :
  - 2 ^ 31 <= status < 2 ^ 31 ->
  reply_status (reply_bytes type status payload) = status.
Proof.
  intros Hs. unfold reply_status, reply_bytes.
  change (take 4 (drop 4 ((le_bytes 4 type ++ le_bytes 4 status
            ++ take reply_payload_size (payload ++ replicate reply_payload_size x00))
           ++ le_bytes 4 (checksum (le_bytes 4 type ++ le_bytes 4 status
            ++ take reply_payload_size (payload ++ replicate reply_payload_size x00))))))
    with (le_bytes 4 status).
  rewrite (le_val_le_bytes 4). change (256 ^ Z.of_nat 4) with (2 ^ 32).
  destruct (Z.ltb_spec (status mod 2 ^ 32) (2 ^ 31)); Z.div_mod_to_equations; lia.
Qed.

(** The data checksum carried by a reply to a memory request. *)
Lemma reply_dchecksum_eq (type status v : Z) :
  le_val (take 4 (drop 8 (reply_bytes type status (le_bytes 4 v)))) = u32 v.
Proof.
  unfold reply_bytes.
  change (take 4 (drop 8 ((le_bytes 4 type ++ le_bytes 4 status
            ++ take reply_payload_size (le_bytes 4 v ++ replicate reply_payload_size x00))
           ++ le_bytes 4 (checksum (le_bytes 4 type ++ le_bytes 4 status
            ++ take reply_payload_size (le_bytes 4 v ++ replicate reply_payload_size x00))))))
    with (le_bytes 4 v).
  apply (le_val_le_bytes 4).
Qed.

Lemma rx_of_after_read (s : up_state) (iodev n : Z) :
  rx_of (iodev_read iodev n s).2 iodev = drop (Z.to_nat n) (rx_of s iodev).
Proof. unfold iodev_read, rx_of. simpl. now rewrite lookup_insert_eq. Qed.

(** A request that passed the length and checksum tests: the proxy binds
    the device and dispatches on the type. *)
Ltac request_accept Hlen Hsum :=
  unfold uartproxy_request, iodev_read;
  change (Z.to_nat (REQ_SIZE - 4)) with 60%nat;
  cbv zeta; rewrite Hlen;
  change (negb (Z.of_nat 60 =? REQ_SIZE - 4)) with false; cbv iota;
  rewrite Hsum, Z.eqb_refl; cbv beta iota delta [negb].

Lemma request_simple_reply (env : up_env) (iodev : Z) (s : up_state) :
  let type := buffer_of s iodev in
  let body := take 60 (rx_of s iodev) in
  length body = 60%nat ->
  checksum (le_bytes 4 type ++ req_payload body) = req_checksum body ->
  type <> REQ_PROXY -> type <> REQ_MEMREAD -> type <> REQ_MEMWRITE ->
  exists (reply : list byte) (s' : up_state),
    uartproxy_request env iodev s = Some (Continue, s')
    /\ trace s' = trace s ++ [IoWrite iodev reply]
    /\ length reply = 36%nat
    /\ reply_type reply = u32 type
    /\ reply_status reply = (if type =? REQ_NOP then ST_OK else ST_BADCMD)
    /\ uartproxy_iodev s' = iodev
    /\ mem s' = mem s
    /\ rx_of s' iodev = drop 60 (rx_of s iodev).
Proof.
  intros type body Hlen Hsum Hp Hr Hw.
  exists (reply_bytes type (if type =? REQ_NOP then ST_OK else ST_BADCMD) []).
  exists (iodev_write iodev
            (reply_bytes type (if type =? REQ_NOP then ST_OK else ST_BADCMD) [])
            (set_iodev (iodev_read iodev (REQ_SIZE - 4) s).2 iodev)).
  split.
  - subst type body. request_accept Hlen Hsum. set (type := buffer_of s iodev) in *.
    destruct (Z.eqb_spec type REQ_NOP) as [E|E].
    + rewrite E. change (REQ_NOP =? REQ_MEMREAD) with false. reflexivity.
    + destruct (Z.eqb_spec type REQ_PROXY); [contradiction|].
      destruct (Z.eqb_spec type REQ_MEMREAD); [contradiction|].
      destruct (Z.eqb_spec type REQ_MEMWRITE); [contradiction|].
      reflexivity.
  - split; [reflexivity|]. split; [apply length_reply_bytes|].
    split; [apply reply_type_eq|].
    split; [apply reply_status_eq; destruct (type =? REQ_NOP); unfold ST_OK, ST_BADCMD; lia|].
    split; [reflexivity|]. split; [reflexivity|].
    unfold rx_of. simpl. now rewrite lookup_insert_eq.
Qed.

(** X3: A well-formed request whose type is none of PROXY, MEMREAD and MEMWRITE
    is answered by exactly one reply of 36 bytes that echoes the type; its
    status is OK for NOP and BADCMD for every other type.  The device is
    bound, the 60 bytes of the frame are consumed, memory is not touched
    and the proxy goes on. *)
Theorem request_nop_or_unknown (env : up_env) (iodev : Z) (s : up_state) :
  let type := buffer_of s iodev in
  let body := take 60 (rx_of s iodev) in
  length body = 60%nat ->
  checksum (le_bytes 4 type ++ req_payload body) = req_checksum body ->
  type <> REQ_PROXY -> type <> REQ_MEMREAD -> type <> REQ_MEMWRITE ->
  exists (reply : list byte) (s' : up_state),
    uartproxy_request env iodev s = Some (Continue, s')
    /\ trace s' = trace s ++ [IoWrite iodev reply]
    /\ length reply = 36%nat
    /\ reply_type reply = u32 type
    /\ reply_status reply = (if type =? REQ_NOP then ST_OK else ST_BADCMD)
    /\ uartproxy_iodev s' = iodev
    /\ mem s' = mem s
    /\ rx_of s' iodev = drop 60 (rx_of s iodev).
Proof. exact (request_simple_reply env iodev s). Qed.

Lemma request_nop_or_unknown_witness :
  let body := drop 4 (mk_request 0x07AA55FF []) in
  let s := mk_up {[ 0 := body ]} [] ∅ {[ 0 := 0x07AA55FF ]} 3 in
  exists (reply : list byte) (s' : up_state),
    uartproxy_request demo_env 0 s = Some (Continue, s')
    /\ trace s' = trace s ++ [IoWrite 0 reply]
    /\ length reply = 36%nat
    /\ reply_type reply = u32 (buffer_of s 0)
    /\ reply_status reply = (if buffer_of s 0 =? REQ_NOP then ST_OK else ST_BADCMD)
    /\ uartproxy_iodev s' = 0
    /\ mem s' = mem s
    /\ rx_of s' 0 = drop 60 (rx_of s 0).
Proof.
  intros body s. apply (request_nop_or_unknown demo_env 0 s).
  - vm_compute. reflexivity.
  - vm_compute. reflexivity.
  - vm_compute. discriminate.
  - vm_compute. discriminate.
  - vm_compute. discriminate.
Defined.

Lemma read_mem_take (m : gmap Z byte) (n k : nat) (addr : Z) (d : list byte) :
  read_mem m addr n = Some d -> (k <= n)%nat -> read_mem m addr k = Some (take k d).
Proof.
  revert k addr d. induction n as [|n IH]; intros k addr d H Hk.
  - assert (k = 0%nat) by lia. subst k. reflexivity.
  - destruct k as [|k]; [reflexivity|]. simpl in H |- *.
    destruct (m !! addr) as [b|]; [|discriminate].
    destruct (read_mem m (u64 (addr + 1)) n) as [bs|] eqn:E; [|discriminate].
    injection H; intros; subst d.
    rewrite (IH k _ bs E) by lia. reflexivity.
Qed.

Lemma read_mem_length (m : gmap Z byte) (n : nat) (addr : Z) (d : list byte) :
  read_mem m addr n = Some d -> length d = n.
Proof.
  revert addr d. induction n as [|n IH]; intros addr d H; simpl in H.
  - injection H; intros; subst d. reflexivity.
  - destruct (m !! addr) as [b|]; [|discriminate].
    destruct (read_mem m (u64 (addr + 1)) n) as [bs|] eqn:E; [|discriminate].
    injection H; intros; subst d. simpl. f_equal. eapply IH, E.
Qed.

Lemma u32_le (z : Z) : 0 <= z -> 0 <= u32 z <= z.
Proof. intros H. unfold u32. Z.div_mod_to_equations. lia. Qed.

(** X4: MEMREAD of a readable region of non-zero size: the reply has status OK
    and carries the checksum of the data, computed over the number of bytes
    given by the low 32 bits of the size; the data, all [size] bytes of it,
    is written to the device right after the reply.  Memory is not
    modified. *)
Theorem memread_streams_data (env : up_env) (iodev : Z) (s : up_state)
  (d : list byte) :
  buffer_of s iodev = REQ_MEMREAD ->
  let body := take 60 (rx_of s iodev) in
  length body = 60%nat ->
  checksum (le_bytes 4 REQ_MEMREAD ++ req_payload body) = req_checksum body ->
  mrequest_size body <> 0 ->
  read_mem (mem s) (mrequest_addr body) (Z.to_nat (mrequest_size body)) = Some d ->
  exists (reply : list byte) (s' : up_state),
    uartproxy_request env iodev s = Some (Continue, s')
    /\ trace s' = trace s ++ [IoWrite iodev reply; IoWrite iodev d]
    /\ length reply = 36%nat
    /\ reply_type reply = REQ_MEMREAD
    /\ reply_status reply = ST_OK
    /\ le_val (take 4 (drop 8 reply))
       = checksum (take (Z.to_nat (u32 (mrequest_size body))) d)
    /\ Z.of_nat (length d) = mrequest_size body
    /\ mem s' = mem s
    /\ uartproxy_iodev s' = iodev.
Proof.
  intros Hty body Hlen Hsum Hnz Hrd.
  pose proof (mrequest_size_range body) as Hsz.
  pose proof (u32_le (mrequest_size body) ltac:(lia)) as Hu.
  assert (Hrd32 : read_mem (mem s) (mrequest_addr body)
                    (Z.to_nat (u32 (mrequest_size body)))
                  = Some (take (Z.to_nat (u32 (mrequest_size body))) d))
    by (apply (read_mem_take _ _ _ _ _ Hrd); lia).
  set (d32 := take (Z.to_nat (u32 (mrequest_size body))) d) in *.
  set (reply := reply_bytes REQ_MEMREAD ST_OK (le_bytes 4 (u32 (checksum d32)))).
  exists reply.
  exists (iodev_write iodev d
            (iodev_write iodev reply
               (set_iodev (iodev_read iodev (REQ_SIZE - 4) s).2 iodev))).
  split.
  - subst body. revert Hsum. rewrite <- Hty. intros Hsum.
    request_accept Hlen Hsum. rewrite Hty.
    change (REQ_MEMREAD =? REQ_NOP) with false.
    change (REQ_MEMREAD =? REQ_PROXY) with false.
    change (REQ_MEMREAD =? REQ_MEMREAD) with true.
    cbv beta iota. unfold do_memread.
    destruct (Z.eqb_spec (mrequest_size (take 60 (rx_of s iodev))) 0) as [E|E];
      [contradiction|].
    cbn [mem set_iodev set_rx]. rewrite Hrd32.
    cbv beta iota. change (ST_OK =? ST_OK) with true. cbv beta iota delta [andb].
    cbn [mem iodev_write emit set_trace set_iodev set_rx]. rewrite Hrd. reflexivity.
  - split; [unfold iodev_write, emit; cbn; now rewrite <- app_assoc|].
    split; [apply length_reply_bytes|].
    split; [apply reply_type_eq|].
    split; [apply reply_status_eq; unfold ST_OK; lia|].
    split.
    { unfold reply. rewrite reply_dchecksum_eq. unfold u32.
      rewrite Z.mod_mod by lia. apply Z.mod_small, checksum_range. }
    split; [rewrite (read_mem_length _ _ _ _ Hrd); lia|].
    split; reflexivity.
Qed.

Lemma memread_streams_data_witness :
  let body := drop 4 (mk_request REQ_MEMREAD (mrequest_payload 0x600000 4 0)) in
  let s := mk_up {[ 0 := body ]} [] (mem_fill 0x600000 8 xaa) {[ 0 := REQ_MEMREAD ]} 3 in
  exists (reply : list byte) (s' : up_state),
    uartproxy_request demo_env 0 s = Some (Continue, s')
    /\ trace s' = trace s ++ [IoWrite 0 reply; IoWrite 0 [xaa; xaa; xaa; xaa]]
    /\ length reply = 36%nat
    /\ reply_type reply = REQ_MEMREAD
    /\ reply_status reply = ST_OK
    /\ le_val (take 4 (drop 8 reply))
       = checksum (take (Z.to_nat (u32 (mrequest_size (take 60 (rx_of s 0)))))
                     [xaa; xaa; xaa; xaa])
    /\ Z.of_nat (length [xaa; xaa; xaa; xaa]) = mrequest_size (take 60 (rx_of s 0))
    /\ mem s' = mem s
    /\ uartproxy_iodev s' = 0.
Proof.
  intros body s. apply (memread_streams_data demo_env 0 s [xaa; xaa; xaa; xaa]).
  - reflexivity.
  - vm_compute. reflexivity.
  - vm_compute. reflexivity.
  - vm_compute. discriminate.
  - vm_compute. reflexivity.
Defined.

(** X5: MEMREAD of a region that cannot be read: the reply has status XFRERR
    and no data follows it. *)
Theorem memread_fault_no_data (env : up_env) (iodev : Z) (s : up_state) :
  buffer_of s iodev = REQ_MEMREAD ->
  let body := take 60 (rx_of s iodev) in
  length body = 60%nat ->
  checksum (le_bytes 4 REQ_MEMREAD ++ req_payload body) = req_checksum body ->
  read_mem (mem s) (mrequest_addr body) (Z.to_nat (u32 (mrequest_size body))) = None ->
  exists (reply : list byte) (s' : up_state),
    uartproxy_request env iodev s = Some (Continue, s')
    /\ trace s' = trace s ++ [IoWrite iodev reply]
    /\ length reply = 36%nat
    /\ reply_type reply = REQ_MEMREAD
    /\ reply_status reply = ST_XFRERR
    /\ mem s' = mem s.
Proof.
  intros Hty body Hlen Hsum Hrd.
  set (reply := reply_bytes REQ_MEMREAD ST_XFRERR
                  (le_bytes 4 (u32 (bailed_checksum env (mrequest_addr body)
                                      (mrequest_size body))))).
  exists reply.
  exists (iodev_write iodev reply
            (set_iodev (iodev_read iodev (REQ_SIZE - 4) s).2 iodev)).
  split.
  - subst reply body. revert Hsum. rewrite <- Hty. intros Hsum.
    request_accept Hlen Hsum. rewrite Hty.
    change (REQ_MEMREAD =? REQ_NOP) with false.
    change (REQ_MEMREAD =? REQ_PROXY) with false.
    change (REQ_MEMREAD =? REQ_MEMREAD) with true.
    cbv beta iota. unfold do_memread.
    destruct (Z.eqb_spec (mrequest_size (take 60 (rx_of s iodev))) 0) as [E|E].
    { rewrite E in Hrd. discriminate. }
    cbn [mem set_iodev set_rx]. rewrite Hrd. reflexivity.
  - split; [reflexivity|].
    split; [apply length_reply_bytes|].
    split; [apply reply_type_eq|].
    split; [apply reply_status_eq; unfold ST_XFRERR; lia|].
    reflexivity.
Qed.

Lemma memread_fault_no_data_witness :
  let body := drop 4 (mk_request REQ_MEMREAD (mrequest_payload 0x600000 16 0)) in
  let s := mk_up {[ 0 := body ]} [] (mem_fill 0x600000 8 xaa) {[ 0 := REQ_MEMREAD ]} 3 in
  exists (reply : list byte) (s' : up_state),
    uartproxy_request demo_env 0 s = Some (Continue, s')
    /\ trace s' = trace s ++ [IoWrite 0 reply]
    /\ length reply = 36%nat
    /\ reply_type reply = REQ_MEMREAD
    /\ reply_status reply = ST_XFRERR
    /\ mem s' = mem s.
Proof.
  intros body s. apply (memread_fault_no_data demo_env 0 s).
  - reflexivity.
  - vm_compute. reflexivity.
  - vm_compute. reflexivity.
  - vm_compute. reflexivity.
Defined.

(** X6: MEMREAD of size zero touches no memory, whatever the address: the
    reply has status OK and a data checksum field of zero (not the checksum
    of the empty sequence), and a write of zero bytes follows it. *)
Theorem memread_size_zero (env : up_env) (iodev : Z) (s : up_state) :
  buffer_of s iodev = REQ_MEMREAD ->
  let body := take 60 (rx_of s iodev) in
  length body = 60%nat ->
  checksum (le_bytes 4 REQ_MEMREAD ++ req_payload body) = req_checksum body ->
  mrequest_size body = 0 ->
  exists (reply : list byte) (s' : up_state),
    uartproxy_request env iodev s = Some (Continue, s')
    /\ trace s' = trace s ++ [IoWrite iodev reply; IoWrite iodev []]
    /\ reply_status reply = ST_OK
    /\ le_val (take 4 (drop 8 reply)) = 0
    /\ checksum [] <> 0.
Proof.
  intros Hty body Hlen Hsum Hz.
  set (reply := reply_bytes REQ_MEMREAD ST_OK (le_bytes 4 0)).
  exists reply.
  exists (iodev_write iodev []
            (iodev_write iodev reply
               (set_iodev (iodev_read iodev (REQ_SIZE - 4) s).2 iodev))).
  split.
  - subst reply body. revert Hsum. rewrite <- Hty. intros Hsum.
    request_accept Hlen Hsum. rewrite Hty.
    change (REQ_MEMREAD =? REQ_NOP) with false.
    change (REQ_MEMREAD =? REQ_PROXY) with false.
    change (REQ_MEMREAD =? REQ_MEMREAD) with true.
    cbv beta iota. unfold do_memread. rewrite Hz. reflexivity.
  - split; [unfold iodev_write, emit; cbn; now rewrite <- app_assoc|].
    split; [apply reply_status_eq; unfold ST_OK; lia|].
    split; [unfold reply; now rewrite reply_dchecksum_eq|].
    vm_compute. discriminate.
Qed.

Lemma memread_size_zero_witness :
  let body := drop 4 (mk_request REQ_MEMREAD (mrequest_payload 0x600000 0 0)) in
  let s := mk_up {[ 0 := body ]} [] ∅ {[ 0 := REQ_MEMREAD ]} 3 in
  exists (reply : list byte) (s' : up_state),
    uartproxy_request demo_env 0 s = Some (Continue, s')
    /\ trace s' = trace s ++ [IoWrite 0 reply; IoWrite 0 []]
    /\ reply_status reply = ST_OK
    /\ le_val (take 4 (drop 8 reply)) = 0
    /\ checksum [] <> 0.
Proof.
  intros body s. apply (memread_size_zero demo_env 0 s).
  - reflexivity.
  - vm_compute. reflexivity.
  - vm_compute. reflexivity.
  - vm_compute. reflexivity.
Defined.

(** ** MEMWRITE that succeeds *)

Lemma u64_id (a : Z) : 0 <= a < 2 ^ 64 -> u64 a = a.
Proof. intros H. unfold u64. now apply Z.mod_small. Qed.

Lemma u64_add_ne (addr k : Z) :
  0 <= addr < 2 ^ 64 -> 0 < k < 2 ^ 64 -> u64 (addr + k) <> addr.
Proof. intros Ha Hk. unfold u64. Z.div_mod_to_equations. lia. Qed.

Lemma u64_succ_l (addr i : Z) : u64 (u64 (addr + 1) + i) = u64 (addr + (i + 1)).
Proof. unfold u64. rewrite Zplus_mod_idemp_l. f_equal. lia. Qed.

Lemma read_mem_mapped (m : gmap Z byte) (n : nat) (addr : Z) (d : list byte) :
  read_mem m addr n = Some d -> 0 <= addr < 2 ^ 64 ->
  forall i, 0 <= i < Z.of_nat n -> is_Some (m !! u64 (addr + i)).
Proof.
  revert addr d. induction n as [|n IH]; intros addr d H Ha i Hi; [lia|].
  simpl in H. destruct (m !! addr) as [b|] eqn:Eb; [|discriminate].
  destruct (read_mem m (u64 (addr + 1)) n) as [bs|] eqn:E; [|discriminate].
  destruct (Z.eq_dec i 0) as [->|Hne].
  - rewrite Z.add_0_r, u64_id by lia. rewrite Eb. eauto.
  - replace (u64 (addr + i)) with (u64 (u64 (addr + 1) + (i - 1))).
    + apply (IH _ _ E); [apply Z.mod_pos_bound; lia | lia].
    + rewrite u64_succ_l. f_equal. lia.
Qed.

Lemma write_mem_read_back (data : list byte) (m : gmap Z byte) (addr : Z) :
  0 <= addr < 2 ^ 64 -> Z.of_nat (length data) <= 2 ^ 64 ->
  (forall i, 0 <= i < Z.of_nat (length data) -> is_Some (m !! u64 (addr + i))) ->
  exists m' : gmap Z byte,
    write_mem m addr data = Some m'
    /\ read_mem m' addr (length data) = Some data.
Proof.
  revert m addr. induction data as [|b data IH]; intros m addr Ha Hl Hm.
  - exists m. split; reflexivity.
  - simpl length in *. simpl write_mem.
    destruct (Hm 0 ltac:(lia)) as [b0 Eb0].
    rewrite Z.add_0_r, u64_id in Eb0 by lia. rewrite Eb0.
    assert (Ha1 : 0 <= u64 (addr + 1) < 2 ^ 64) by (apply Z.mod_pos_bound; lia).
    destruct (IH (<[addr := b]> m) (u64 (addr + 1)) Ha1 ltac:(lia)) as (m' & Hw & Hr).
    { intros i Hi. rewrite u64_succ_l. rewrite lookup_insert_is_Some. right.
      split; [|apply Hm; lia].
      intros E. symmetry in E. revert E. apply u64_add_ne; lia. }
    exists m'. split; [exact Hw|]. simpl read_mem.
    rewrite (write_mem_frame data _ m' (u64 (addr + 1)) addr Ha1 Hw).
    + rewrite lookup_insert_eq, Hr. reflexivity.
    + intros i Hi E. rewrite u64_succ_l in E. symmetry in E. revert E.
      apply u64_add_ne; lia.
Qed.

Lemma do_memwrite_ok (iodev : Z) (body : list byte) (s : up_state)
  (data rest old : list byte) :
  rx_of s iodev = data ++ rest ->
  Z.of_nat (length data) = mrequest_size body ->
  read_mem (mem s) (mrequest_addr body) (length data) = Some old ->
  let d32 := take (Z.to_nat (u32 (mrequest_size body))) data in
  exists m' : gmap Z byte,
    do_memwrite iodev body s
    = Some (if checksum d32 =? mrequest_dchecksum body then ST_OK else ST_XFRERR,
            checksum d32,
            set_mem (set_rx s (<[iodev := rest]> (rx s))) m')
    /\ read_mem m' (mrequest_addr body) (length data) = Some data.
Proof.
  intros Hrx Hlen Hold d32.
  pose proof (mrequest_addr_range body) as Ha.
  pose proof (mrequest_size_range body) as Hsz.
  pose proof (read_mem_mapped _ _ _ _ Hold Ha) as Hmap.
  unfold do_memwrite.
  set (addr := mrequest_addr body) in *. set (size := mrequest_size body) in *.
  assert (Hprobe : exists m1 : gmap Z byte,
             (if negb (size =? 0)
              then write8_skip (u64 (addr + size - 1)) x00
                     (write8_skip addr x00 (mem s, 0))
              else (mem s, 0)) = (m1, 0)
             /\ forall i, 0 <= i < Z.of_nat (length data) ->
                  is_Some (m1 !! u64 (addr + i))).
  { destruct (Z.eqb_spec size 0) as [E|E]; simpl negb; cbv iota.
    - exists (mem s). split; [reflexivity | exact Hmap].
    - destruct (Hmap 0 ltac:(lia)) as [b0 E0].
      rewrite Z.add_0_r, u64_id in E0 by lia.
      destruct (Hmap (size - 1) ltac:(lia)) as [b1 E1].
      replace (addr + (size - 1)) with (addr + size - 1) in E1 by lia.
      unfold write8_skip at 2. cbn [fst snd]. rewrite E0.
      unfold write8_skip. cbn [fst snd].
      assert (E2 : is_Some (<[addr := x00]> (mem s) !! u64 (addr + size - 1)))
        by (rewrite lookup_insert_is_Some'; right; eauto).
      destruct E2 as [b2 E2]. rewrite E2.
      eexists. split; [reflexivity|].
      intros i Hi. rewrite !lookup_insert_is_Some'. right. right. now apply Hmap. }
  destruct Hprobe as (m1 & -> & Hmap1).
  change (negb (0 =? 0)) with false. cbv iota.
  unfold iodev_read.
  replace (rx_of (set_mem s m1) iodev) with (data ++ rest) by (now rewrite <- Hrx).
  replace (Z.to_nat size) with (length data) by lia.
  rewrite take_app_length, drop_app_length.
  cbn [mem set_mem set_rx rx].
  destruct (write_mem_read_back data m1 addr Ha ltac:(lia) Hmap1) as (m2 & Hw & Hr).
  rewrite Hw. rewrite Hlen, Z.eqb_refl. simpl negb. cbv iota.
  assert (Hu : 0 <= u32 size <= size) by (apply u32_le; lia).
  rewrite (read_mem_take m2 (length data) (Z.to_nat (u32 size)) addr data Hr) by lia.
  fold d32.
  assert (Hck : u32 (checksum d32) = checksum d32)
    by (apply Z.mod_small, checksum_range).
  rewrite Hck. exists m2. split; [|exact Hr].
  destruct (checksum d32 =? mrequest_dchecksum body); reflexivity.
Qed.

(** X7: MEMWRITE to a writable region, with all the data on the device: the
    data is copied to the region, which then reads back as the data; the
    reply is OK when the checksum of the data (over the number of bytes
    given by the low 32 bits of the size) equals the declared one, and
    XFRERR otherwise, and carries the computed checksum.  The bytes that
    follow the data stay on the device. *)
Theorem memwrite_stores_data (env : up_env) (iodev : Z) (s : up_state)
  (data rest old : list byte) :
  buffer_of s iodev = REQ_MEMWRITE ->
  let body := take 60 (rx_of s iodev) in
  length body = 60%nat ->
  checksum (le_bytes 4 REQ_MEMWRITE ++ req_payload body) = req_checksum body ->
  drop 60 (rx_of s iodev) = data ++ rest ->
  Z.of_nat (length data) = mrequest_size body ->
  read_mem (mem s) (mrequest_addr body) (length data) = Some old ->
  let d32 := take (Z.to_nat (u32 (mrequest_size body))) data in
  exists (reply : list byte) (s' : up_state),
    uartproxy_request env iodev s = Some (Continue, s')
    /\ trace s' = trace s ++ [IoWrite iodev reply]
    /\ reply_status reply
       = (if checksum d32 =? mrequest_dchecksum body then ST_OK else ST_XFRERR)
    /\ le_val (take 4 (drop 8 reply)) = checksum d32
    /\ read_mem (mem s') (mrequest_addr body) (length data) = Some data
    /\ rx_of s' iodev = rest.
Proof.
  intros Hty body Hlen Hsum Hrx Hdl Hold d32.
  set (s1 := set_iodev (iodev_read iodev (REQ_SIZE - 4) s).2 iodev).
  destruct (do_memwrite_ok iodev body s1 data rest old) as (m' & Hdo & Hrd).
  { unfold s1, iodev_read, rx_of. simpl. rewrite lookup_insert_eq. exact Hrx. }
  { exact Hdl. }
  { exact Hold. }
  fold d32 in Hdo.
  set (st := if checksum d32 =? mrequest_dchecksum body then ST_OK else ST_XFRERR) in *.
  exists (reply_bytes REQ_MEMWRITE st (le_bytes 4 (checksum d32))).
  exists (iodev_write iodev (reply_bytes REQ_MEMWRITE st (le_bytes 4 (checksum d32)))
            (set_mem (set_rx s1 (<[iodev := rest]> (rx s1))) m')).
  split.
  - subst body. revert Hsum. rewrite <- Hty. intros Hsum.
    unfold s1, iodev_read in Hdo.
    change (Z.to_nat (REQ_SIZE - 4)) with 60%nat in Hdo. cbn [snd] in Hdo.
    request_accept Hlen Hsum. rewrite Hty.
    change (REQ_MEMWRITE =? REQ_NOP) with false.
    change (REQ_MEMWRITE =? REQ_PROXY) with false.
    change (REQ_MEMWRITE =? REQ_MEMREAD) with false.
    change (REQ_MEMWRITE =? REQ_MEMWRITE) with true.
    cbv beta iota. rewrite Hdo. reflexivity.
  - split; [reflexivity|].
    split; [apply reply_status_eq; unfold st; destruct (_ =? _);
            unfold ST_OK, ST_XFRERR; lia|].
    split; [rewrite reply_dchecksum_eq; apply Z.mod_small, checksum_range|].
    split; [exact Hrd|].
    unfold rx_of. simpl. now rewrite lookup_insert_eq.
Qed.

Lemma memwrite_stores_data_witness :
  let data := [x01; x02; x03; x04] in
  let body := drop 4 (mk_request REQ_MEMWRITE
                        (mrequest_payload 0x600000 4 (checksum data))) in
  let s := mk_up {[ 0 := body ++ data ++ [xff] ]} [] (mem_fill 0x600000 8 xaa)
             {[ 0 := REQ_MEMWRITE ]} 3 in
  exists (reply : list byte) (s' : up_state),
    uartproxy_request demo_env 0 s = Some (Continue, s')
    /\ trace s' = trace s ++ [IoWrite 0 reply]
    /\ reply_status reply
       = (if checksum (take (Z.to_nat (u32 (mrequest_size (take 60 (rx_of s 0))))) data)
             =? mrequest_dchecksum (take 60 (rx_of s 0))
          then ST_OK else ST_XFRERR)
    /\ le_val (take 4 (drop 8 reply))
       = checksum (take (Z.to_nat (u32 (mrequest_size (take 60 (rx_of s 0))))) data)
    /\ read_mem (mem s') (mrequest_addr (take 60 (rx_of s 0))) (length data) = Some data
    /\ rx_of s' 0 = [xff].
Proof.
  intros data body s.
  apply (memwrite_stores_data demo_env 0 s data [xff] [xaa; xaa; xaa; xaa]).
  - reflexivity.
  - vm_compute. reflexivity.
  - vm_compute. reflexivity.
  - vm_compute. reflexivity.
  - vm_compute. reflexivity.
  - vm_compute. reflexivity.
Defined.

(** ** Truncated frames, resynchronisation and the end of the stream *)

(** X8: A frame that is cut short (fewer than 60 bytes follow the type) is
    dropped without a reply: nothing is written, the bytes that were
    pending are consumed, the device is not bound and memory is not
    touched. *)
Theorem short_frame_dropped (env : up_env) (iodev : Z) (s : up_state) :
  (length (rx_of s iodev) < 60)%nat ->
  exists s' : up_state,
    uartproxy_request env iodev s = Some (Continue, s')
    /\ trace s' = trace s
    /\ rx_of s' iodev = []
    /\ uartproxy_iodev s' = uartproxy_iodev s
    /\ mem s' = mem s.
Proof.
  intros Hlen. exists (iodev_read iodev (REQ_SIZE - 4) s).2. split.
  - unfold uartproxy_request, iodev_read.
    change (Z.to_nat (REQ_SIZE - 4)) with 60%nat. cbv zeta.
    rewrite take_ge by lia.
    destruct (Z.eqb_spec (Z.of_nat (length (rx_of s iodev))) (REQ_SIZE - 4)) as [E|E].
    + unfold REQ_SIZE in E. lia.
    + reflexivity.
  - split; [reflexivity|]. split; [|split; reflexivity].
    rewrite rx_of_after_read. change (Z.to_nat (REQ_SIZE - 4)) with 60%nat.
    apply drop_ge. lia.
Qed.

Lemma short_frame_dropped_witness :
  let s := mk_up {[ 0 := [x01; x02; x03] ]} [] ∅ {[ 0 := REQ_NOP ]} 3 in
  exists s' : up_state,
    uartproxy_request demo_env 0 s = Some (Continue, s')
    /\ trace s' = trace s
    /\ rx_of s' 0 = []
    /\ uartproxy_iodev s' = uartproxy_iodev s
    /\ mem s' = mem s.
Proof.
  intros s. apply (short_frame_dropped demo_env 0 s). vm_compute. lia.
Defined.

Lemma shift_in_range (buf : Z) (b : byte) :
  0 <= buf < 2 ^ 32 -> 0 <= shift_in buf b < 2 ^ 32.
Proof.
  intros Hb. rewrite shift_in_eq by assumption. pose proof (byte_to_Z_range b).
  assert (0 <= buf / 2 ^ 8 < 2 ^ 24)
    by (split; [apply Z.div_pos; lia | apply Z.div_lt_upper_bound; lia]).
  lia.
Qed.

Lemma sync_scan_none (buf buf1 : Z) (noise r : list byte) :
  sync_scan buf noise = (false, buf1, r) ->
  r = []
  /\ (0 <= buf < 2 ^ 32 -> 0 <= buf1 < 2 ^ 32)
  /\ forall l : list byte, sync_scan buf (noise ++ l) = sync_scan buf1 l.
Proof.
  revert buf. induction noise as [|b noise IH]; intros buf H; simpl in H.
  - injection H; intros; subst. auto.
  - destruct (synced (shift_in buf b)) eqn:E; [discriminate|].
    destruct (IH _ H) as (Hr & Hrange & Happ).
    split; [exact Hr|]. split.
    + intros Hb. apply Hrange. now apply shift_in_range.
    + intros l. simpl. rewrite E. apply Happ.
Qed.

(** X9: The scan for the fingerprint reports success only on a buffer that
    holds the fingerprint, having consumed at least one byte and left the
    bytes after it pending; it reports failure only once every pending
    byte has been consumed. *)
Theorem sync_scan_sound (buf buf' : Z) (pending rest : list byte) (ok : bool) :
  sync_scan buf pending = (ok, buf', rest) ->
  exists consumed : list byte,
    pending = consumed ++ rest
    /\ (if ok then synced buf' = true /\ consumed <> [] else rest = []).
Proof.
  revert buf. induction pending as [|b pending IH]; intros buf H; simpl in H.
  - injection H; intros; subst. exists []. auto.
  - destruct (synced (shift_in buf b)) eqn:E.
    + injection H; intros; subst. exists [b]. split; [reflexivity|]. split; [exact E|].
      discriminate.
    + destruct (IH _ H) as (c & -> & Hc). exists (b :: c). split; [reflexivity|].
      destruct ok; [|exact Hc]. split; [apply Hc | discriminate].
Qed.

Lemma sync_scan_sound_witness :
  exists consumed : list byte,
    [x00; xff; x55; xaa; x02; x09] = consumed ++ [x09]
    /\ (if true then synced 0x02AA55FF = true /\ consumed <> [] else [x09] = []).
Proof.
  apply (sync_scan_sound 0 0x02AA55FF [x00; xff; x55; xaa; x02; x09] [x09] true).
  vm_compute. reflexivity.
Defined.

(** X10: Resynchronisation: bytes that do not contain the fingerprint, followed
    by a well-formed NOP request, are skipped; the request is answered by
    exactly one reply, of status OK, the device is bound and the bytes
    after the request stay pending. *)
Theorem resync_after_noise (env : up_env) (fuel : nat) (iodev : Z) (s : up_state)
  (noise frame rest r : list byte) (buf1 : Z) :
  valid_request REQ_NOP frame ->
  rx_of s iodev = noise ++ frame ++ rest ->
  0 <= buffer_of s iodev < 2 ^ 32 ->
  sync_scan (buffer_of s iodev) noise = (false, buf1, r) ->
  Z.shiftr buf1 8 <> 0xAA55FF ->
  exists (reply : list byte) (s2 : up_state),
    uartproxy_iteration env fuel true iodev s = Iterated Continue iodev s2
    /\ trace s2 = trace s ++ [IoWrite iodev reply]
    /\ reply_type reply = REQ_NOP
    /\ reply_status reply = ST_OK
    /\ uartproxy_iodev s2 = iodev
    /\ rx_of s2 iodev = rest.
Proof.
  intros (Hlen & Htype & Hsum) Hrx Hbuf Hscan Hnosync.
  destruct (sync_scan_none _ _ _ _ Hscan) as (_ & Hrange & Happ).
  specialize (Hrange Hbuf).
  destruct frame as [|b0 [|b1 [|b2 [|t3 body]]]]; try discriminate.
  injection Htype as -> -> -> ->.
  assert (Hbody : length body = 60%nat) by (simpl in Hlen; lia).
  unfold uartproxy_iteration, sync_current.
  rewrite Hrx, Happ. cbn [app].
  rewrite sync_scan_frame by assumption.
  set (s1 := set_buffer _ _).
  assert (Hrx1 : rx_of s1 iodev = body ++ rest) by apply rx_of_set.
  assert (Hb1 : buffer_of s1 iodev = REQ_NOP) by apply buffer_of_set.
  assert (Htake : take 60 (rx_of s1 iodev) = body)
    by (rewrite Hrx1; now apply take_app_length').
  pose proof (request_simple_reply env iodev s1) as Hreq. cbv zeta in Hreq.
  rewrite Htake, Hb1 in Hreq.
  destruct Hreq as (reply & s2 & Hreq & Htr & _ & Hrt & Hrs & Hio & _ & Hrest);
    [assumption | exact Hsum | discriminate | discriminate | discriminate |].
  rewrite Hreq. exists reply, s2.
  split; [reflexivity|]. split; [exact Htr|]. split; [exact Hrt|].
  split; [exact Hrs|]. split; [exact Hio|].
  rewrite Hrest, Hrx1. now apply drop_app_length'.
Qed.

Lemma resync_after_noise_witness :
  let s := mk_up {[ 0 := [x12; xff; x34] ++ mk_request REQ_NOP [] ++ [x77] ]} [] ∅ ∅ 3 in
  exists (reply : list byte) (s2 : up_state),
    uartproxy_iteration demo_env 1 true 0 s = Iterated Continue 0 s2
    /\ trace s2 = trace s ++ [IoWrite 0 reply]
    /\ reply_type reply = REQ_NOP
    /\ reply_status reply = ST_OK
    /\ uartproxy_iodev s2 = 0
    /\ rx_of s2 0 = [x77].
Proof.
  intros s.
  apply (resync_after_noise demo_env 1 0 s [x12; xff; x34] (mk_request REQ_NOP [])
           [x77] [] 0x34FF1200).
  - vm_compute. repeat split; reflexivity.
  - vm_compute. reflexivity.
  - change (buffer_of s 0) with 0. lia.
  - vm_compute. reflexivity.
  - vm_compute. discriminate.
Defined.

(** X11: Entered with a start message, the proxy sticks to the bound device:
    when the bytes pending there run out before a fingerprint is seen, it
    returns -1, and its only output is the start notification, a 36-byte
    reply of type BOOT on the bound device. *)
Theorem run_exits_when_stream_ends (env : up_env) (fuel : nat) (msg : list byte)
  (s : up_state) :
  let dev := uartproxy_iodev s in
  (sync_scan (buffer_of s dev) (rx_of s dev)).1.1 = false ->
  exists (boot : list byte) (s' : up_state),
    uartproxy_run env (S fuel) (Some msg) s = Returned (-1) s'
    /\ trace s' = trace s ++ [IoWrite dev boot]
    /\ length boot = 36%nat
    /\ reply_type boot = REQ_BOOT
    /\ rx_of s' dev = []
    /\ mem s' = mem s.
Proof.
  intros dev Hscan.
  destruct (sync_scan (buffer_of s dev) (rx_of s dev)) as [[ok buf1] r] eqn:E.
  simpl in Hscan. subst ok.
  destruct (sync_scan_none _ _ _ _ E) as (-> & _ & _).
  exists (reply_bytes REQ_BOOT 0 msg). eexists. split.
  - unfold uartproxy_run. fold dev. cbn [uartproxy_loop].
    unfold uartproxy_iteration, sync_current.
    change (buffer_of (iodev_write dev (reply_bytes REQ_BOOT 0 msg) s) dev)
      with (buffer_of s dev).
    change (rx_of (iodev_write dev (reply_bytes REQ_BOOT 0 msg) s) dev)
      with (rx_of s dev).
    rewrite E. reflexivity.
  - split; [reflexivity|]. split; [apply length_reply_bytes|].
    split; [apply reply_type_eq|]. split; [apply rx_of_set | reflexivity].
Qed.

Lemma run_exits_when_stream_ends_witness :
  let s := mk_up {[ 3 := [x12; xff; x55] ]} [] ∅ ∅ 3 in
  exists (boot : list byte) (s' : up_state),
    uartproxy_run demo_env 1 (Some []) s = Returned (-1) s'
    /\ trace s' = trace s ++ [IoWrite 3 boot]
    /\ length boot = 36%nat
    /\ reply_type boot = REQ_BOOT
    /\ rx_of s' 3 = []
    /\ mem s' = mem s.
Proof.
  intros s. apply (run_exits_when_stream_ends demo_env 0 [] s).
  vm_compute. reflexivity.
Defined.

(** ** Load and store emulation *)

(** X12: [emulate_store] reports the access size of the instruction, changes no
    register other than the base [Rn], changes nothing at all when it
    rejects the instruction, and when it accepts it the value to store is
    that of [Rt] after writeback, or the caller's value (zero in the
    handler) when [Rt] is the zero register. *)
Theorem emulate_store_frame (regs : gmap Z Z) (insn val : Z) :
  let Rt := Z.land insn 0x1f in
  let Rn := Z.land (Z.shiftr insn 5) 0x1f in
  let '(ok, regs', val', width) := emulate_store regs insn val in
  width = Z.shiftr insn 30
  /\ (forall r : Z, r <> Rn -> regs' !! r = regs !! r)
  /\ (ok = false -> regs' = regs /\ val' = val)
  /\ (ok = true -> val' = if Rt =? 31 then val else reg regs' Rt).
Proof.
  intros Rt Rn. unfold emulate_store. fold Rt Rn.
  repeat match goal with
         | |- context [if ?c then _ else _] => destruct c eqn:?
         end;
    (split; [reflexivity|]; split; [|split]; try discriminate; try tauto;
     try reflexivity;
     try (intros r Hr; first [reflexivity | now apply lookup_insert_ne])).
Qed.

(** X13: [emulate_load] reports the access size of the instruction, changes no
    register other than the base [Rn] and the destination [Rt], and changes
    nothing at all when it rejects the instruction. *)
Theorem emulate_load_frame (regs : gmap Z Z) (insn : Z) (val : option Z) :
  let Rt := Z.land insn 0x1f in
  let Rn := Z.land (Z.shiftr insn 5) 0x1f in
  let '(ok, regs', width) := emulate_load regs insn val in
  width = Z.shiftr insn 30
  /\ (forall r : Z, r <> Rn -> r <> Rt -> regs' !! r = regs !! r)
  /\ (ok = false -> regs' = regs).
Proof.
  intros Rt Rn. unfold emulate_load. fold Rt Rn.
  destruct val as [v|];
    repeat match goal with
           | |- context [if ?c then _ else _] => destruct c eqn:?
           end;
    (split; [reflexivity|]; split; try discriminate; try reflexivity;
     intros r Hr Hr'; rewrite ?lookup_insert_ne by congruence; reflexivity).
Qed.

Lemma opc_field (insn : Z) (b22 b23 : bool) :
  Z.testbit insn 22 = b22 -> Z.testbit insn 23 = b23 ->
  Z.land (Z.shiftr insn 22) 3 = Z.b2z b22 + 2 * Z.b2z b23.
Proof.
  intros H22 H23. change 3 with (Z.ones 2). rewrite Z.land_ones by lia.
  rewrite Z.shiftr_div_pow2 by lia.
  assert (E22 : (insn / 2 ^ 22) mod 2 = Z.b2z b22).
  { destruct b22; [apply Z.testbit_true | apply Z.testbit_false]; (lia || assumption). }
  assert (E23 : (insn / 2 ^ 23) mod 2 = Z.b2z b23).
  { destruct b23; [apply Z.testbit_true | apply Z.testbit_false]; (lia || assumption). }
  rewrite <- E22, <- E23. clear. Z.div_mod_to_equations. lia.
Qed.

(** X14: The two decoders never accept the same instruction: a store that is
    accepted has opc (bits 23:22) zero, a load that is accepted has not. *)
Theorem load_store_disjoint (regs1 regs2 : gmap Z Z) (insn val : Z) (v : option Z) :
  let opc := Z.land (Z.shiftr insn 22) 3 in
  ((emulate_store regs2 insn val).1.1.1 = true -> opc = 0)
  /\ ((emulate_load regs1 insn v).1.1 = true -> opc <> 0)
  /\ (emulate_load regs1 insn v).1.1 && (emulate_store regs2 insn val).1.1.1 = false.
Proof.
  intros opc.
  assert (Hs : (emulate_store regs2 insn val).1.1.1 = true -> opc = 0).
  { unfold emulate_store.
    repeat match goal with
           | |- context [if ?c =? ?d then _ else _] => destruct (Z.eqb_spec c d)
           | |- context [if ?c then _ else _] => destruct c
           end; cbn [fst snd]; try discriminate; intros _;
      match goal with
      | H : Z.land insn ?m = ?w |- _ =>
          pose proof (land_bit insn m w 22 H eq_refl) as H22;
          pose proof (land_bit insn m w 23 H eq_refl) as H23
      end;
      apply (opc_field insn _ _ H22 H23). }
  assert (Hl : (emulate_load regs1 insn v).1.1 = true -> opc <> 0).
  { unfold emulate_load.
    repeat match goal with
           | |- context [if Z.land insn ?m =? ?d then _ else _] =>
               destruct (Z.eqb_spec (Z.land insn m) d)
           end;
      try (cbn [fst snd]; discriminate); intros _;
    match goal with
         | H : Z.land insn ?m = ?w |- _ =>
             first [ pose proof (land_bit insn m w 22 H eq_refl) as Hb;
                     destruct (Z.testbit insn 23) eqn:H23;
                     unfold opc; rewrite (opc_field insn _ _ Hb H23);
                     vm_compute; discriminate
                   | pose proof (land_bit insn m w 23 H eq_refl) as Hb;
                     destruct (Z.testbit insn 22) eqn:H22;
                     unfold opc; rewrite (opc_field insn _ _ H22 Hb);
                     vm_compute; discriminate ]
         end. }
  split; [exact Hs|]. split; [exact Hl|].
  destruct ((emulate_load regs1 insn v).1.1) eqn:El; [|reflexivity].
  destruct ((emulate_store regs2 insn val).1.1.1) eqn:Es; [|reflexivity].
  exfalso. apply Hl; [reflexivity|]. now apply Hs.
Qed.

(** X15: The macro [EXT(n, b)], for a width [b] of 1 to 32 bits, is the sign
    extension of the low [b] bits of [n]: these bits read as a two's
    complement number. *)
Theorem EXT_sign_extends (n b : Z) :
  0 < b <= 32 ->
  EXT n b = (let m := n mod 2 ^ b in if m <? 2 ^ (b - 1) then m else m - 2 ^ b).
Proof. exact (EXT_sign_extension n b). Qed.

Lemma EXT_sign_extends_witness :
  EXT 0x1ff 9 = (let m := 0x1ff mod 2 ^ 9 in if m <? 2 ^ (9 - 1) then m else m - 2 ^ 9).
Proof. apply (EXT_sign_extends 0x1ff 9). lia. Defined.

(** ** Dispatch of the abort handler *)

Lemma emulate_load_width (regs : gmap Z Z) (insn : Z) (val : option Z) :
  (emulate_load regs insn val).2 = Z.shiftr insn 30.
Proof.
  unfold emulate_load.
  repeat match goal with
         | |- context [if ?c then _ else _] => destruct c
         | |- context [match val with _ => _ end] => destruct val
         end; reflexivity.
Qed.

Lemma emulate_load_none_regs (regs : gmap Z Z) (insn : Z) :
  (emulate_load regs insn None).1.2 = regs.
Proof.
  unfold emulate_load.
  repeat match goal with
         | |- context [if ?c then _ else _] => destruct c
         end; reflexivity.
Qed.

(** X16: A read abort that the handler completes.  The entry is of one of the
    kinds MAP, HOOK and PROXY_HOOK_R, _W, _RW; the effects are, in this
    order: the access (a read of device memory at the target for MAP and at
    the IPA itself for PROXY_HOOK_W, the call of the hook for HOOK, the
    exception proxy with the identifier of the entry for PROXY_HOOK_R and
    _RW), then the trace event carrying the value obtained when the entry
    has TRACE_READ, then the write of ELR.  The register frame is the one
    the second pass of the load emulation leaves for that value. *)
Theorem read_abort_dispatch (env : hv_env) (pt : pt_state) (iodev esr far elr : Z)
  (regs regs' : gmap Z Z) (t : list effect) (pte : Z) :
  let ipa := hv_translate env far true false in
  let insn := u32 (read32 env (hv_translate env elr false false)) in
  let width := Z.shiftr insn 30 in
  let target := Z.land pte PTE_TARGET_MASK_L4 in
  let paddr := Z.lor target (Z.land far (MASK VADDR_L4_OFFSET_BITS)) in
  let flags := FIELD_PREP MMIO_EVT_WIDTH width in
  let id := FIELD_GET PTE_TARGET_MASK_L4 pte in
  let type := FIELD_GET SPTE_TYPE pte in
  nonzero (Z.land esr ESR_ISS_DABORT_WnR) = false ->
  hv_pt_walk ipa pt = Some pte ->
  hv_handle_dabort env pt iodev esr far elr regs = Some (true, regs', t) ->
  exists (acc : effect) (val : Z) (regs1 : gmap Z Z),
    t = [acc] ++ trace_effects env iodev pte SPTE_TRACE_READ flags elr ipa val
        ++ [MsrElr (u64 (elr + 4))]
    /\ emulate_load regs1 insn (Some val) = (true, regs', width)
    /\ ((type = SPTE_MAP /\ acc = MmioRead width paddr
         /\ val = trunc_width width (mmio_read env width paddr) /\ regs1 = regs)
        \/ (type = SPTE_PROXY_HOOK_W /\ acc = MmioRead width ipa
            /\ val = trunc_width width (mmio_read env width ipa) /\ regs1 = regs)
        \/ (type = SPTE_HOOK /\ acc = HookCall target ipa 0 false width
            /\ hook_call env target ipa 0 false width = (true, val) /\ regs1 = regs)
        \/ ((type = SPTE_PROXY_HOOK_RW \/ type = SPTE_PROXY_HOOK_R)
            /\ acc = ExcProxy flags id ipa 0
            /\ hv_exc_proxy env regs flags id ipa 0 = (regs1, val))).
Proof.
  intros ipa insn width target paddr flags id type Hwnr Hwalk H.
  unfold hv_handle_dabort in H. rewrite Hwnr in H.
  fold ipa insn in H. rewrite Hwalk in H.
  repeat (match type of H with
          | context [if ?c then Some (false, regs, []) else _] =>
              destruct c; [discriminate|]
          end).
  pose proof (emulate_load_width regs insn None) as Hw0.
  pose proof (emulate_load_none_regs regs insn) as Hf0.
  destruct (emulate_load regs insn None) as [[ok0 regs0] w0].
  cbn [fst snd] in Hw0, Hf0. fold width in Hw0. subst w0 regs0.
  destruct ok0; cbn [negb] in H; [|discriminate].
  fold width target paddr flags id type in H.
  assert (Hfin : forall (r1 : gmap Z Z) (v : Z) (a : effect),
            (let t0 := [a] ++ trace_effects env iodev pte SPTE_TRACE_READ flags elr ipa v in
             let '(ok, r, _) := emulate_load r1 insn (Some v) in
             if negb ok then Some (false, r, t0)
             else Some (true, r, t0 ++ [MsrElr (u64 (elr + 4))]))
            = Some (true, regs', t) ->
            t = [a] ++ trace_effects env iodev pte SPTE_TRACE_READ flags elr ipa v
                ++ [MsrElr (u64 (elr + 4))]
            /\ emulate_load r1 insn (Some v) = (true, regs', width)).
  { intros r1 v a. cbv zeta.
    set (tr := trace_effects env iodev pte SPTE_TRACE_READ flags elr ipa v).
    clearbody tr.
    pose proof (emulate_load_width r1 insn (Some v)) as Hw1.
    destruct (emulate_load r1 insn (Some v)) as [[ok1 r] w1].
    cbn [snd] in Hw1. fold width in Hw1. subst w1.
    destruct ok1; cbn [negb]; intros E; [|discriminate].
    injection E; intros; subst. split; reflexivity. }
  destruct (Z.eqb_spec type SPTE_MAP) as [Hmap|Hmap].
  { rewrite Hmap in H. change (SPTE_MAP =? SPTE_PROXY_HOOK_W) with false in H.
    cbn [orb] in H. apply Hfin in H. destruct H as (Ht & He).
    eexists _, _, _. split; [exact Ht|]. split; [exact He|]. left. repeat split; try reflexivity; try assumption. }
  destruct (Z.eqb_spec type SPTE_PROXY_HOOK_W) as [Hpw|Hpw].
  { cbn [orb] in H. apply Hfin in H. destruct H as (Ht & He).
    eexists _, _, _. split; [exact Ht|]. split; [exact He|]. right. left. repeat split; try reflexivity; try assumption. }
  cbn [orb] in H.
  destruct (Z.eqb_spec type SPTE_HOOK) as [Hhook|Hhook].
  { destruct (hook_call env target ipa 0 false width) as [hok hval] eqn:Hh.
    destruct hok; cbn [negb] in H; [|discriminate].
    apply Hfin in H. destruct H as (Ht & He).
    eexists _, _, _. split; [exact Ht|]. split; [exact He|]. right. right. left. repeat split; try reflexivity; try assumption. }
  destruct (Z.eqb_spec type SPTE_PROXY_HOOK_RW) as [Hrw|Hrw].
  { cbn [orb] in H.
    destruct (hv_exc_proxy env regs flags id ipa 0) as [regs1 data] eqn:Hp.
    apply Hfin in H. destruct H as (Ht & He).
    eexists _, _, _. split; [exact Ht|]. split; [exact He|]. right. right. right. repeat split; try reflexivity; try assumption; auto. }
  destruct (Z.eqb_spec type SPTE_PROXY_HOOK_R) as [Hr|Hr].
  { cbn [orb] in H.
    destruct (hv_exc_proxy env regs flags id ipa 0) as [regs1 data] eqn:Hp.
    apply Hfin in H. destruct H as (Ht & He).
    eexists _, _, _. split; [exact Ht|]. split; [exact He|]. right. right. right. repeat split; try reflexivity; try assumption; auto. }
  cbn [orb] in H. discriminate.
Qed.

Lemma read_abort_dispatch_witness :
  let env := demo_hv_env 0xB9400001 in             (* ldr w1, [x0] *)
  let pte := Z.lor 0x500004 SPTE_TRACE_READ in
  let pt := default (mk_pt [] ∅ 0)
              (pt_after (hv_map_sw 0x500000 (Z.lor 0x500000 SPTE_TRACE_READ) 0x4000)) in
  let regs : gmap Z Z := {[ 0 := 0x500004 ]} in
  let regs' : gmap Z Z := <[ 1 := 0 ]> regs in
  let t := [MmioRead 2 0x500004]
           ++ send_event_effects 0 1 (mmiotrace_bytes 2 0x80000 0x500004 0)
           ++ [MsrElr 0x80004] in
  hv_handle_dabort env pt 0 0 0x500004 0x80000 regs = Some (true, regs', t)
  /\ exists (acc : effect) (val : Z) (regs1 : gmap Z Z),
       t = [acc] ++ trace_effects env 0 pte SPTE_TRACE_READ
                      (FIELD_PREP MMIO_EVT_WIDTH 2) 0x80000 0x500004 val
           ++ [MsrElr (u64 (0x80000 + 4))]
       /\ emulate_load regs1 0xB9400001 (Some val) = (true, regs', 2)
       /\ ((FIELD_GET SPTE_TYPE pte = SPTE_MAP /\ acc = MmioRead 2 0x500004
            /\ val = trunc_width 2 (mmio_read env 2 0x500004) /\ regs1 = regs)
           \/ (FIELD_GET SPTE_TYPE pte = SPTE_PROXY_HOOK_W /\ acc = MmioRead 2 0x500004
               /\ val = trunc_width 2 (mmio_read env 2 0x500004) /\ regs1 = regs)
           \/ (FIELD_GET SPTE_TYPE pte = SPTE_HOOK
               /\ acc = HookCall 0x500004 0x500004 0 false 2
               /\ hook_call env 0x500004 0x500004 0 false 2 = (true, val)
               /\ regs1 = regs)
           \/ ((FIELD_GET SPTE_TYPE pte = SPTE_PROXY_HOOK_RW
                \/ FIELD_GET SPTE_TYPE pte = SPTE_PROXY_HOOK_R)
               /\ acc = ExcProxy (FIELD_PREP MMIO_EVT_WIDTH 2)
                          (FIELD_GET PTE_TARGET_MASK_L4 pte) 0x500004 0
               /\ hv_exc_proxy env regs (FIELD_PREP MMIO_EVT_WIDTH 2)
                    (FIELD_GET PTE_TARGET_MASK_L4 pte) 0x500004 0 = (regs1, val))).
Proof.
  intros env pte pt regs regs' t.
  assert (H : hv_handle_dabort env pt 0 0 0x500004 0x80000 regs = Some (true, regs', t))
    by (vm_compute; reflexivity).
  split; [exact H|].
  apply (read_abort_dispatch env pt 0 0 0x500004 0x80000 regs regs' t pte).
  - vm_compute. reflexivity.
  - vm_compute. reflexivity.
  - exact H.
Defined.

(** X17: A write abort that the handler completes.  The store emulation
    accepted the instruction and gave the value; the entry is of one of
    the kinds MAP, HOOK and PROXY_HOOK_R, _W, _RW; the effects are, in this
    order: the trace event for the value when the entry has TRACE_WRITE,
    the access (a write of the value, truncated to the access size, at the
    target for MAP and at the IPA itself for PROXY_HOOK_R, the call of the
    hook for HOOK, the exception proxy with the identifier of the entry for
    PROXY_HOOK_W and _RW), then the write of ELR. *)
Theorem write_abort_dispatch (env : hv_env) (pt : pt_state) (iodev esr far elr : Z)
  (regs regs' : gmap Z Z) (t : list effect) (pte : Z) :
  let ipa := hv_translate env far true true in
  let insn := u32 (read32 env (hv_translate env elr false false)) in
  let width := Z.shiftr insn 30 in
  let target := Z.land pte PTE_TARGET_MASK_L4 in
  let paddr := Z.lor target (Z.land far (MASK VADDR_L4_OFFSET_BITS)) in
  let flags := Z.lor (FIELD_PREP MMIO_EVT_WIDTH width) MMIO_EVT_WRITE in
  let id := FIELD_GET PTE_TARGET_MASK_L4 pte in
  let type := FIELD_GET SPTE_TYPE pte in
  nonzero (Z.land esr ESR_ISS_DABORT_WnR) = true ->
  hv_pt_walk ipa pt = Some pte ->
  hv_handle_dabort env pt iodev esr far elr regs = Some (true, regs', t) ->
  exists (acc : effect) (val : Z) (regs1 : gmap Z Z),
    emulate_store regs insn 0 = (true, regs1, val, width)
    /\ t = trace_effects env iodev pte SPTE_TRACE_WRITE flags elr ipa val
           ++ [acc; MsrElr (u64 (elr + 4))]
    /\ ((type = SPTE_MAP /\ acc = MmioWrite width paddr (trunc_width width val)
         /\ regs' = regs1)
        \/ (type = SPTE_PROXY_HOOK_R /\ acc = MmioWrite width ipa (trunc_width width val)
            /\ regs' = regs1)
        \/ (type = SPTE_HOOK /\ acc = HookCall target ipa val true width
            /\ (hook_call env target ipa val true width).1 = true /\ regs' = regs1)
        \/ ((type = SPTE_PROXY_HOOK_RW \/ type = SPTE_PROXY_HOOK_W)
            /\ acc = ExcProxy flags id ipa val
            /\ regs' = (hv_exc_proxy env regs1 flags id ipa val).1)).
Proof.
  intros ipa insn width target paddr flags id type Hwnr Hwalk H.
  unfold hv_handle_dabort in H. rewrite Hwnr in H.
  fold ipa insn in H. rewrite Hwalk in H.
  repeat (match type of H with
          | context [if ?c then Some (false, regs, []) else _] =>
              destruct c; [discriminate|]
          end).
  pose proof (emulate_store_width regs insn 0) as Hw0.
  destruct (emulate_store regs insn 0) as [[[ok0 regs1] val] w0].
  cbn [snd] in Hw0. fold width in Hw0. subst w0.
  destruct ok0; cbn [negb] in H; [|discriminate].
  fold width target paddr flags id type in H.
  exists (if type =? SPTE_MAP then MmioWrite width paddr (trunc_width width val)
          else if type =? SPTE_PROXY_HOOK_R
               then MmioWrite width ipa (trunc_width width val)
               else if type =? SPTE_HOOK then HookCall target ipa val true width
                    else ExcProxy flags id ipa val), val, regs1.
  split; [reflexivity|].
  set (tr := trace_effects env iodev pte SPTE_TRACE_WRITE flags elr ipa val) in *.
  clearbody tr.
  destruct (Z.eqb_spec type SPTE_MAP) as [Hmap|Hmap].
  { rewrite Hmap in H. change (SPTE_MAP =? SPTE_PROXY_HOOK_R) with false in H.
    cbn [orb] in H. injection H; intros; subst t regs'.
    split; [reflexivity|]. left. auto. }
  destruct (Z.eqb_spec type SPTE_PROXY_HOOK_R) as [Hpr|Hpr].
  { cbn [orb] in H. injection H; intros; subst t regs'.
    split; [reflexivity|]. right. left. auto. }
  cbn [orb] in H.
  destruct (Z.eqb_spec type SPTE_HOOK) as [Hhook|Hhook].
  { destruct (hook_call env target ipa val true width) as [hok hval] eqn:Hh.
    destruct hok; cbn [negb] in H; [|discriminate].
    injection H; intros; subst t regs'.
    split; [now rewrite <- app_assoc|]. right. right. left. auto. }
  destruct (Z.eqb_spec type SPTE_PROXY_HOOK_RW) as [Hrw|Hrw].
  { cbn [orb] in H.
    destruct (hv_exc_proxy env regs1 flags id ipa val) as [regs2 data] eqn:Hp.
    injection H; intros; subst t regs'.
    split; [reflexivity|]. right. right. right. auto. }
  destruct (Z.eqb_spec type SPTE_PROXY_HOOK_W) as [Hw|Hw].
  { cbn [orb] in H.
    destruct (hv_exc_proxy env regs1 flags id ipa val) as [regs2 data] eqn:Hp.
    injection H; intros; subst t regs'.
    split; [reflexivity|]. right. right. right. auto. }
  cbn [orb] in H. discriminate.
Qed.

Lemma write_abort_dispatch_witness :
  let env := demo_hv_env 0x79000001 in             (* strh w1, [x0] *)
  let pte := 0x500000 in
  let pt := default (mk_pt [] ∅ 0) (pt_after (hv_map_sw 0x500000 0x500000 0x4000)) in
  let regs : gmap Z Z := {[ 0 := 0x500002; 1 := 0x1234 ]} in
  let t := [MmioWrite 1 0x500002 0x1234; MsrElr 0x80004] in
  hv_handle_dabort env pt 0 0x40 0x500002 0x80000 regs = Some (true, regs, t)
  /\ exists (acc : effect) (val : Z) (regs1 : gmap Z Z),
       emulate_store regs 0x79000001 0 = (true, regs1, val, 1)
       /\ t = trace_effects env 0 pte SPTE_TRACE_WRITE
                (Z.lor (FIELD_PREP MMIO_EVT_WIDTH 1) MMIO_EVT_WRITE) 0x80000 0x500002 val
              ++ [acc; MsrElr (u64 (0x80000 + 4))]
       /\ ((FIELD_GET SPTE_TYPE pte = SPTE_MAP
            /\ acc = MmioWrite 1 0x500002 (trunc_width 1 val) /\ regs = regs1)
           \/ (FIELD_GET SPTE_TYPE pte = SPTE_PROXY_HOOK_R
               /\ acc = MmioWrite 1 0x500002 (trunc_width 1 val) /\ regs = regs1)
           \/ (FIELD_GET SPTE_TYPE pte = SPTE_HOOK
               /\ acc = HookCall 0x500000 0x500002 val true 1
               /\ (hook_call env 0x500000 0x500002 val true 1).1 = true /\ regs = regs1)
           \/ ((FIELD_GET SPTE_TYPE pte = SPTE_PROXY_HOOK_RW
                \/ FIELD_GET SPTE_TYPE pte = SPTE_PROXY_HOOK_W)
               /\ acc = ExcProxy (Z.lor (FIELD_PREP MMIO_EVT_WIDTH 1) MMIO_EVT_WRITE)
                          (FIELD_GET PTE_TARGET_MASK_L4 pte) 0x500002 val
               /\ regs = (hv_exc_proxy env regs1
                            (Z.lor (FIELD_PREP MMIO_EVT_WIDTH 1) MMIO_EVT_WRITE)
                            (FIELD_GET PTE_TARGET_MASK_L4 pte) 0x500002 val).1)).
Proof.
  intros env pte pt regs t.
  assert (H : hv_handle_dabort env pt 0 0x40 0x500002 0x80000 regs = Some (true, regs, t))
    by (vm_compute; reflexivity).
  split; [exact H|].
  apply (write_abort_dispatch env pt 0 0x40 0x500002 0x80000 regs regs t pte).
  - vm_compute. reflexivity.
  - vm_compute. reflexivity.
  - exact H.
Defined.

(** ** The page table after initialisation and a hardware mapping *)

(** X18: [hv_pt_init] leaves every IPA below 2^36 unmapped, whatever the table
    held before.  It clears the root array only: the tables that were
    allocated and the allocator are left as they were. *)
Theorem init_unmaps_all (s0 : pt_state) (ipa : Z) :
  0 <= ipa < 2 ^ 36 ->
  exists s : pt_state,
    hv_pt_init s0 = Some (tt, s)
    /\ hv_pt_walk ipa s = Some 0
    /\ tables s = tables s0 /\ brk s = brk s0.
Proof.
  intros Hipa. eexists. split; [apply hv_pt_init_eq|].
  split; [|split; reflexivity].
  apply walk_zero. cbn [hv_L2]. apply lookup_replicate. split; [reflexivity|].
  Z.div_mod_to_equations. lia.
Qed.

Lemma init_unmaps_all_witness :
  let s0 := mk_pt [5; 7] {[ 0x4000 := [1] ]} 0x8000 in
  exists s : pt_state,
    hv_pt_init s0 = Some (tt, s)
    /\ hv_pt_walk 0x123456 s = Some 0
    /\ tables s = tables s0 /\ brk s = brk s0.
Proof.
  intros s0. apply (init_unmaps_all s0 0x123456). lia.
Defined.

Lemma init_map_hw (s0 : pt_state) (from to size : Z) :
  0 <= brk s0 <= 2 ^ 49 ->
  from mod 2 ^ 14 = 0 -> to mod 2 ^ 14 = 0 -> size mod 2 ^ 14 = 0 ->
  0 <= from -> 0 <= size -> from + size <= 2 ^ 36 ->
  0 <= to -> to + size <= 2 ^ 50 ->
  exists s1 : pt_state,
    (hv_pt_init;; hv_map_hw from to size) s0 = Some (0, s1)
    /\ pt_inv s1
    /\ (forall ipa, from <= ipa < from + size ->
                    walks_to s1 ipa (to + (ipa - from) / 2 ^ 14 * 2 ^ 14))
    /\ (forall ipa, 0 <= ipa < 2 ^ 36 -> ~ (from <= ipa < from + size) ->
                    hv_pt_walk ipa s1 = Some 0)
    /\ next_ptr s1 <= 2 ^ 49 + 2 ^ 14 + 2 ^ 36.
Proof.
  intros Hb Hfa Hta Hsa Hf0 Hs0 Hfb Ht0 Htb.
  destruct (pt_inv_init s0) as (Hinv & Hz); [lia|].
  set (s := mk_pt (replicate 2048 0) (tables s0) (brk s0)) in *.
  assert (Hnp : next_ptr s <= 2 ^ 49 + 2 ^ 14).
  { rewrite next_ptr_eq by (unfold s; cbn [brk]; lia). unfold s. cbn [brk]. zdm. }
  destruct (hv_map_hw_spec s from to size Hinv Hz) as (s1 & Hmap & Hinv1 & Hin & Hout & Hn);
    try assumption; [lia|].
  exists s1. unfold pt_bind. rewrite hv_pt_init_eq. fold s.
  split; [exact Hmap|]. split; [exact Hinv1|]. split; [exact Hin|]. split; [|lia].
  intros ipa Hipa Hnot. rewrite (Hout ipa Hipa Hnot).
  apply walk_zero. apply Hz. zdm.
Qed.

(** X19: [hv_map_hw] on a fresh table maps the range and nothing else: every
    IPA below 2^36 outside [[from, from + size)] is still unmapped. *)
Theorem map_hw_leaves_rest_unmapped (s0 : pt_state) (from to size ipa : Z) :
  0 <= brk s0 <= 2 ^ 49 ->
  from mod 2 ^ 14 = 0 -> to mod 2 ^ 14 = 0 -> size mod 2 ^ 14 = 0 ->
  0 <= from -> 0 <= size -> from + size <= 2 ^ 36 ->
  0 <= to -> to + size <= 2 ^ 50 ->
  0 <= ipa < 2 ^ 36 -> ~ (from <= ipa < from + size) ->
  exists s1 : pt_state,
    (hv_pt_init;; hv_map_hw from to size) s0 = Some (0, s1)
    /\ hv_pt_walk ipa s1 = Some 0.
Proof.
  intros Hb Hfa Hta Hsa Hf0 Hs0 Hfb Ht0 Htb Hipa Hnot.
  destruct (init_map_hw s0 from to size) as (s1 & Hmap & _ & _ & Hout & _); try assumption.
  exists s1. split; [exact Hmap|]. now apply Hout.
Qed.

Lemma map_hw_leaves_rest_unmapped_witness :
  exists s1 : pt_state,
    (hv_pt_init;; hv_map_hw 0x100000 0x100000 0x8000) (mk_pt [] ∅ 0x10000000)
    = Some (0, s1)
    /\ hv_pt_walk 0x108000 s1 = Some 0.
Proof.
  apply (map_hw_leaves_rest_unmapped (mk_pt [] ∅ 0x10000000) 0x100000 0x100000 0x8000
           0x108000);
    try reflexivity; cbn [brk]; lia.
Defined.

(** X20: After [hv_map_hw] on a fresh table, every table descriptor of the root
    array points to a live L3 table of 2048 entries that lies below the
    allocator's break, and no two root entries point to the same table. *)
Theorem map_hw_tables_owned (s0 : pt_state) (from to size : Z) :
  0 <= brk s0 <= 2 ^ 49 ->
  from mod 2 ^ 14 = 0 -> to mod 2 ^ 14 = 0 -> size mod 2 ^ 14 = 0 ->
  0 <= from -> 0 <= size -> from + size <= 2 ^ 36 ->
  0 <= to -> to + size <= 2 ^ 50 ->
  exists s1 : pt_state,
    (hv_pt_init;; hv_map_hw from to size) s0 = Some (0, s1)
    /\ length (hv_L2 s1) = 2048%nat
    /\ forall (i : nat) (e : Z),
         hv_L2 s1 !! i = Some e -> L2_IS_TABLE e = true ->
         (exists tb : list Z,
             tables s1 !! Z.land e PTE_TARGET_MASK = Some tb
             /\ length tb = 2048%nat
             /\ Z.land e PTE_TARGET_MASK + 2 ^ 14 <= brk s1)
         /\ forall j : nat, hv_L2 s1 !! j = Some e -> i = j.
Proof.
  intros Hb Hfa Hta Hsa Hf0 Hs0 Hfb Ht0 Htb.
  destruct (init_map_hw s0 from to size) as (s1 & Hmap & Hinv & _); try assumption.
  exists s1. split; [exact Hmap|]. split; [exact (inv_len s1 Hinv)|].
  intros i e He Htab.
  destruct (inv_l2 s1 Hinv _ _ He) as [->|[(tg & Hblk)|(p & tb & -> & Hp & Hpb & Ht & Hlen & _)]].
  - discriminate.
  - rewrite (hw_block_not_table e tg Hblk) in Htab. discriminate.
  - split.
    + rewrite (tbl_entry_target p Hp). exists tb. auto.
    + intros j Hj. apply (inv_inj s1 Hinv i j (p + 3) He Hj).
      destruct Hp. zdm.
Qed.

Lemma map_hw_tables_owned_witness :
  exists s1 : pt_state,
    (hv_pt_init;; hv_map_hw 0x100000 0x100000 0x8000) (mk_pt [] ∅ 0x10000000)
    = Some (0, s1)
    /\ length (hv_L2 s1) = 2048%nat
    /\ forall (i : nat) (e : Z),
         hv_L2 s1 !! i = Some e -> L2_IS_TABLE e = true ->
         (exists tb : list Z,
             tables s1 !! Z.land e PTE_TARGET_MASK = Some tb
             /\ length tb = 2048%nat
             /\ Z.land e PTE_TARGET_MASK + 2 ^ 14 <= brk s1)
         /\ forall j : nat, hv_L2 s1 !! j = Some e -> i = j.
Proof.
  apply (map_hw_tables_owned (mk_pt [] ∅ 0x10000000) 0x100000 0x100000 0x8000);
    try reflexivity; cbn [brk]; lia.
Defined.

(** ** Sub-page entries *)

Lemma l4_entry_make (q : Z) :
  ptr_ok q -> Z.lor q (FIELD_PREP PTE_TYPE PTE_TABLE) = q + 2.
Proof.
  intros (Ha & Hr). change (FIELD_PREP PTE_TYPE PTE_TABLE) with 2.
  apply lor_disjoint. change 2 with PTE_TYPE. rewrite land_TYPE. zdm.
Qed.

Lemma l4_entry_is_table (q : Z) : ptr_ok q -> L3_IS_TABLE (q + 2) = true.
Proof.
  intros (Ha & Hr). unfold L3_IS_TABLE, IS_SW, nonzero.
  rewrite FIELD_GET_TYPE, land_VALID.
  replace ((q + 2) mod 2) with 0 by zdm.
  replace ((q + 2) / 2 mod 2) with 1 by zdm.
  destruct (Z.eqb_spec (q + 2) 0); [lia | reflexivity].
Qed.

Lemma l4_entry_target (q : Z) : ptr_ok q -> Z.land (q + 2) PTE_TARGET_MASK = q.
Proof. intros (Ha & Hr). rewrite land_TARGET. zdm. Qed.

(** The walk below a sub-page table. *)
Lemma walk_l4 (s : pt_state) (ipa p q : Z) (tb t4 : list Z) :
  0 <= ipa ->
  hv_L2 s !! Z.to_nat (ipa / 2 ^ 25) = Some (p + 3) -> ptr_ok p ->
  tables s !! p = Some tb ->
  tb !! Z.to_nat ((ipa / 2 ^ 14) mod 2 ^ 11) = Some (q + 2) -> ptr_ok q ->
  tables s !! q = Some t4 ->
  hv_pt_walk ipa s = t4 !! Z.to_nat ((ipa / 2 ^ 2) mod 2 ^ 12).
Proof.
  intros Hipa H Hp Htb He3 Hq Ht4.
  unfold hv_pt_walk. change VADDR_L2_OFFSET_BITS with 25.
  change VADDR_L3_OFFSET_BITS with 14. change VADDR_L3_INDEX_BITS with 11.
  change VADDR_L4_OFFSET_BITS with 2. change VADDR_L4_INDEX_BITS with 12.
  rewrite !Z.shiftr_div_pow2 by lia. rewrite H.
  rewrite (tbl_entry_is_table p Hp), (tbl_entry_target p Hp). cbn [negb].
  rewrite Htb, !land_low by lia. rewrite He3.
  rewrite (l4_entry_is_table q Hq), (l4_entry_target q Hq). cbn [negb].
  rewrite Ht4. reflexivity.
Qed.

Lemma walk_unmapped_not_block (s : pt_state) (from e tg : Z) :
  hv_pt_walk from s = Some 0 ->
  hv_L2 s !! Z.to_nat (from / 2 ^ 25) = Some e -> ~ hw_block e tg.
Proof.
  intros Hw He Hb. destruct (walk_block s from e tg He Hb) as (pte & Hp & Hv & _).
  rewrite Hw in Hp. injection Hp as <-. discriminate Hv.
Qed.

(** [hv_pt_get_l4] where the page of [from] is unmapped: the L3 table is
    found or allocated, a zeroed sub-page table is allocated and hooked
    into it. *)
Lemma get_l4_spec (s : pt_state) (from : Z) :
  pt_inv s -> 0 <= from < 2 ^ 36 -> hv_pt_walk from s = Some 0 ->
  next_ptr s + 2 ^ 15 <= 2 ^ 50 ->
  exists (p3 p4 : Z) (s1 : pt_state) (tb : list Z),
    hv_pt_get_l4 from s
    = Some (p4, mk_pt (hv_L2 s1)
                  (<[p3 := <[Z.to_nat ((from / 2 ^ 14) mod 2 ^ 11) := p4 + 2]> tb]>
                     (<[p4 := replicate 4096 0]> (tables s1)))
                  (p4 + 2 ^ 15))
    /\ pt_inv s1
    /\ (forall ipa, 0 <= ipa < 2 ^ 36 -> hv_pt_walk ipa s1 = hv_pt_walk ipa s)
    /\ hv_L2 s1 !! Z.to_nat (from / 2 ^ 25) = Some (p3 + 3)
    /\ ptr_ok p3 /\ ptr_ok p4
    /\ tables s1 !! p3 = Some tb /\ l3_ok tb
    /\ tb !! Z.to_nat ((from / 2 ^ 14) mod 2 ^ 11) = Some 0
    /\ p3 + 2 ^ 14 <= brk s1 /\ brk s1 <= p4.
Proof.
  intros Hinv Hfrom Hw Hroom.
  destruct (get_l3_spec s from Hinv Hfrom) as
    (p3 & s1 & tb & Hg & Hinv1 & HL2 & Hp3 & Ht & Hok & Hsame & Hn).
  { intros e tg He. now apply (walk_unmapped_not_block s from e tg). }
  { lia. }
  set (i2 := Z.to_nat (from / 2 ^ 25)) in *.
  set (i3 := Z.to_nat ((from / 2 ^ 14) mod 2 ^ 11)).
  assert (Hi2 : hv_L2 s1 !! i2 = Some (p3 + 3)).
  { rewrite HL2. apply list_lookup_insert_eq. rewrite (inv_len s Hinv). unfold i2. zdm. }
  pose proof Hok as (Hlen & Hent).
  assert (Hj : (i3 < length tb)%nat) by (rewrite Hlen; unfold i3; zdm).
  destruct (lookup_lt_is_Some_2 _ _ Hj) as (e3 & He3).
  assert (E3 : e3 = 0).
  { destruct (Hent _ _ He3) as [E|(tg & Hpage)]; [exact E|].
    destruct (walk_table s1 from p3 tb e3 ltac:(lia) Hi2 Hp3 Ht He3) as (_ & Hpg).
    destruct (Hpg tg Hpage) as (pte & Hp & Hv & _).
    rewrite Hsame, Hw in Hp by lia. injection Hp as <-. discriminate Hv. }
  subst e3.
  pose proof (inv_brk s1 Hinv1) as Hbrk1. pose proof (inv_brk s Hinv) as Hbrk.
  set (p4 := next_ptr s1).
  assert (Hp4 : ptr_ok p4).
  { pose proof (next_ptr_eq s1 Hbrk1) as En1. unfold p4, ptr_ok.
    split; [rewrite En1; zdm|]. split; [rewrite En1; zdm | lia]. }
  assert (Hb4 : brk s1 <= p4) by (unfold p4; rewrite next_ptr_eq by lia; zdm).
  assert (Hb3 : p3 + 2 ^ 14 <= brk s1).
  { destruct (inv_l2 s1 Hinv1 _ _ Hi2) as [E|[(tg & Hb)|(q & tq & E & _ & Hqb & _)]].
    - destruct Hp3. lia.
    - apply hw_block_mod4 in Hb. destruct Hp3. zdm.
    - replace p3 with q by lia. exact Hqb. }
  exists p3, p4, s1, tb.
  split; [|tauto].
  unfold hv_pt_get_l4. unfold pt_bind at 1. rewrite Hg.
  change VADDR_L3_OFFSET_BITS with 14. change VADDR_L3_INDEX_BITS with 11.
  rewrite Z.shiftr_div_pow2, land_low by lia.
  unfold pt_bind at 1. rewrite (tbl_load_eq p3 _ 0 tb s1) by (zdm || assumption).
  change (L3_IS_TABLE 0) with false. change (IS_HW 0) with false. cbv iota.
  unfold pt_bind at 1. unfold pt_ret at 1.
  unfold pt_bind at 1. rewrite memalign_page. fold p4.
  change (nonzero 0) with false. cbv iota.
  change (ENTRIES_PER_L4_TABLE * 8) with (2 ^ 15).
  change (Z.to_nat ENTRIES_PER_L4_TABLE) with 4096%nat.
  unfold pt_bind at 1. unfold tbl_init at 1. cbn [tables hv_L2 brk set_tables].
  rewrite (l4_entry_make p4 Hp4).
  unfold pt_bind at 1.
  rewrite (tbl_store_eq p3 _ _ tb).
  - unfold pt_ret. cbn [tables hv_L2 brk set_tables]. fold i3. reflexivity.
  - cbn [tables set_tables]. rewrite lookup_insert_ne by lia. exact Ht.
  - rewrite Hlen. zdm.
Qed.

Lemma IS_SW_not_HW (to : Z) : IS_SW to = true -> IS_HW to = false.
Proof.
  unfold IS_SW, IS_HW. destruct (nonzero to); [|discriminate].
  destruct (nonzero (Z.land to PTE_VALID)); [discriminate | reflexivity].
Qed.

Lemma same_word (ipa from : Z) :
  0 <= ipa -> 0 <= from ->
  (ipa / 2 ^ 2 =? from / 2 ^ 2)
  = (Z.to_nat (ipa / 2 ^ 25) =? Z.to_nat (from / 2 ^ 25))%nat
    && (Z.to_nat ((ipa / 2 ^ 14) mod 2 ^ 11) =? Z.to_nat ((from / 2 ^ 14) mod 2 ^ 11))%nat
    && (Z.to_nat ((ipa / 2 ^ 2) mod 2 ^ 12) =? Z.to_nat ((from / 2 ^ 2) mod 2 ^ 12))%nat.
Proof.
  intros Hi Hf.
  destruct (Z.eqb_spec (ipa / 2 ^ 2) (from / 2 ^ 2)) as [E|E].
  - assert (E2 : ipa / 2 ^ 25 = from / 2 ^ 25) by zdm.
    assert (E3 : ipa / 2 ^ 14 = from / 2 ^ 14) by zdm.
    rewrite E, E2, E3, !Nat.eqb_refl. reflexivity.
  - symmetry. apply andb_false_iff.
    destruct (Nat.eqb_spec (Z.to_nat (ipa / 2 ^ 25)) (Z.to_nat (from / 2 ^ 25))) as [E2|E2];
      [|left; reflexivity].
    destruct (Nat.eqb_spec (Z.to_nat ((ipa / 2 ^ 14) mod 2 ^ 11))
                (Z.to_nat ((from / 2 ^ 14) mod 2 ^ 11))) as [E3|E3];
      [|left; reflexivity].
    right. apply Nat.eqb_neq. intros E4. apply E.
    assert (ipa / 2 ^ 25 = from / 2 ^ 25) by zdm.
    assert ((ipa / 2 ^ 14) mod 2 ^ 11 = (from / 2 ^ 14) mod 2 ^ 11) by zdm.
    assert ((ipa / 2 ^ 2) mod 2 ^ 12 = (from / 2 ^ 2) mod 2 ^ 12) by zdm.
    zdm.
Qed.

(** One word mapped through the sub-page level, where the page of [from]
    is unmapped: the walk of that word gives the entry, every other walk
    is as before. *)
Lemma map_l4_word_spec (s : pt_state) (from to incr : Z) :
  pt_inv s -> 0 <= from < 2 ^ 36 -> from mod 2 ^ 2 = 0 ->
  hv_pt_walk from s = Some 0 ->
  next_ptr s + 2 ^ 15 <= 2 ^ 50 ->
  IS_SW to = true ->
  exists s' : pt_state,
    hv_pt_map_l4 from to 4 incr s = Some (tt, s')
    /\ forall ipa, 0 <= ipa < 2 ^ 36 ->
         hv_pt_walk ipa s'
         = if ipa / 2 ^ 2 =? from / 2 ^ 2 then Some (Z.lor to 2) else hv_pt_walk ipa s.
Proof.
  intros Hinv Hfrom Hfa Hw Hroom Hsw.
  destruct (get_l4_spec s from Hinv Hfrom Hw Hroom) as
    (p3 & p4 & s1 & tb & Hg & Hinv1 & Hsame & Hi2 & Hp3 & Hp4 & Ht & Hok & He3 & Hb3 & Hb4).
  set (i2 := Z.to_nat (from / 2 ^ 25)) in *.
  set (i3 := Z.to_nat ((from / 2 ^ 14) mod 2 ^ 11)) in *.
  set (i4 := Z.to_nat ((from / 2 ^ 2) mod 2 ^ 12)).
  set (t3 := <[i3 := p4 + 2]> tb) in *.
  set (s2 := mk_pt (hv_L2 s1)
               (<[p4 := <[i4 := Z.lor to 2]> (replicate 4096 0)]>
                  (<[p3 := t3]> (<[p4 := replicate 4096 0]> (tables s1))))
               (p4 + 2 ^ 15)).
  pose proof Hok as (Hlen & Hent).
  exists s2. split.
  - unfold hv_pt_map_l4. change VADDR_L4_OFFSET_BITS with 2.
    change VADDR_L4_INDEX_BITS with 12.
    rewrite !land_low by lia. rewrite Hfa. change (4 mod 2 ^ 2) with 0.
    rewrite (IS_SW_not_HW to Hsw), Hsw.
    change (FIELD_PREP PTE_TYPE PTE_PAGE) with 2.
    change (Z.to_nat (Z.shiftr 4 2)) with 1%nat.
    unfold pt_assert. cbn [Z.eqb negb]. unfold pt_bind at 1 2 3.
    cbn [hv_pt_map_l4_loop]. change (4 =? 0) with false. cbv iota.
    change VADDR_L4_OFFSET_BITS with 2. change VADDR_L4_INDEX_BITS with 12.
    rewrite Z.shiftr_div_pow2, land_low by lia.
    unfold pt_bind at 1. rewrite Hg.
    unfold pt_bind at 1.
    rewrite (tbl_store_eq p4 _ _ (replicate 4096 0)).
    + change (u64 (4 - BIT 2) =? 0) with true. cbv iota.
      unfold pt_ret. unfold s2. cbn [tables hv_L2 brk set_tables].
      fold i4. reflexivity.
    + cbn [tables]. rewrite lookup_insert_ne by (destruct Hp3, Hp4; lia).
      apply lookup_insert_eq.
    + rewrite length_replicate. zdm.
  - intros ipa Hipa.
    rewrite (same_word ipa from) by lia. fold i2 i3 i4.
    set (j2 := Z.to_nat (ipa / 2 ^ 25)). set (j3 := Z.to_nat ((ipa / 2 ^ 14) mod 2 ^ 11)).
    set (j4 := Z.to_nat ((ipa / 2 ^ 2) mod 2 ^ 12)).
    assert (Hne34 : p3 <> p4) by lia.
    assert (T3 : tables s2 !! p3 = Some t3).
    { unfold s2. cbn [tables]. rewrite lookup_insert_ne by lia. apply lookup_insert_eq. }
    assert (T4 : tables s2 !! p4 = Some (<[i4 := Z.lor to 2]> (replicate 4096 0))).
    { unfold s2. cbn [tables]. apply lookup_insert_eq. }
    destruct (Nat.eqb_spec j2 i2) as [E2|E2]; cbn [andb].
    + destruct (Nat.eqb_spec j3 i3) as [E3|E3]; cbn [andb].
      * (* the page of [from] *)
        rewrite (walk_l4 s2 ipa p3 p4 t3 (<[i4 := Z.lor to 2]> (replicate 4096 0)));
          try assumption; try lia.
        -- fold j4. destruct (Nat.eqb_spec j4 i4) as [E4|E4].
           ++ rewrite E4. apply list_lookup_insert_eq. rewrite length_replicate.
              unfold i4. zdm.
           ++ rewrite list_lookup_insert_ne by congruence.
              rewrite <- (Hsame ipa Hipa).
              destruct (walk_table s1 ipa p3 tb 0) as (Hz & _); try assumption; try lia.
              ** fold j2. rewrite E2. exact Hi2.
              ** fold j3. rewrite E3. exact He3.
              ** rewrite Hz by reflexivity. apply lookup_replicate.
                 split; [reflexivity|]. unfold j4. zdm.
        -- fold j2. rewrite E2. exact Hi2.
        -- fold j3. rewrite E3. unfold t3. apply list_lookup_insert_eq.
           rewrite Hlen. unfold i3. zdm.
      * (* another page below the same L3 table *)
        rewrite <- (Hsame ipa Hipa).
        apply walk_ext; [exact Hinv1 | exact Hipa | reflexivity |].
        intros q tq Hq Hqo Hqt. fold j2 in Hq. rewrite E2, Hi2 in Hq.
        assert (q = p3) by (injection Hq; lia). subst q.
        rewrite Ht in Hqt. injection Hqt as <-.
        exists t3. split; [exact T3|]. fold j3. unfold t3.
        apply list_lookup_insert_ne. congruence.
    + (* another root entry *)
      rewrite <- (Hsame ipa Hipa).
      apply walk_ext; [exact Hinv1 | exact Hipa | reflexivity |].
      intros q tq Hq Hqo Hqt. fold j2 in Hq.
      assert (Hq3 : q <> p3).
      { intros ->. apply E2. apply (inv_inj s1 Hinv1 j2 i2 (p3 + 3) Hq Hi2).
        destruct Hp3. zdm. }
      assert (Hq4 : q <> p4).
      { destruct (inv_l2 s1 Hinv1 _ _ Hq) as [E|[(tg & Hb)|(q' & tq' & E & _ & Hqb & _)]].
        - destruct Hqo. lia.
        - apply hw_block_mod4 in Hb. destruct Hqo. zdm.
        - lia. }
      exists tq. split; [|reflexivity].
      unfold s2. cbn [tables]. rewrite !lookup_insert_ne by congruence. exact Hqt.
Qed.

(** [hv_map] of one word with a software entry comes down to one call of
    [hv_pt_map_l4], before or after the phases of the larger granules. *)
Lemma hv_map_word_spec (s : pt_state) (from to incr : Z) :
  pt_inv s -> 0 <= from < 2 ^ 36 -> from mod 2 ^ 2 = 0 ->
  hv_pt_walk from s = Some 0 ->
  next_ptr s + 2 ^ 15 <= 2 ^ 50 ->
  IS_SW to = true ->
  exists s' : pt_state,
    hv_map from to 4 incr s = Some (0, s')
    /\ forall ipa, 0 <= ipa < 2 ^ 36 ->
         hv_pt_walk ipa s'
         = if ipa / 2 ^ 2 =? from / 2 ^ 2 then Some (Z.lor to 2) else hv_pt_walk ipa s.
Proof.
  intros Hinv Hfrom Hfa Hw Hroom Hsw.
  destruct (map_l4_word_spec s from to incr Hinv Hfrom Hfa Hw Hroom Hsw) as (s' & Hm & Hwalk).
  exists s'. split; [|exact Hwalk].
  unfold hv_map. rewrite (IS_SW_not_HW to Hsw).
  change VADDR_L4_OFFSET_BITS with 2. change VADDR_L3_OFFSET_BITS with 14.
  change VADDR_L2_OFFSET_BITS with 25.
  rewrite !land_low by lia. rewrite Hfa. change (4 mod 2 ^ 2) with 0.
  change (nonzero 0) with false. cbn [orb andb negb]. cbv iota. cbv zeta.
  rewrite (ALIGN_UP_eq from 14) by lia.
  set (d := (from + 2 ^ 14 - 1) / 2 ^ 14 * 2 ^ 14 - from).
  assert (Hd : 0 <= d < 2 ^ 14 /\ d mod 2 ^ 2 = 0) by (unfold d; zdm).
  rewrite (u64_small d) by lia. rewrite (min_eq 4 d).
  destruct (Z.eq_dec d 0) as [Ed|Ed].
  - (* [from] is page-aligned: the word is mapped by the last phase *)
    rewrite Ed. change (Z.min 4 0) with 0. change (nonzero 0) with false. cbv iota.
    unfold pt_bind at 1. unfold pt_ret at 1.
    rewrite (ALIGN_UP_eq from 25) by lia.
    set (d2 := (from + 2 ^ 25 - 1) / 2 ^ 25 * 2 ^ 25 - from).
    assert (Hd2 : 0 <= d2 < 2 ^ 25) by (unfold d2; zdm).
    rewrite (u64_small d2) by lia. rewrite (min_eq 4 d2).
    rewrite (ALIGN_DOWN_eq (Z.min 4 d2) 14) by lia.
    replace (Z.min 4 d2 / 2 ^ 14 * 2 ^ 14) with 0 by zdm.
    change (nonzero 0) with false. cbv iota.
    unfold pt_bind at 1. unfold pt_ret at 1.
    change (ALIGN_DOWN 4 (MASK 25)) with 0. change (nonzero 0) with false.
    cbn [andb]. cbv iota.
    unfold pt_bind at 1. unfold pt_ret at 1.
    change (ALIGN_DOWN 4 (MASK 14)) with 0. change (nonzero 0) with false. cbv iota.
    unfold pt_bind at 1. unfold pt_ret at 1.
    change (nonzero 4) with true. cbv iota.
    unfold pt_assert. cbn [negb]. unfold pt_bind, pt_ret. rewrite Hm. reflexivity.
  - (* otherwise by the first one *)
    replace (Z.min 4 d) with 4 by zdm.
    change (nonzero 4) with true. cbv iota.
    unfold pt_assert. cbn [negb].
    unfold pt_bind at 1. unfold pt_bind at 1. unfold pt_ret at 1.
    unfold pt_bind at 1. rewrite Hm. unfold pt_ret at 1.
    change (u64 (4 - 4)) with 0.
    set (from' := u64 (from + 4)).
    assert (Hf' : 0 <= from' < 2 ^ 64) by (apply Z.mod_pos_bound; lia).
    set (x := u64 (ALIGN_UP from' (MASK 25) - from')).
    assert (Hx : 0 <= x < 2 ^ 64) by (apply Z.mod_pos_bound; lia).
    rewrite (min_eq 0 x), Z.min_l by lia.
    change (ALIGN_DOWN 0 (MASK 14)) with 0. change (nonzero 0) with false. cbv iota.
    unfold pt_bind at 1. unfold pt_ret at 1.
    change (ALIGN_DOWN 0 (MASK 25)) with 0. change (nonzero 0) with false.
    cbn [andb]. cbv iota.
    unfold pt_bind at 1. unfold pt_ret at 1.
    change (ALIGN_DOWN 0 (MASK 14)) with 0. change (nonzero 0) with false. cbv iota.
    unfold pt_bind, pt_ret. reflexivity.
Qed.

Lemma hook_entry (fn : Z) :
  fn mod 2 ^ 2 = 0 -> 0 <= fn < 2 ^ 50 ->
  let to := Z.lor fn (FIELD_PREP SPTE_TYPE SPTE_HOOK) in
  IS_SW to = true
  /\ IS_SW (Z.lor to 2) = true
  /\ FIELD_GET SPTE_TYPE (Z.lor to 2) = SPTE_HOOK
  /\ Z.land (Z.lor to 2) PTE_TARGET_MASK_L4 = fn
  /\ FIELD_GET PTE_TARGET_MASK_L4 (Z.lor to 2) = fn / 2 ^ 2.
Proof.
  intros Ha Hr. cbv zeta. change (FIELD_PREP SPTE_TYPE SPTE_HOOK) with (2 ^ 50).
  assert (E1 : Z.lor fn (2 ^ 50) = fn + 2 ^ 50).
  { apply lor_disjoint. change (2 ^ 50) with (1 * 2 ^ 50). apply land_lo_hi; lia. }
  assert (E2 : Z.lor (fn + 2 ^ 50) 2 = fn + 2 ^ 50 + 2).
  { apply lor_disjoint.
    change (Z.land (fn + 2 ^ 50) 2) with (Z.land (fn + 2 ^ 50) PTE_TYPE).
    rewrite land_TYPE. zdm. }
  rewrite E1, E2.
  assert (Hsw : forall x, 0 < x -> x mod 2 = 0 -> IS_SW x = true).
  { intros x Hx Hx2. unfold IS_SW, nonzero. rewrite land_VALID, Hx2.
    destruct (Z.eqb_spec x 0); [lia | reflexivity]. }
  split; [apply Hsw; [lia | zdm]|].
  split; [apply Hsw; [lia | zdm]|].
  split; [rewrite FIELD_GET_SPTE_TYPE; unfold SPTE_HOOK; zdm|].
  split.
  - change PTE_TARGET_MASK_L4 with (Z.shiftl (Z.ones 48) 2).
    rewrite land_field by lia. zdm.
  - rewrite FIELD_GET_TARGET_L4. zdm.
Qed.

Lemma init_state_inv (s0 : pt_state) :
  0 <= brk s0 <= 2 ^ 49 ->
  exists s : pt_state,
    hv_pt_init s0 = Some (tt, s)
    /\ pt_inv s
    /\ (forall ipa, 0 <= ipa < 2 ^ 36 -> hv_pt_walk ipa s = Some 0)
    /\ next_ptr s + 2 ^ 15 <= 2 ^ 50.
Proof.
  intros Hb. destruct (pt_inv_init s0) as (Hinv & Hz); [lia|].
  set (s := mk_pt (replicate 2048 0) (tables s0) (brk s0)) in *.
  exists s. split; [apply hv_pt_init_eq|]. split; [exact Hinv|]. split.
  - intros ipa Hipa. apply walk_zero. apply Hz. zdm.
  - rewrite next_ptr_eq by (unfold s; cbn [brk]; lia). unfold s. cbn [brk]. zdm.
Qed.

(** X21: Sub-page hooks: on a fresh table, [hv_map_hook] of one word installs,
    for that word alone, a software entry of kind HOOK whose target is the
    hook; every other IPA below 2^36, the other words of the same page
    among them, stays unmapped. *)
Theorem map_hook_word (s0 : pt_state) (from fn ipa : Z) :
  0 <= brk s0 <= 2 ^ 49 ->
  from mod 4 = 0 -> 0 <= from < 2 ^ 36 ->
  fn mod 4 = 0 -> 0 <= fn < 2 ^ 50 ->
  0 <= ipa < 2 ^ 36 ->
  exists (s1 : pt_state) (pte : Z),
    (hv_pt_init;; hv_map_hook from fn 4) s0 = Some (0, s1)
    /\ hv_pt_walk ipa s1 = Some pte
    /\ if ipa / 4 =? from / 4
       then IS_SW pte = true /\ FIELD_GET SPTE_TYPE pte = SPTE_HOOK
            /\ Z.land pte PTE_TARGET_MASK_L4 = fn
       else pte = 0.
Proof.
  intros Hb Hfa Hfrom Hna Hfn Hipa.
  destruct (init_state_inv s0 Hb) as (s & Hi & Hinv & Hz & Hroom).
  destruct (hook_entry fn Hna Hfn) as (Hsw & Hsw2 & Hty & Htg & _).
  destruct (hv_map_word_spec s from (Z.lor fn (FIELD_PREP SPTE_TYPE SPTE_HOOK)) 0
              Hinv Hfrom Hfa (Hz from Hfrom) Hroom Hsw) as (s1 & Hm & Hwalk).
  exists s1.
  exists (if ipa / 4 =? from / 4
          then Z.lor (Z.lor fn (FIELD_PREP SPTE_TYPE SPTE_HOOK)) 2 else 0).
  split; [unfold pt_bind; rewrite Hi; exact Hm|].
  rewrite (Hwalk ipa Hipa), (Hz ipa Hipa). change (2 ^ 2) with 4.
  destruct (ipa / 4 =? from / 4); auto.
Qed.

Lemma map_hook_word_witness :
  exists (s1 : pt_state) (pte : Z),
    (hv_pt_init;; hv_map_hook 0x500010 0x80000 4) (mk_pt [] ∅ 0x10000000) = Some (0, s1)
    /\ hv_pt_walk 0x500012 s1 = Some pte
    /\ if 0x500012 / 4 =? 0x500010 / 4
       then IS_SW pte = true /\ FIELD_GET SPTE_TYPE pte = SPTE_HOOK
            /\ Z.land pte PTE_TARGET_MASK_L4 = 0x80000
       else pte = 0.
Proof.
  apply (map_hook_word (mk_pt [] ∅ 0x10000000) 0x500010 0x80000 0x500012);
    try reflexivity; cbn [brk]; lia.
Defined.

(** X22: [hv_map_proxy_hook] of one word, on a fresh table, installs for every
    address and every identifier below 2^48 a software entry that holds
    the identifier in its TARGET field and whose kind is HOOK, the kind of
    the in-hypervisor hooks, for which the abort handler calls the TARGET
    as a function: here the address four times the identifier.  The kind
    is none of the proxy-hook kinds. *)
Theorem map_proxy_hook_kind (s0 : pt_state) (from id : Z) :
  0 <= brk s0 <= 2 ^ 49 ->
  from mod 4 = 0 -> 0 <= from < 2 ^ 36 ->
  0 <= id < 2 ^ 48 ->
  exists (s1 : pt_state) (pte : Z),
    (hv_pt_init;; hv_map_proxy_hook from id 4) s0 = Some (0, s1)
    /\ hv_pt_walk from s1 = Some pte
    /\ IS_SW pte = true
    /\ FIELD_GET PTE_TARGET_MASK_L4 pte = id
    /\ Z.land pte PTE_TARGET_MASK_L4 = 4 * id
    /\ FIELD_GET SPTE_TYPE pte = SPTE_HOOK
    /\ FIELD_GET SPTE_TYPE pte <> SPTE_PROXY_HOOK_R
    /\ FIELD_GET SPTE_TYPE pte <> SPTE_PROXY_HOOK_W
    /\ FIELD_GET SPTE_TYPE pte <> SPTE_PROXY_HOOK_RW.
Proof.
  intros Hb Hfa Hfrom Hid.
  destruct (init_state_inv s0 Hb) as (s & Hi & Hinv & Hz & Hroom).
  assert (Efn : FIELD_PREP PTE_TARGET_MASK_L4 id = 4 * id).
  { unfold FIELD_PREP. change (FIELD_LSB PTE_TARGET_MASK_L4) with 4.
    rewrite u64_small by lia. lia. }
  destruct (hook_entry (4 * id)) as (Hsw & Hsw2 & Hty & Htg & Hfg); [zdm | lia |].
  destruct (hv_map_word_spec s from (Z.lor (4 * id) (FIELD_PREP SPTE_TYPE SPTE_HOOK)) 0
              Hinv Hfrom Hfa (Hz from Hfrom) Hroom Hsw) as (s1 & Hm & Hwalk).
  exists s1, (Z.lor (Z.lor (4 * id) (FIELD_PREP SPTE_TYPE SPTE_HOOK)) 2).
  split; [unfold pt_bind, hv_map_proxy_hook; rewrite Hi, Efn; exact Hm|].
  split; [rewrite (Hwalk from Hfrom), Z.eqb_refl; reflexivity|].
  split; [exact Hsw2|]. split; [rewrite Hfg; zdm|]. split; [exact Htg|].
  rewrite Hty. repeat split; discriminate.
Qed.

Lemma map_proxy_hook_kind_witness :
  exists (s1 : pt_state) (pte : Z),
    (hv_pt_init;; hv_map_proxy_hook 0x400000 5 4) (mk_pt [] ∅ 0x10000000) = Some (0, s1)
    /\ hv_pt_walk 0x400000 s1 = Some pte
    /\ IS_SW pte = true
    /\ FIELD_GET PTE_TARGET_MASK_L4 pte = 5
    /\ Z.land pte PTE_TARGET_MASK_L4 = 4 * 5
    /\ FIELD_GET SPTE_TYPE pte = SPTE_HOOK
    /\ FIELD_GET SPTE_TYPE pte <> SPTE_PROXY_HOOK_R
    /\ FIELD_GET SPTE_TYPE pte <> SPTE_PROXY_HOOK_W
    /\ FIELD_GET SPTE_TYPE pte <> SPTE_PROXY_HOOK_RW.
Proof.
  apply (map_proxy_hook_kind (mk_pt [] ∅ 0x10000000) 0x400000 5);
    try reflexivity; cbn [brk]; lia.
Defined.

(** X23: A hook word beside a hardware mapping: after [hv_map_hw] of a range
    and [hv_map_hook] of one word outside it, on a fresh table, the range
    still walks to valid descriptors of its pages, the word walks to the
    hook entry, and every other IPA below 2^36 is unmapped. *)
Theorem hook_beside_hw_mapping (s0 : pt_state) (from to size hfrom fn ipa : Z) :
  0 <= brk s0 <= 2 ^ 49 ->
  from mod 2 ^ 14 = 0 -> to mod 2 ^ 14 = 0 -> size mod 2 ^ 14 = 0 ->
  0 <= from -> 0 <= size -> from + size <= 2 ^ 36 ->
  0 <= to -> to + size <= 2 ^ 50 ->
  hfrom mod 4 = 0 -> 0 <= hfrom < 2 ^ 36 -> ~ (from <= hfrom < from + size) ->
  fn mod 4 = 0 -> 0 <= fn < 2 ^ 50 ->
  0 <= ipa < 2 ^ 36 ->
  exists (s2 : pt_state) (pte : Z),
    (hv_pt_init;; hv_map_hw from to size;; hv_map_hook hfrom fn 4) s0 = Some (0, s2)
    /\ hv_pt_walk ipa s2 = Some pte
    /\ (from <= ipa < from + size ->
        Z.land pte PTE_VALID = 1
        /\ Z.land pte PTE_TARGET_MASK = to + (ipa - from) - ipa mod 2 ^ 14)
    /\ (ipa / 4 = hfrom / 4 ->
        IS_SW pte = true /\ FIELD_GET SPTE_TYPE pte = SPTE_HOOK
        /\ Z.land pte PTE_TARGET_MASK_L4 = fn)
    /\ (~ (from <= ipa < from + size) -> ipa / 4 <> hfrom / 4 -> pte = 0).
Proof.
  intros Hb Hfa Hta Hsa Hf0 Hs0 Hfb Ht0 Htb Hha Hhf Hout Hna Hfn Hipa.
  destruct (init_map_hw s0 from to size) as (s1 & Hmap & Hinv1 & Hin1 & Hout1 & Hn1);
    try assumption.
  destruct (hook_entry fn Hna Hfn) as (Hsw & Hsw2 & Hty & Htg & _).
  destruct (hv_map_word_spec s1 hfrom (Z.lor fn (FIELD_PREP SPTE_TYPE SPTE_HOOK)) 0
              Hinv1 Hhf Hha (Hout1 hfrom Hhf Hout) ltac:(lia) Hsw) as (s2 & Hm & Hwalk).
  assert (Hrun : (hv_pt_init;; hv_map_hw from to size;; hv_map_hook hfrom fn 4) s0
                 = Some (0, s2)).
  { unfold pt_bind in Hmap |- *. destruct (hv_pt_init s0) as [[u s]|]; [|discriminate].
    rewrite Hmap. exact Hm. }
  assert (Hpage : from <= ipa < from + size -> ipa / 2 ^ 2 <> hfrom / 2 ^ 2) by zdm.
  change (2 ^ 2) with 4 in *.
  destruct (Z.eqb_spec (ipa / 4) (hfrom / 4)) as [Ew|Ew].
  - exists s2, (Z.lor (Z.lor fn (FIELD_PREP SPTE_TYPE SPTE_HOOK)) 2).
    split; [exact Hrun|]. rewrite (Hwalk ipa Hipa).
    change (2 ^ 2) with 4. rewrite Ew, Z.eqb_refl.
    split; [reflexivity|]. split; [intros Hr; now apply Hpage in Hr|].
    split; [auto|]. intros _ Hc. contradiction.
  - destruct (Z_lt_dec ipa from) as [Hlo|Hlo];
      [|destruct (Z_lt_dec ipa (from + size)) as [Hhi|Hhi]].
    2: { destruct (Hin1 ipa ltac:(lia)) as (pte & Hp & Hv & Htgt).
         exists s2, pte. split; [exact Hrun|]. rewrite (Hwalk ipa Hipa).
         change (2 ^ 2) with 4.
         destruct (Z.eqb_spec (ipa / 4) (hfrom / 4)); [contradiction|].
         split; [exact Hp|]. split; [|split; [contradiction | lia]].
         intros _. split; [exact Hv|]. rewrite Htgt. zdm. }
    all: exists s2, 0; split; [exact Hrun|]; rewrite (Hwalk ipa Hipa);
      change (2 ^ 2) with 4;
      destruct (Z.eqb_spec (ipa / 4) (hfrom / 4)); [contradiction|];
      (split; [apply Hout1; lia|]); (split; [lia|]);
      (split; [contradiction | reflexivity]).
Qed.

Lemma hook_beside_hw_mapping_witness :
  exists (s2 : pt_state) (pte : Z),
    (hv_pt_init;; hv_map_hw 0x100000 0x100000 0x8000;; hv_map_hook 0x500010 0x80000 4)
      (mk_pt [] ∅ 0x10000000) = Some (0, s2)
    /\ hv_pt_walk 0x104010 s2 = Some pte
    /\ (0x100000 <= 0x104010 < 0x100000 + 0x8000 ->
        Z.land pte PTE_VALID = 1
        /\ Z.land pte PTE_TARGET_MASK
           = 0x100000 + (0x104010 - 0x100000) - 0x104010 mod 2 ^ 14)
    /\ (0x104010 / 4 = 0x500010 / 4 ->
        IS_SW pte = true /\ FIELD_GET SPTE_TYPE pte = SPTE_HOOK
        /\ Z.land pte PTE_TARGET_MASK_L4 = 0x80000)
    /\ (~ (0x100000 <= 0x104010 < 0x100000 + 0x8000) ->
        0x104010 / 4 <> 0x500010 / 4 -> pte = 0).
Proof.
  apply (hook_beside_hw_mapping (mk_pt [] ∅ 0x10000000) 0x100000 0x100000 0x8000
           0x500010 0x80000 0x104010);
    try reflexivity; cbn [brk]; lia.
Defined.


(** ** Splitting a block *)

Lemma length_fill_table (n : nat) (d incr : Z) : length (fill_table n d incr) = n.
Proof. revert d. induction n as [|n IH]; intros d; simpl; [reflexivity|]. now rewrite IH. Qed.

Lemma lookup_fill_table (n : nat) :
  forall (d incr : Z) (j : nat),
    (j < n)%nat -> 0 <= d -> 0 <= incr -> d + Z.of_nat n * incr < 2 ^ 64 ->
    fill_table n d incr !! j = Some (d + Z.of_nat j * incr).
Proof.
  induction n as [|n IH]; intros d incr j Hj Hd Hi Hb; [lia|].
  destruct j as [|j]; simpl fill_table.
  - simpl. f_equal. lia.
  - change ((d :: fill_table n (u64 (d + incr)) incr) !! S j)
      with (fill_table n (u64 (d + incr)) incr !! j).
    rewrite u64_small by nia. rewrite IH by nia. f_equal. lia.
Qed.

Lemma pt_inv_new_table (s : pt_state) (i : nat) (e : Z) (tb : list Z) :
  pt_inv s -> hv_L2 s !! i = Some e -> next_ptr s + 2 ^ 14 <= 2 ^ 50 ->
  l3_ok tb ->
  let P := next_ptr s in
  ptr_ok P /\ brk s <= P
  /\ pt_inv (mk_pt (<[i := P + 3]> (hv_L2 s)) (<[P := tb]> (tables s)) (P + 2 ^ 14)).
Proof.
  intros Hinv He Hroom Hok P.
  pose proof (inv_len s Hinv) as Hlen. pose proof (inv_brk s Hinv) as Hbrk.
  assert (Hi : (i < length (hv_L2 s))%nat) by (now apply lookup_lt_Some in He).
  assert (HP : ptr_ok P).
  { unfold P, ptr_ok. rewrite next_ptr_eq by lia. rewrite next_ptr_eq in Hroom by lia. zdm. }
  assert (HPb : brk s <= P) by (unfold P; rewrite next_ptr_eq by lia; zdm).
  split; [exact HP|]. split; [exact HPb|].
  split; cbn [hv_L2 tables brk].
  - now rewrite length_insert.
  - destruct HP. lia.
  - intros k e' Hk. destruct (decide (i = k)) as [<-|Hne].
    + rewrite list_lookup_insert_eq in Hk by exact Hi. injection Hk as <-.
      right. right. exists P, tb.
      cbn [tables brk]. rewrite lookup_insert_eq.
      split; [reflexivity|]. split; [exact HP|]. split; [lia|].
      split; [reflexivity | exact Hok].
    + rewrite list_lookup_insert_ne in Hk by exact Hne.
      eapply l2_entry_ok_mono; [exact (inv_l2 s Hinv _ _ Hk) | cbn [brk]; lia |].
      intros q tq Hq Hqb. cbn [tables]. rewrite lookup_insert_ne; [exact Hq | lia].
  - intros k1 k2 e' Hk1 Hk2 Hmod.
    assert (Hfresh : forall k, hv_L2 s !! k = Some (P + 3) -> False).
    { intros k Hk.
      destruct (inv_l2 s Hinv _ _ Hk) as [E|[(tg & Hb)|(q & tq & E & Hq & Hqb & _)]].
      - destruct HP. lia.
      - apply hw_block_mod4 in Hb. destruct HP. zdm.
      - lia. }
    destruct (decide (i = k1)) as [<-|Hn1]; destruct (decide (i = k2)) as [<-|Hn2];
      try reflexivity.
    + rewrite list_lookup_insert_eq in Hk1 by exact Hi. injection Hk1 as <-.
      rewrite list_lookup_insert_ne in Hk2 by exact Hn2. now apply Hfresh in Hk2.
    + rewrite list_lookup_insert_eq in Hk2 by exact Hi. injection Hk2 as <-.
      rewrite list_lookup_insert_ne in Hk1 by exact Hn1. now apply Hfresh in Hk1.
    + rewrite list_lookup_insert_ne in Hk1, Hk2 by assumption.
      eapply (inv_inj s Hinv); eauto.
Qed.

Lemma walks_to_fun (s : pt_state) (ipa t t' : Z) :
  walks_to s ipa t -> walks_to s ipa t' -> t = t'.
Proof.
  intros (pte & Hp & _ & <-) (pte' & Hp' & _ & <-). congruence.
Qed.

(** [hv_pt_get_l3] on a root entry that is a hardware block: the block is
    replaced by a table of 2048 pages with the same targets. *)
Lemma get_l3_split_spec (s : pt_state) (from e t : Z) :
  pt_inv s -> 0 <= from < 2 ^ 36 ->
  hv_L2 s !! Z.to_nat (from / 2 ^ 25) = Some e -> hw_block e t ->
  next_ptr s + 2 ^ 14 <= 2 ^ 50 ->
  exists (p : Z) (s1 : pt_state) (tb : list Z),
    hv_pt_get_l3 from s = Some (p, s1)
    /\ pt_inv s1
    /\ hv_L2 s1 !! Z.to_nat (from / 2 ^ 25) = Some (p + 3)
    /\ ptr_ok p
    /\ tables s1 !! p = Some tb /\ l3_ok tb
    /\ (forall ipa, 0 <= ipa < 2 ^ 36 ->
          (hv_pt_walk ipa s = Some 0 -> hv_pt_walk ipa s1 = Some 0)
          /\ (forall tg, walks_to s ipa tg -> walks_to s1 ipa tg))
    /\ next_ptr s1 <= next_ptr s + 2 ^ 14.
Proof.
  intros Hinv Hfrom He Hblk Hroom.
  pose proof (inv_len s Hinv) as Hlen. pose proof (inv_brk s Hinv) as Hbrk.
  set (i := Z.to_nat (from / 2 ^ 25)) in *.
  set (tb := fill_table 2048 (t + 0x7FF) (2 ^ 14)).
  assert (Ht : t mod 2 ^ 25 = 0 /\ 0 <= t < 2 ^ 50) by (destruct Hblk; tauto).
  assert (Hent : forall j : nat, (j < 2048)%nat ->
                   tb !! j = Some (t + Z.of_nat j * 2 ^ 14 + 0x7FF)).
  { intros j Hj. unfold tb. rewrite lookup_fill_table by (try lia; zdm). f_equal. lia. }
  assert (Hok : l3_ok tb).
  { split; [apply length_fill_table|]. intros j e' Hj.
    assert (Hj' : (j < 2048)%nat)
      by (apply lookup_lt_Some in Hj; unfold tb in Hj; now rewrite length_fill_table in Hj).
    rewrite Hent in Hj by exact Hj'. injection Hj as <-.
    right. exists (t + Z.of_nat j * 2 ^ 14). split; [reflexivity|]. zdm. }
  destruct (pt_inv_new_table s i e tb Hinv He Hroom Hok) as (HP & HPb & Hinv1).
  set (P := next_ptr s) in *.
  set (s1 := mk_pt (<[i := P + 3]> (hv_L2 s)) (<[P := tb]> (tables s)) (P + 2 ^ 14)) in *.
  assert (Hi : (i < length (hv_L2 s))%nat) by (now apply lookup_lt_Some in He).
  exists P, s1, tb.
  split.
  { unfold hv_pt_get_l3. change VADDR_L2_OFFSET_BITS with 25.
    rewrite Z.shiftr_div_pow2 by lia. unfold pt_bind at 1.
    rewrite (L2_load_eq _ e) by (fold i; (zdm || exact He)).
    rewrite (hw_block_not_table e t Hblk).
    unfold pt_bind at 1. rewrite memalign_page. fold P.
    assert (Enz : nonzero e = true).
    { unfold nonzero. destruct Hblk as (-> & _). destruct (Z.eqb_spec (t + 2045) 0); [lia|reflexivity]. }
    assert (Ehw : IS_HW e = true).
    { destruct Hblk as (-> & Ha & Hr). apply hw_entry_is_hw; [zdm | lia]. }
    rewrite Enz, Ehw. cbv iota. cbv zeta.
    assert (El3d : Z.lor (andn e PTE_TYPE) (FIELD_PREP PTE_TYPE PTE_PAGE) = t + 0x7FF).
    { destruct Hblk as (-> & Ha & Hr). change (FIELD_PREP PTE_TYPE PTE_PAGE) with 2.
      change PTE_TYPE with (Z.shiftl (Z.ones 1) 1). rewrite andn_field by lia.
      replace ((t + 2045) / 2 ^ 1 mod 2 ^ 1 * 2 ^ 1) with 0 by zdm.
      rewrite Z.sub_0_r. rewrite lor_disjoint; [lia|].
      change (Z.land (t + 2045) 2) with (Z.land (t + 2045) PTE_TYPE).
      rewrite land_TYPE. zdm. }
    rewrite El3d. change (BIT VADDR_L3_OFFSET_BITS) with (2 ^ 14).
    change (Z.to_nat ENTRIES_PER_L3_TABLE) with 2048%nat. fold tb.
    change (ENTRIES_PER_L3_TABLE * 8) with (2 ^ 14).
    unfold pt_bind at 1. unfold tbl_init at 1. cbn [tables hv_L2 brk set_tables].
    unfold pt_bind at 1. rewrite L2_store_eq
      by (cbn [hv_L2 set_tables]; rewrite Hlen; zdm).
    rewrite (tbl_entry_make P HP). unfold pt_ret. fold i. reflexivity. }
  split; [exact Hinv1|].
  split; [unfold s1; cbn [hv_L2]; now apply list_lookup_insert_eq|].
  split; [exact HP|].
  split; [unfold s1; cbn [tables]; apply lookup_insert_eq|].
  split; [exact Hok|].
  split.
  - intros ipa Hipa.
    destruct (decide (Z.to_nat (ipa / 2 ^ 25) = i)) as [Ei|Ei].
    + (* inside the block *)
      pose proof (walk_block s ipa e t ltac:(rewrite Ei; exact He) Hblk) as Hwb.
      set (j := Z.to_nat ((ipa / 2 ^ 14) mod 2 ^ 11)).
      assert (Hj : (j < 2048)%nat) by (unfold j; zdm).
      destruct (walk_table s1 ipa P tb (t + Z.of_nat j * 2 ^ 14 + 0x7FF)) as (_ & Hpg);
        try assumption; try lia.
      * unfold s1; cbn [hv_L2]. rewrite Ei. now apply list_lookup_insert_eq.
      * unfold s1; cbn [tables]. apply lookup_insert_eq.
      * fold j. now apply Hent.
      * assert (Hnew : walks_to s1 ipa (t + (ipa / 2 ^ 14) mod 2 ^ 11 * 2 ^ 14)).
        { replace ((ipa / 2 ^ 14) mod 2 ^ 11) with (Z.of_nat j) by (unfold j; zdm).
          apply Hpg. split; [reflexivity|]. zdm. }
        split.
        -- intros Hz. destruct Hwb as (pte & Hp & Hv & _). rewrite Hz in Hp.
           injection Hp as <-. discriminate Hv.
        -- intros tg Htg. now rewrite <- (walks_to_fun s ipa _ _ Hwb Htg).
    + assert (Eq : hv_pt_walk ipa s1 = hv_pt_walk ipa s).
      { apply walk_ext; [exact Hinv | exact Hipa | |].
        - unfold s1; cbn [hv_L2]. apply list_lookup_insert_ne. congruence.
        - intros q tq Hq Hqo Hqt. exists tq. split; [|reflexivity].
          unfold s1; cbn [tables]. rewrite lookup_insert_ne; [exact Hqt|].
          destruct (inv_l2 s Hinv _ _ Hq) as [E|[(tg & Hb)|(q' & tq' & E & _ & Hqb & _)]].
          + destruct Hqo. lia.
          + apply hw_block_mod4 in Hb. destruct Hqo. zdm.
          + lia. }
      split.
      * intros Hz. now rewrite Eq.
      * intros tg (pte & Hp & Hg). exists pte. split; [now rewrite Eq | exact Hg].
  - unfold next_ptr at 1. unfold s1; cbn [brk]. change (PAGE_SIZE - 1) with (MASK 14).
    destruct HP. rewrite ALIGN_UP_eq by lia. fold P. zdm.
Qed.

(** [hv_pt_get_l3] whatever the root entry holds: the translation of
    every address is kept. *)
Lemma get_l3_any_spec (s : pt_state) (from : Z) :
  pt_inv s -> 0 <= from < 2 ^ 36 -> next_ptr s + 2 ^ 14 <= 2 ^ 50 ->
  exists (p : Z) (s1 : pt_state) (tb : list Z),
    hv_pt_get_l3 from s = Some (p, s1)
    /\ pt_inv s1
    /\ hv_L2 s1 !! Z.to_nat (from / 2 ^ 25) = Some (p + 3)
    /\ ptr_ok p
    /\ tables s1 !! p = Some tb /\ l3_ok tb
    /\ (forall ipa, 0 <= ipa < 2 ^ 36 ->
          (hv_pt_walk ipa s = Some 0 -> hv_pt_walk ipa s1 = Some 0)
          /\ (forall tg, walks_to s ipa tg -> walks_to s1 ipa tg))
    /\ next_ptr s1 <= next_ptr s + 2 ^ 14.
Proof.
  intros Hinv Hfrom Hroom.
  assert (Hi : (Z.to_nat (from / 2 ^ 25) < length (hv_L2 s))%nat)
    by (rewrite (inv_len s Hinv); zdm).
  destruct (lookup_lt_is_Some_2 _ _ Hi) as (e & He).
  destruct (inv_l2 s Hinv _ _ He) as [E|[(tg & Hb)|(q & tq & E & Hq & _)]].
  2: { apply (get_l3_split_spec s from e tg); assumption. }
  all: destruct (get_l3_spec s from Hinv Hfrom) as
      (p & s1 & tb & Hg & Hinv1 & HL2 & Hp & Ht & Hok & Hsame & Hn); [|exact Hroom|];
    [intros e' tg' He' Hb'; rewrite He in He'; injection He' as <-;
     apply hw_block_mod4 in Hb'; subst e; (discriminate Hb' || (destruct Hq; zdm))|];
    exists p, s1, tb;
    (split; [exact Hg|]); (split; [exact Hinv1|]);
    (split; [rewrite HL2; now apply list_lookup_insert_eq|]);
    (split; [exact Hp|]); (split; [exact Ht|]); (split; [exact Hok|]);
    (split; [|exact Hn]);
    intros ipa Hipa; (split; [intros Hz; now rewrite Hsame|]);
    intros tg' (pte & Hpte & Hgood); exists pte; (split; [now rewrite Hsame | exact Hgood]).
Qed.

Lemma l3_store_zero_spec (s : pt_state) (from p : Z) (tb : list Z) :
  pt_inv s -> 0 <= from < 2 ^ 36 ->
  hv_L2 s !! Z.to_nat (from / 2 ^ 25) = Some (p + 3) -> ptr_ok p ->
  tables s !! p = Some tb -> l3_ok tb ->
  let s2 := set_tables s
              (<[p := <[Z.to_nat ((from / 2 ^ 14) mod 2 ^ 11) := 0]> tb]> (tables s)) in
  pt_inv s2
  /\ (forall ipa, 0 <= ipa < 2 ^ 36 -> ipa / 2 ^ 14 = from / 2 ^ 14 ->
                  hv_pt_walk ipa s2 = Some 0)
  /\ (forall ipa, 0 <= ipa < 2 ^ 36 -> ipa / 2 ^ 14 <> from / 2 ^ 14 ->
                  hv_pt_walk ipa s2 = hv_pt_walk ipa s).
Proof.
  intros Hinv Hfrom HL2 Hp Htb Hok s2.
  set (j := Z.to_nat ((from / 2 ^ 14) mod 2 ^ 11)) in *.
  assert (Hj : (j < length tb)%nat) by (destruct Hok as (-> & _); unfold j; zdm).
  assert (Hok2 : l3_ok (<[j := 0]> tb)).
  { destruct Hok as (Hlen & Hent). split; [now rewrite length_insert|].
    intros k e' Hk. destruct (decide (j = k)) as [<-|Hne].
    - rewrite list_lookup_insert_eq in Hk by exact Hj. injection Hk as <-. now left.
    - rewrite list_lookup_insert_ne in Hk by exact Hne. eauto. }
  assert (Hinv2 : pt_inv s2).
  { split; unfold s2; cbn [hv_L2 tables brk set_tables].
    - apply (inv_len s Hinv).
    - apply (inv_brk s Hinv).
    - intros k e' Hk.
      destruct (inv_l2 s Hinv _ _ Hk) as [->|[Hb|(q & tq & -> & Hq & Hqb & Hqt & Hqok)]].
      + now left.
      + right. now left.
      + right. right. destruct (decide (q = p)) as [->|Hne].
        * exists p, (<[j := 0]> tb). cbn [tables brk set_tables]. rewrite lookup_insert_eq.
          split; [reflexivity|]. split; [exact Hp|]. split; [exact Hqb|].
          split; [reflexivity | exact Hok2].
        * exists q, tq. cbn [tables brk set_tables]. rewrite lookup_insert_ne by congruence.
          split; [reflexivity|]. split; [exact Hq|]. split; [exact Hqb|].
          split; [exact Hqt | exact Hqok].
    - apply (inv_inj s Hinv). }
  split; [exact Hinv2|]. split.
  - intros ipa Hipa Hpage.
    assert (E25 : ipa / 2 ^ 25 = from / 2 ^ 25) by zdm.
    apply (walk_table s2 ipa p (<[j := 0]> tb) 0); try tauto; try lia.
    + unfold s2. cbn [hv_L2 set_tables]. now rewrite E25.
    + unfold s2. cbn [tables set_tables]. apply lookup_insert_eq.
    + rewrite Hpage. fold j. now apply list_lookup_insert_eq.
  - intros ipa Hipa Hpage. apply walk_ext; [exact Hinv | exact Hipa | reflexivity |].
    intros q tq Hq Hqo Hqt. unfold s2. cbn [tables set_tables].
    destruct (decide (q = p)) as [->|Hne].
    + rewrite lookup_insert_eq. eexists. split; [reflexivity|].
      assert (tq = tb) by congruence. subst tq.
      apply list_lookup_insert_ne. fold j.
      assert (Ei : Z.to_nat (ipa / 2 ^ 25) = Z.to_nat (from / 2 ^ 25)).
      { eapply (inv_inj s Hinv); eauto. destruct Hp. zdm. }
      unfold j. intros Ej. apply Hpage.
      assert (ipa / 2 ^ 25 = from / 2 ^ 25) by zdm.
      assert ((from / 2 ^ 14) mod 2 ^ 11 = (ipa / 2 ^ 14) mod 2 ^ 11) by zdm.
      zdm.
    + rewrite lookup_insert_ne by congruence. exists tq. split; [exact Hqt | reflexivity].
Qed.

(** [hv_pt_map_l3] of one page with an empty entry. *)
Lemma map_l3_zero_page_spec (s : pt_state) (p : Z) :
  pt_inv s -> p mod 2 ^ 14 = 0 -> 0 <= p < 2 ^ 36 ->
  next_ptr s + 2 ^ 14 <= 2 ^ 50 ->
  exists s' : pt_state,
    hv_pt_map_l3 p 0 (2 ^ 14) 0 s = Some (tt, s')
    /\ pt_inv s'
    /\ forall ipa, 0 <= ipa < 2 ^ 36 ->
         (ipa / 2 ^ 14 = p / 2 ^ 14 -> hv_pt_walk ipa s' = Some 0)
         /\ (ipa / 2 ^ 14 <> p / 2 ^ 14 ->
             (hv_pt_walk ipa s = Some 0 -> hv_pt_walk ipa s' = Some 0)
             /\ (forall tg, walks_to s ipa tg -> walks_to s' ipa tg)).
Proof.
  intros Hinv Hpa Hp Hroom.
  destruct (get_l3_any_spec s p Hinv Hp Hroom) as
    (q & s1 & tb & Hg & Hinv1 & HL2 & Hq & Ht & Hok & Hpres & _).
  destruct (l3_store_zero_spec s1 p q tb Hinv1 Hp HL2 Hq Ht Hok) as (Hinv2 & Hin & Hout).
  set (j := Z.to_nat ((p / 2 ^ 14) mod 2 ^ 11)) in *.
  set (s2 := set_tables s1 _) in *.
  pose proof Hok as (Hlen & Hent).
  assert (Hj : (j < length tb)%nat) by (rewrite Hlen; unfold j; zdm).
  destruct (lookup_lt_is_Some_2 _ _ Hj) as (e3 & He3).
  assert (Hnt : L3_IS_TABLE e3 = false).
  { destruct (Hent _ _ He3) as [->|(tg & Hpg)];
      [reflexivity | now apply (hw_page_not_table e3 tg)]. }
  exists s2. split; [|split; [exact Hinv2|]].
  - unfold hv_pt_map_l3. change VADDR_L3_OFFSET_BITS with 14.
    rewrite !land_low by lia. rewrite Hpa.
    change (Z.land 0 PTE_TARGET_MASK mod 2 ^ 14 =? 0) with true.
    change (2 ^ 14 mod 2 ^ 14 =? 0) with true. change (0 =? 0) with true.
    rewrite orb_true_r. change (IS_HW 0) with false. cbv iota.
    change (Z.lor 0 (FIELD_PREP PTE_TYPE PTE_BLOCK)) with 0.
    change (Z.to_nat (Z.shiftr (2 ^ 14) 14)) with 1%nat.
    unfold pt_assert. unfold pt_bind at 1 2 3.
    cbn [hv_pt_map_l3_loop]. change (2 ^ 14 =? 0) with false. cbv iota.
    change VADDR_L3_OFFSET_BITS with 14. change VADDR_L3_INDEX_BITS with 11.
    rewrite Z.shiftr_div_pow2, land_low by lia.
    unfold pt_bind at 1. rewrite Hg.
    unfold pt_bind at 1. rewrite (tbl_load_eq q _ e3 tb) by (zdm || assumption).
    rewrite Hnt. unfold pt_bind at 1. unfold pt_ret at 1.
    unfold pt_bind at 1. rewrite (tbl_store_eq q _ _ tb) by (try assumption; rewrite Hlen; zdm).
    change (u64 (2 ^ 14 - BIT 14) =? 0) with true. cbv iota. reflexivity.
  - intros ipa Hipa. split.
    + intros Hpage. now apply Hin.
    + intros Hpage. destruct (Hpres ipa Hipa) as (Hz & Hw). split.
      * intros H0. rewrite Hout by assumption. now apply Hz.
      * intros tg Htg. destruct (Hw tg Htg) as (pte & Hpte & Hgood).
        exists pte. split; [now rewrite Hout | exact Hgood].
Qed.

(** [hv_unmap] of one page. *)
Lemma unmap_page_spec (s : pt_state) (p : Z) :
  pt_inv s -> p mod 2 ^ 14 = 0 -> 0 <= p < 2 ^ 36 ->
  next_ptr s + 2 ^ 14 <= 2 ^ 50 ->
  exists s' : pt_state,
    hv_unmap p (2 ^ 14) s = Some (0, s')
    /\ pt_inv s'
    /\ forall ipa, 0 <= ipa < 2 ^ 36 ->
         (ipa / 2 ^ 14 = p / 2 ^ 14 -> hv_pt_walk ipa s' = Some 0)
         /\ (ipa / 2 ^ 14 <> p / 2 ^ 14 ->
             (hv_pt_walk ipa s = Some 0 -> hv_pt_walk ipa s' = Some 0)
             /\ (forall tg, walks_to s ipa tg -> walks_to s' ipa tg)).
Proof.
  intros Hinv Hpa Hp Hroom.
  destruct (map_l3_zero_page_spec s p Hinv Hpa Hp Hroom) as (s' & Hm & Hinv' & Hwalk).
  exists s'. split; [|split; [exact Hinv' | exact Hwalk]].
  unfold hv_unmap, hv_map. change (IS_HW 0) with false.
  change VADDR_L4_OFFSET_BITS with 2. change VADDR_L3_OFFSET_BITS with 14.
  change VADDR_L2_OFFSET_BITS with 25.
  rewrite !land_low by lia.
  replace (p mod 2 ^ 2) with 0 by zdm. change (2 ^ 14 mod 2 ^ 2) with 0.
  change (nonzero 0) with false. cbn [orb andb negb]. cbv iota. cbv zeta.
  rewrite (ALIGN_UP_eq p 14) by lia.
  replace ((p + 2 ^ 14 - 1) / 2 ^ 14 * 2 ^ 14 - p) with 0 by zdm.
  change (u64 0) with 0. change (min (2 ^ 14) 0) with 0.
  change (nonzero 0) with false. cbv iota.
  unfold pt_bind at 1. unfold pt_ret at 1.
  rewrite (ALIGN_UP_eq p 25) by lia.
  set (d2 := (p + 2 ^ 25 - 1) / 2 ^ 25 * 2 ^ 25 - p).
  assert (Hd2 : 0 <= d2 < 2 ^ 25 /\ d2 mod 2 ^ 14 = 0) by (unfold d2; zdm).
  rewrite (u64_small d2) by lia. rewrite (min_eq (2 ^ 14) d2).
  rewrite (ALIGN_DOWN_eq (Z.min (2 ^ 14) d2) 14) by lia.
  destruct (Z.eq_dec d2 0) as [Ed|Ed].
  - rewrite Ed. change (Z.min (2 ^ 14) 0 / 2 ^ 14 * 2 ^ 14) with 0.
    change (nonzero 0) with false. cbv iota.
    unfold pt_bind at 1. unfold pt_ret at 1.
    change (ALIGN_DOWN (2 ^ 14) (MASK 25)) with 0. change (nonzero 0) with false.
    cbn [andb]. cbv iota.
    unfold pt_bind at 1. unfold pt_ret at 1.
    change (ALIGN_DOWN (2 ^ 14) (MASK 14)) with (2 ^ 14).
    change (nonzero (2 ^ 14)) with true. cbv iota.
    unfold pt_bind at 1. unfold pt_bind at 1. rewrite Hm. unfold pt_ret at 1.
    change (u64 (2 ^ 14 - 2 ^ 14)) with 0. change (nonzero 0) with false. cbv iota.
    unfold pt_bind, pt_ret. reflexivity.
  - replace (Z.min (2 ^ 14) d2 / 2 ^ 14 * 2 ^ 14) with (2 ^ 14) by zdm.
    change (nonzero (2 ^ 14)) with true. cbv iota.
    unfold pt_bind at 1. unfold pt_bind at 1. rewrite Hm. unfold pt_ret at 1.
    change (u64 (2 ^ 14 - 2 ^ 14)) with 0.
    change (ALIGN_DOWN 0 (MASK 25)) with 0. change (nonzero 0) with false.
    cbn [andb]. cbv iota.
    unfold pt_bind at 1. unfold pt_ret at 1.
    change (ALIGN_DOWN 0 (MASK 14)) with 0. change (nonzero 0) with false. cbv iota.
    unfold pt_bind, pt_ret. reflexivity.
Qed.

(** X24: Unmapping one page of a hardware mapping: after [hv_map_hw] of a range
    on a fresh table and [hv_unmap] of one of its pages, that page is
    unmapped, every other address of the range still walks to a valid
    descriptor of the same target, also where the page was part of a
    32 MiB block, which is split, and the addresses outside the range stay
    unmapped. *)
Theorem unmap_page_of_hw_mapping (s0 : pt_state) (from to size p ipa : Z) :
  0 <= brk s0 <= 2 ^ 49 ->
  from mod 2 ^ 14 = 0 -> to mod 2 ^ 14 = 0 -> size mod 2 ^ 14 = 0 ->
  0 <= from -> 0 <= size -> from + size <= 2 ^ 36 ->
  0 <= to -> to + size <= 2 ^ 50 ->
  p mod 2 ^ 14 = 0 -> from <= p < from + size ->
  0 <= ipa < 2 ^ 36 ->
  exists (s2 : pt_state) (pte : Z),
    (hv_pt_init;; hv_map_hw from to size;; hv_unmap p (2 ^ 14)) s0 = Some (0, s2)
    /\ hv_pt_walk ipa s2 = Some pte
    /\ (p <= ipa < p + 2 ^ 14 -> pte = 0)
    /\ (from <= ipa < from + size -> ~ (p <= ipa < p + 2 ^ 14) ->
        Z.land pte PTE_VALID = 1
        /\ Z.land pte PTE_TARGET_MASK = to + (ipa - from) - ipa mod 2 ^ 14)
    /\ (~ (from <= ipa < from + size) -> pte = 0).
Proof.
  intros Hb Hfa Hta Hsa Hf0 Hs0 Hfb Ht0 Htb Hpa Hp Hipa.
  destruct (init_map_hw s0 from to size) as (s1 & Hmap & Hinv1 & Hin1 & Hout1 & Hn1);
    try assumption.
  destruct (unmap_page_spec s1 p Hinv1 Hpa ltac:(lia) ltac:(lia)) as (s2 & Hu & _ & Hwalk).
  assert (Hrun : (hv_pt_init;; hv_map_hw from to size;; hv_unmap p (2 ^ 14)) s0
                 = Some (0, s2)).
  { unfold pt_bind in Hmap |- *. destruct (hv_pt_init s0) as [[u s]|]; [|discriminate].
    rewrite Hmap. exact Hu. }
  destruct (Hwalk ipa Hipa) as (Hsame & Hother).
  destruct (Z.eq_dec (ipa / 2 ^ 14) (p / 2 ^ 14)) as [Epg|Epg].
  - exists s2, 0. split; [exact Hrun|]. split; [now apply Hsame|].
    split; [reflexivity|]. split; [intros _ Hc; exfalso; apply Hc; zdm | reflexivity].
  - destruct (Hother Epg) as (Hz & Hw).
    destruct (Z_lt_dec ipa from) as [Hlo|Hlo];
      [|destruct (Z_lt_dec ipa (from + size)) as [Hhi|Hhi]].
    2: { destruct (Hw _ (Hin1 ipa ltac:(lia))) as (pte & Hpte & Hv & Htg).
         exists s2, pte. split; [exact Hrun|]. split; [exact Hpte|].
         split; [intros Hc; exfalso; apply Epg; zdm|].
         split; [|intros Hc; exfalso; apply Hc; lia].
         intros _ _. split; [exact Hv|]. rewrite Htg. zdm. }
    all: exists s2, 0; split; [exact Hrun|];
      (split; [apply Hz, Hout1; lia|]); (split; [reflexivity|]);
      (split; [intros Hc; lia | reflexivity]).
Qed.

Lemma unmap_page_of_hw_mapping_witness :
  exists (s2 : pt_state) (pte : Z),
    (hv_pt_init;; hv_map_hw 0x2000000 0x4000000 0x2000000;; hv_unmap 0x2004000 (2 ^ 14))
      (mk_pt [] ∅ 0x10000000) = Some (0, s2)
    /\ hv_pt_walk 0x2008010 s2 = Some pte
    /\ (0x2004000 <= 0x2008010 < 0x2004000 + 2 ^ 14 -> pte = 0)
    /\ (0x2000000 <= 0x2008010 < 0x2000000 + 0x2000000 ->
        ~ (0x2004000 <= 0x2008010 < 0x2004000 + 2 ^ 14) ->
        Z.land pte PTE_VALID = 1
        /\ Z.land pte PTE_TARGET_MASK
           = 0x4000000 + (0x2008010 - 0x2000000) - 0x2008010 mod 2 ^ 14)
    /\ (~ (0x2000000 <= 0x2008010 < 0x2000000 + 0x2000000) -> pte = 0).
Proof.
  apply (unmap_page_of_hw_mapping (mk_pt [] ∅ 0x10000000) 0x2000000 0x4000000 0x2000000
           0x2004000 0x2008010);
    try reflexivity; cbn [brk]; lia.
Defined.

(** ** Software mappings *)

Lemma sw_target_shape (to : Z) :
  to mod 2 ^ 14 = 0 -> 0 < to < 2 ^ 50 ->
  IS_SW to = true /\ IS_HW to = false
  /\ L3_IS_TABLE to = false /\ L3_IS_SW_BLOCK to = true.
Proof.
  intros Ha Hr.
  assert (Hsw : IS_SW to = true).
  { unfold IS_SW, nonzero. rewrite land_VALID. replace (to mod 2) with 0 by zdm.
    destruct (Z.eqb_spec to 0); [lia | reflexivity]. }
  split; [exact Hsw|]. split; [now apply IS_SW_not_HW|].
  unfold L3_IS_TABLE, L3_IS_SW_BLOCK. rewrite Hsw, FIELD_GET_TYPE, FIELD_GET_SPTE_TYPE.
  replace (to / 2 mod 2) with 0 by zdm. replace (to / 2 ^ 50 mod 2 ^ 3) with 0 by zdm.
  split; reflexivity.
Qed.

(** The walk through an L3 entry that is a software mapping: the entry,
    with the offset of the word in its page. *)
Lemma walk_sw_page (s : pt_state) (ipa p to : Z) (tb : list Z) :
  0 <= ipa ->
  hv_L2 s !! Z.to_nat (ipa / 2 ^ 25) = Some (p + 3) -> ptr_ok p ->
  tables s !! p = Some tb ->
  tb !! Z.to_nat ((ipa / 2 ^ 14) mod 2 ^ 11) = Some to ->
  to mod 2 ^ 14 = 0 -> 0 < to < 2 ^ 50 ->
  hv_pt_walk ipa s = Some (to + (ipa / 2 ^ 2) mod 2 ^ 12 * 2 ^ 2).
Proof.
  intros Hipa H Hp Htb He3 Ha Hr.
  destruct (sw_target_shape to Ha Hr) as (Hsw & Hhw & Hnt & Hblk).
  unfold hv_pt_walk. change VADDR_L2_OFFSET_BITS with 25.
  change VADDR_L3_OFFSET_BITS with 14. change VADDR_L3_INDEX_BITS with 11.
  rewrite !Z.shiftr_div_pow2 by lia. rewrite H.
  rewrite (tbl_entry_is_table p Hp), (tbl_entry_target p Hp). cbn [negb].
  rewrite Htb, land_low by lia. rewrite He3, Hnt, Hblk. cbn [negb]. cbv zeta.
  rewrite land_L3_ALIGN.
  assert (Hoff : 0 <= (ipa / 2 ^ 2) mod 2 ^ 12 * 2 ^ 2 < 2 ^ 14) by zdm.
  set (off := (ipa / 2 ^ 2) mod 2 ^ 12 * 2 ^ 2) in *.
  assert (E : Z.lor to off = to + off).
  { apply lor_disjoint. rewrite Z.land_comm.
    assert (Eq : to = to / 2 ^ 14 * 2 ^ 14) by zdm.
    rewrite Eq. apply land_lo_hi; lia. }
  rewrite E.
  assert (Hnhw : L3_IS_HW_BLOCK (to + off) = false).
  { unfold L3_IS_HW_BLOCK, IS_HW, nonzero. rewrite land_VALID.
    replace ((to + off) mod 2) with 0 by (unfold off; zdm).
    change (negb (0 =? 0)) with false. now rewrite andb_false_r. }
  now rewrite Hnhw.
Qed.

(** [hv_map_sw] of one page. *)
Lemma map_sw_page_spec (s : pt_state) (from to : Z) :
  pt_inv s -> from mod 2 ^ 14 = 0 -> 0 <= from < 2 ^ 36 ->
  to mod 2 ^ 14 = 0 -> 0 < to < 2 ^ 50 ->
  next_ptr s + 2 ^ 14 <= 2 ^ 50 ->
  exists s' : pt_state,
    hv_map_sw from to (2 ^ 14) s = Some (0, s')
    /\ forall ipa, 0 <= ipa < 2 ^ 36 ->
         (ipa / 2 ^ 14 = from / 2 ^ 14 ->
          hv_pt_walk ipa s' = Some (to + (ipa / 2 ^ 2) mod 2 ^ 12 * 2 ^ 2))
         /\ (ipa / 2 ^ 14 <> from / 2 ^ 14 ->
             (hv_pt_walk ipa s = Some 0 -> hv_pt_walk ipa s' = Some 0)
             /\ (forall tg, walks_to s ipa tg -> walks_to s' ipa tg)).
Proof.
  intros Hinv Hfa Hfrom Hta Hto Hroom.
  destruct (sw_target_shape to Hta Hto) as (Hsw & Hhw & _ & _).
  destruct (get_l3_any_spec s from Hinv Hfrom Hroom) as
    (q & s1 & tb & Hg & Hinv1 & HL2 & Hq & Ht & Hok & Hpres & _).
  set (j := Z.to_nat ((from / 2 ^ 14) mod 2 ^ 11)) in *.
  set (s2 := set_tables s1 (<[q := <[j := to]> tb]> (tables s1))).
  pose proof Hok as (Hlen & Hent).
  assert (Hj : (j < length tb)%nat) by (rewrite Hlen; unfold j; zdm).
  destruct (lookup_lt_is_Some_2 _ _ Hj) as (e3 & He3).
  assert (Hnt : L3_IS_TABLE e3 = false).
  { destruct (Hent _ _ He3) as [->|(tg & Hpg)];
      [reflexivity | now apply (hw_page_not_table e3 tg)]. }
  assert (Hl3 : hv_pt_map_l3 from to (2 ^ 14) 1 s = Some (tt, s2)).
  { unfold hv_pt_map_l3. change VADDR_L3_OFFSET_BITS with 14.
    rewrite !land_low by lia. rewrite Hfa, Hsw, Hhw.
    change (2 ^ 14 mod 2 ^ 14 =? 0) with true. change (0 =? 0) with true.
    cbn [orb]. cbv iota.
    change (FIELD_PREP PTE_TYPE PTE_BLOCK) with 0. rewrite Z.lor_0_r.
    change (Z.to_nat (Z.shiftr (2 ^ 14) 14)) with 1%nat.
    unfold pt_assert. unfold pt_bind at 1 2 3.
    cbn [hv_pt_map_l3_loop]. change (2 ^ 14 =? 0) with false. cbv iota.
    change VADDR_L3_OFFSET_BITS with 14. change VADDR_L3_INDEX_BITS with 11.
    rewrite Z.shiftr_div_pow2, land_low by lia.
    unfold pt_bind at 1. rewrite Hg.
    unfold pt_bind at 1. rewrite (tbl_load_eq q _ e3 tb) by (zdm || assumption).
    rewrite Hnt. unfold pt_bind at 1. unfold pt_ret at 1.
    unfold pt_bind at 1. rewrite (tbl_store_eq q _ _ tb) by (try assumption; rewrite Hlen; zdm).
    change (u64 (2 ^ 14 - BIT 14) =? 0) with true. cbv iota. reflexivity. }
  exists s2. split.
  - unfold hv_map_sw. change (FIELD_PREP SPTE_TYPE SPTE_MAP) with 0. rewrite Z.lor_0_r.
    unfold hv_map. rewrite Hhw.
    change VADDR_L4_OFFSET_BITS with 2. change VADDR_L3_OFFSET_BITS with 14.
    change VADDR_L2_OFFSET_BITS with 25.
    rewrite !land_low by lia.
    replace (from mod 2 ^ 2) with 0 by zdm. change (2 ^ 14 mod 2 ^ 2) with 0.
    change (nonzero 0) with false. cbn [orb andb negb]. cbv iota. cbv zeta.
    rewrite (ALIGN_UP_eq from 14) by lia.
    replace ((from + 2 ^ 14 - 1) / 2 ^ 14 * 2 ^ 14 - from) with 0 by zdm.
    change (u64 0) with 0. change (min (2 ^ 14) 0) with 0.
    change (nonzero 0) with false. cbv iota.
    unfold pt_bind at 1. unfold pt_ret at 1.
    rewrite (ALIGN_UP_eq from 25) by lia.
    set (d2 := (from + 2 ^ 25 - 1) / 2 ^ 25 * 2 ^ 25 - from).
    assert (Hd2 : 0 <= d2 < 2 ^ 25 /\ d2 mod 2 ^ 14 = 0) by (unfold d2; zdm).
    rewrite (u64_small d2) by lia. rewrite (min_eq (2 ^ 14) d2).
    rewrite (ALIGN_DOWN_eq (Z.min (2 ^ 14) d2) 14) by lia.
    destruct (Z.eq_dec d2 0) as [Ed|Ed].
    + rewrite Ed. change (Z.min (2 ^ 14) 0 / 2 ^ 14 * 2 ^ 14) with 0.
      change (nonzero 0) with false. cbv iota.
      unfold pt_bind at 1. unfold pt_ret at 1.
      change (ALIGN_DOWN (2 ^ 14) (MASK 25)) with 0. change (nonzero 0) with false.
      cbn [andb]. cbv iota.
      unfold pt_bind at 1. unfold pt_ret at 1.
      change (ALIGN_DOWN (2 ^ 14) (MASK 14)) with (2 ^ 14).
      change (nonzero (2 ^ 14)) with true. cbv iota.
      unfold pt_bind at 1. unfold pt_bind at 1. rewrite Hl3. unfold pt_ret at 1.
      change (u64 (2 ^ 14 - 2 ^ 14)) with 0. change (nonzero 0) with false. cbv iota.
      unfold pt_bind, pt_ret. reflexivity.
    + replace (Z.min (2 ^ 14) d2 / 2 ^ 14 * 2 ^ 14) with (2 ^ 14) by zdm.
      change (nonzero (2 ^ 14)) with true. cbv iota.
      unfold pt_bind at 1. unfold pt_bind at 1. rewrite Hl3. unfold pt_ret at 1.
      change (u64 (2 ^ 14 - 2 ^ 14)) with 0.
      change (ALIGN_DOWN 0 (MASK 25)) with 0. change (nonzero 0) with false.
      cbn [andb]. cbv iota.
      unfold pt_bind at 1. unfold pt_ret at 1.
      change (ALIGN_DOWN 0 (MASK 14)) with 0. change (nonzero 0) with false. cbv iota.
      unfold pt_bind, pt_ret. reflexivity.
  - intros ipa Hipa.
    assert (T : tables s2 !! q = Some (<[j := to]> tb))
      by (unfold s2; cbn [tables set_tables]; apply lookup_insert_eq).
    split.
    + intros Hpage.
      assert (E25 : ipa / 2 ^ 25 = from / 2 ^ 25) by zdm.
      apply (walk_sw_page s2 ipa q to (<[j := to]> tb)); try assumption; try lia.
      * unfold s2. cbn [hv_L2 set_tables]. now rewrite E25.
      * rewrite Hpage. fold j. now apply list_lookup_insert_eq.
    + intros Hpage.
      assert (Eq : hv_pt_walk ipa s2 = hv_pt_walk ipa s1).
      { apply walk_ext; [exact Hinv1 | exact Hipa | reflexivity |].
        intros r tr Hr Hro Hrt. unfold s2. cbn [tables set_tables].
        destruct (decide (r = q)) as [->|Hne].
        - rewrite lookup_insert_eq. eexists. split; [reflexivity|].
          assert (tr = tb) by congruence. subst tr.
          apply list_lookup_insert_ne. fold j.
          assert (Ei : Z.to_nat (ipa / 2 ^ 25) = Z.to_nat (from / 2 ^ 25)).
          { eapply (inv_inj s1 Hinv1); eauto. destruct Hq. zdm. }
          unfold j. intros Ej. apply Hpage.
          assert (ipa / 2 ^ 25 = from / 2 ^ 25) by zdm.
          assert ((from / 2 ^ 14) mod 2 ^ 11 = (ipa / 2 ^ 14) mod 2 ^ 11) by zdm.
          zdm.
        - rewrite lookup_insert_ne by congruence. exists tr. split; [exact Hrt | reflexivity]. }
      destruct (Hpres ipa Hipa) as (Hz & Hw). split.
      * intros H0. rewrite Eq. now apply Hz.
      * intros tg Htg. destruct (Hw tg Htg) as (pte & Hpte & Hgood).
        exists pte. split; [now rewrite Eq | exact Hgood].
Qed.

(** X25: A software mapping of one page on a fresh table: every word of the
    page walks to a software entry of kind MAP whose target is the
    physical address of that word, [to] plus the word's offset; every
    other IPA below 2^36 stays unmapped. *)
Theorem map_sw_page (s0 : pt_state) (from to ipa : Z) :
  0 <= brk s0 <= 2 ^ 49 ->
  from mod 2 ^ 14 = 0 -> 0 <= from < 2 ^ 36 ->
  to mod 2 ^ 14 = 0 -> 0 < to < 2 ^ 50 ->
  0 <= ipa < 2 ^ 36 ->
  exists (s1 : pt_state) (pte : Z),
    (hv_pt_init;; hv_map_sw from to (2 ^ 14)) s0 = Some (0, s1)
    /\ hv_pt_walk ipa s1 = Some pte
    /\ if (from <=? ipa) && (ipa <? from + 2 ^ 14)
       then IS_SW pte = true /\ FIELD_GET SPTE_TYPE pte = SPTE_MAP
            /\ Z.land pte PTE_TARGET_MASK_L4 = to + (ipa - from) - ipa mod 4
       else pte = 0.
Proof.
  intros Hb Hfa Hfrom Hta Hto Hipa.
  destruct (init_state_inv s0 Hb) as (s & Hi & Hinv & Hz & Hroom).
  destruct (map_sw_page_spec s from to Hinv Hfa Hfrom Hta Hto ltac:(lia)) as (s1 & Hm & Hwalk).
  destruct (Hwalk ipa Hipa) as (Hin & Hout).
  assert (Hrun : (hv_pt_init;; hv_map_sw from to (2 ^ 14)) s0 = Some (0, s1))
    by (unfold pt_bind; rewrite Hi; exact Hm).
  destruct (Z.leb_spec from ipa) as [Hlo|Hlo]; [destruct (Z.ltb_spec ipa (from + 2 ^ 14)) as [Hhi|Hhi]|];
    cbn [andb].
  - exists s1, (to + (ipa / 2 ^ 2) mod 2 ^ 12 * 2 ^ 2).
    split; [exact Hrun|]. split; [apply Hin; zdm|].
    set (off := (ipa / 2 ^ 2) mod 2 ^ 12 * 2 ^ 2).
    assert (Hoff : 0 <= off < 2 ^ 14 /\ off mod 4 = 0
                   /\ off = ipa - from - ipa mod 4) by (unfold off; zdm).
    split.
    { unfold IS_SW, nonzero. rewrite land_VALID.
      replace ((to + off) mod 2) with 0 by zdm.
      destruct (Z.eqb_spec (to + off) 0); [lia | reflexivity]. }
    split; [rewrite FIELD_GET_SPTE_TYPE; unfold SPTE_MAP; zdm|].
    change PTE_TARGET_MASK_L4 with (Z.shiftl (Z.ones 48) 2).
    rewrite land_field by lia. zdm.
  - exists s1, 0. split; [exact Hrun|]. split; [|reflexivity].
    apply Hout; [zdm | apply Hz, Hipa].
  - exists s1, 0. split; [exact Hrun|]. split; [|reflexivity].
    apply Hout; [zdm | apply Hz, Hipa].
Qed.

Lemma map_sw_page_witness :
  exists (s1 : pt_state) (pte : Z),
    (hv_pt_init;; hv_map_sw 0x500000 0x600000 (2 ^ 14)) (mk_pt [] ∅ 0x10000000)
    = Some (0, s1)
    /\ hv_pt_walk 0x500012 s1 = Some pte
    /\ if (0x500000 <=? 0x500012) && (0x500012 <? 0x500000 + 2 ^ 14)
       then IS_SW pte = true /\ FIELD_GET SPTE_TYPE pte = SPTE_MAP
            /\ Z.land pte PTE_TARGET_MASK_L4 = 0x600000 + (0x500012 - 0x500000) - 0x500012 mod 4
       else pte = 0.
Proof.
  apply (map_sw_page (mk_pt [] ∅ 0x10000000) 0x500000 0x600000 0x500012);
    try reflexivity; cbn [brk]; lia.
Defined.

Lemma sw_page_walk (s0 pt : pt_state) (from to ipa : Z) :
  0 <= brk s0 <= 2 ^ 49 ->
  from mod 2 ^ 14 = 0 -> 0 <= from < 2 ^ 36 ->
  to mod 2 ^ 14 = 0 -> 0 < to < 2 ^ 50 ->
  from <= ipa < from + 2 ^ 14 ->
  (hv_pt_init;; hv_map_sw from to (2 ^ 14)) s0 = Some (0, pt) ->
  hv_pt_walk ipa pt = Some (to + (ipa - from) - ipa mod 4).
Proof.
  intros Hb Hfa Hfrom Hta Hto Hipa Hrun.
  destruct (init_state_inv s0 Hb) as (s & Hi & Hinv & Hz & Hroom).
  destruct (map_sw_page_spec s from to Hinv Hfa Hfrom Hta Hto ltac:(lia)) as (s1 & Hm & Hwalk).
  unfold pt_bind in Hrun. rewrite Hi, Hm in Hrun. injection Hrun as <-.
  assert (H36 : 0 <= ipa < 2 ^ 36) by zdm.
  destruct (Hwalk ipa H36) as (Hin & _). rewrite Hin by zdm.
  f_equal. zdm.
Qed.

Lemma sw_pte_facts (to off far : Z) :
  to mod 2 ^ 14 = 0 -> 0 < to < 2 ^ 50 -> 0 <= off < 2 ^ 14 -> off mod 4 = 0 ->
  let pte := to + off in
  (pte =? 0) = false /\ IS_HW pte = false
  /\ nonzero (Z.land pte SPTE_TRACE_WRITE) = false
  /\ nonzero (Z.land pte SPTE_TRACE_READ) = false
  /\ FIELD_GET SPTE_TYPE pte = SPTE_MAP
  /\ Z.lor (Z.land pte PTE_TARGET_MASK_L4) (Z.land far (MASK VADDR_L4_OFFSET_BITS))
     = pte + far mod 4.
Proof.
  intros Ha Hr Ho Ho4 pte.
  assert (Hp : 0 < pte < 2 ^ 50 /\ pte mod 4 = 0) by (unfold pte; zdm).
  split; [apply Z.eqb_neq; lia|].
  split.
  { unfold IS_HW, nonzero. rewrite land_VALID. replace (pte mod 2) with 0 by zdm.
    now rewrite andb_false_r. }
  split.
  { unfold nonzero. change SPTE_TRACE_WRITE with (Z.shiftl (Z.ones 1) 62).
    rewrite land_field by lia. replace (pte / 2 ^ 62 mod 2 ^ 1 * 2 ^ 62) with 0 by zdm.
    reflexivity. }
  split.
  { unfold nonzero. change SPTE_TRACE_READ with (Z.shiftl (Z.ones 1) 63).
    rewrite land_field by lia. replace (pte / 2 ^ 63 mod 2 ^ 1 * 2 ^ 63) with 0 by zdm.
    reflexivity. }
  split; [rewrite FIELD_GET_SPTE_TYPE; unfold SPTE_MAP; zdm|].
  change PTE_TARGET_MASK_L4 with (Z.shiftl (Z.ones 48) 2).
  change VADDR_L4_OFFSET_BITS with 2.
  rewrite land_field, land_low by lia.
  replace (pte / 2 ^ 2 mod 2 ^ 48 * 2 ^ 2) with pte by zdm.
  change (2 ^ 2) with 4.
  apply lor_disjoint. rewrite Z.land_comm.
  assert (Eq : pte = pte / 2 ^ 2 * 2 ^ 2) by zdm.
  rewrite Eq. apply land_lo_hi; [lia|]. change (2 ^ 2) with 4. zdm.
Qed.

(** X26: A guest store into a page mapped with [hv_map_sw] is forwarded to the
    target page at the same offset: when the instruction is one the store
    emulation accepts, the handler performs exactly one write, of the
    stored value truncated to the access size, at [to + (ipa - from)],
    writes ELR, and returns true.  The stage-1 translation is taken to
    keep the offset within the word. *)
Theorem sw_map_store_forwarded (env : hv_env) (s0 pt : pt_state)
  (from to iodev esr far elr val width : Z) (regs regs1 : gmap Z Z) :
  let ipa := hv_translate env far true true in
  let insn := u32 (read32 env (hv_translate env elr false false)) in
  0 <= brk s0 <= 2 ^ 49 ->
  from mod 2 ^ 14 = 0 -> 0 <= from < 2 ^ 36 ->
  to mod 2 ^ 14 = 0 -> 0 < to < 2 ^ 50 ->
  (hv_pt_init;; hv_map_sw from to (2 ^ 14)) s0 = Some (0, pt) ->
  nonzero (Z.land esr ESR_ISS_DABORT_WnR) = true ->
  from <= ipa < from + 2 ^ 14 -> 0 < ipa -> far mod 4 = ipa mod 4 ->
  hv_translate env elr false false <> 0 ->
  emulate_store regs insn 0 = (true, regs1, val, width) ->
  hv_handle_dabort env pt iodev esr far elr regs
  = Some (true, regs1,
          [MmioWrite width (to + (ipa - from)) (trunc_width width val);
           MsrElr (u64 (elr + 4))]).
Proof.
  intros ipa insn Hb Hfa Hfrom Hta Hto Hrun Hwnr Hipa Hnz Hfar Helr Hst.
  pose proof (sw_page_walk s0 pt from to ipa Hb Hfa Hfrom Hta Hto Hipa Hrun) as Hwalk.
  set (off := ipa - from - ipa mod 4).
  assert (Hoff : 0 <= off < 2 ^ 14 /\ off mod 4 = 0) by (unfold off; zdm).
  destruct (sw_pte_facts to off far Hta Hto) as (Hp0 & Hhw & Htw & _ & Hty & Hpa);
    [tauto | tauto |].
  replace (to + (ipa - from) - ipa mod 4) with (to + off) in Hwalk by (unfold off; lia).
  unfold hv_handle_dabort. rewrite Hwnr. fold ipa insn. rewrite Hwalk.
  destruct (Z.eqb_spec ipa 0) as [E|_]; [lia|].
  change (BIT VADDR_BITS) with (2 ^ 36).
  destruct (Z.leb_spec (2 ^ 36) ipa) as [E|_]; [zdm|].
  rewrite Hp0, Hhw.
  destruct (Z.eqb_spec (hv_translate env elr false false) 0) as [E|_]; [contradiction|].
  rewrite Hst. cbn [negb]. cbv iota.
  unfold trace_effects. rewrite Htw, Hty.
  change (SPTE_MAP =? SPTE_PROXY_HOOK_R) with false.
  change (SPTE_MAP =? SPTE_MAP) with true. cbn [orb]. cbv iota.
  rewrite Hpa, Hfar. cbn [app].
  replace (to + off + ipa mod 4) with (to + (ipa - from)) by (unfold off; lia).
  reflexivity.
Qed.

Lemma sw_map_store_forwarded_witness :
  let env := demo_hv_env 0x79000001 in             (* strh w1, [x0] *)
  let s0 := mk_pt [] ∅ 0x10000000 in
  let pt := default s0 (pt_after (hv_map_sw 0x500000 0x600000 (2 ^ 14))) in
  let regs : gmap Z Z := {[ 0 := 0x500012; 1 := 0x1234 ]} in
  hv_handle_dabort env pt 0 0x40 0x500012 0x80000 regs
  = Some (true, regs,
          [MmioWrite 1 (0x600000 + (0x500012 - 0x500000)) (trunc_width 1 0x1234);
           MsrElr (u64 (0x80000 + 4))]).
Proof.
  intros env s0 pt regs.
  apply (sw_map_store_forwarded env s0 pt 0x500000 0x600000 0 0x40 0x500012 0x80000
           0x1234 1 regs regs);
    try (vm_compute; reflexivity); try (vm_compute; discriminate);
    try (cbn [brk s0]; lia).
  vm_compute. split; [discriminate | reflexivity].
Defined.

(** X27: A guest load from a page mapped with [hv_map_sw] reads the target
    page at the same offset: when the instruction is one the load
    emulation accepts, the handler performs exactly one read of device
    memory, at [to + (ipa - from)], hands the value read, truncated to the
    access size, to the second pass of the load emulation, writes ELR,
    and returns true. *)
Theorem sw_map_load_forwarded (env : hv_env) (s0 pt : pt_state)
  (from to iodev esr far elr : Z) (regs : gmap Z Z) :
  let ipa := hv_translate env far true false in
  let insn := u32 (read32 env (hv_translate env elr false false)) in
  let width := Z.shiftr insn 30 in
  let paddr := to + (ipa - from) in
  let val := trunc_width width (mmio_read env width paddr) in
  0 <= brk s0 <= 2 ^ 49 ->
  from mod 2 ^ 14 = 0 -> 0 <= from < 2 ^ 36 ->
  to mod 2 ^ 14 = 0 -> 0 < to < 2 ^ 50 ->
  (hv_pt_init;; hv_map_sw from to (2 ^ 14)) s0 = Some (0, pt) ->
  nonzero (Z.land esr ESR_ISS_DABORT_WnR) = false ->
  from <= ipa < from + 2 ^ 14 -> 0 < ipa -> far mod 4 = ipa mod 4 ->
  hv_translate env elr false false <> 0 ->
  (emulate_load regs insn None).1.1 = true ->
  hv_handle_dabort env pt iodev esr far elr regs
  = Some (true, (emulate_load regs insn (Some val)).1.2,
          [MmioRead width paddr; MsrElr (u64 (elr + 4))]).
Proof.
  intros ipa insn width paddr val Hb Hfa Hfrom Hta Hto Hrun Hwnr Hipa Hnz Hfar Helr Hld.
  pose proof (sw_page_walk s0 pt from to ipa Hb Hfa Hfrom Hta Hto Hipa Hrun) as Hwalk.
  set (off := ipa - from - ipa mod 4).
  assert (Hoff : 0 <= off < 2 ^ 14 /\ off mod 4 = 0) by (unfold off; zdm).
  destruct (sw_pte_facts to off far Hta Hto) as (Hp0 & Hhw & _ & Htr & Hty & Hpa);
    [tauto | tauto |].
  replace (to + (ipa - from) - ipa mod 4) with (to + off) in Hwalk by (unfold off; lia).
  assert (Epa : to + off + far mod 4 = paddr) by (rewrite Hfar; unfold paddr, off; lia).
  unfold hv_handle_dabort. rewrite Hwnr. fold ipa insn. rewrite Hwalk.
  destruct (Z.eqb_spec ipa 0) as [E|_]; [lia|].
  change (BIT VADDR_BITS) with (2 ^ 36).
  destruct (Z.leb_spec (2 ^ 36) ipa) as [E|_]; [zdm|].
  rewrite Hp0, Hhw.
  destruct (Z.eqb_spec (hv_translate env elr false false) 0) as [E|_]; [contradiction|].
  pose proof (emulate_load_success_independent regs regs insn val Hld) as H2.
  pose proof (emulate_load_width regs insn None) as Hw0.
  pose proof (emulate_load_none_regs regs insn) as Hr0.
  destruct (emulate_load regs insn None) as [[ok0 regs0] w0].
  cbn [fst snd] in Hw0, Hr0, Hld. fold width in Hw0. subst w0 regs0 ok0.
  cbn [negb]. cbv iota.
  unfold trace_effects. rewrite Htr, Hty.
  change (SPTE_MAP =? SPTE_PROXY_HOOK_W) with false.
  change (SPTE_MAP =? SPTE_MAP) with true. cbn [orb]. cbv iota.
  rewrite Hpa, Epa. fold val.
  destruct (emulate_load regs insn (Some val)) as [[ok1 regs1] w1].
  cbn [fst snd] in H2 |- *. subst ok1. cbn [negb]. cbv iota. reflexivity.
Qed.

Lemma sw_map_load_forwarded_witness :
  let env := demo_hv_env 0xB9400001 in             (* ldr w1, [x0] *)
  let s0 := mk_pt [] ∅ 0x10000000 in
  let pt := default s0 (pt_after (hv_map_sw 0x500000 0x600000 (2 ^ 14))) in
  let regs : gmap Z Z := {[ 0 := 0x500014 ]} in
  hv_handle_dabort env pt 0 0 0x500014 0x80000 regs
  = Some (true,
          (emulate_load regs 0xB9400001
             (Some (trunc_width 2 (mmio_read env 2 (0x600000 + (0x500014 - 0x500000)))))).1.2,
          [MmioRead 2 (0x600000 + (0x500014 - 0x500000)); MsrElr (u64 (0x80000 + 4))]).
Proof.
  intros env s0 pt regs.
  apply (sw_map_load_forwarded env s0 pt 0x500000 0x600000 0 0 0x500014 0x80000 regs);
    try (vm_compute; reflexivity); try (vm_compute; discriminate);
    try (cbn [brk s0]; lia).
  vm_compute. split; [discriminate | reflexivity].
Defined.

(** ** Freeing an L3 table *)

Lemma l3_tables_dec (q : Z) (tb : list Z) :
  (exists e, e ∈ tb /\ L3_IS_TABLE e = true /\ Z.land e PTE_TARGET_MASK = q)
  \/ (forall e, e ∈ tb -> L3_IS_TABLE e = true -> Z.land e PTE_TARGET_MASK <> q).
Proof.
  induction tb as [|x tb IH].
  - right. intros e He. now apply elem_of_nil in He.
  - destruct IH as [(e & He & H)|H].
    + left. exists e. split; [apply elem_of_cons; now right | exact H].
    + destruct (L3_IS_TABLE x) eqn:Hx;
        [destruct (Z.eq_dec (Z.land x PTE_TARGET_MASK) q) as [E|E]|].
      * left. exists x. split; [apply elem_of_cons; now left | auto].
      * right. intros e He Ht. apply elem_of_cons in He.
        destruct He as [->|He]; [exact E | now apply H].
      * right. intros e He Ht. apply elem_of_cons in He.
        destruct He as [->|He]; [congruence | now apply H].
Qed.

Lemma free_l3_entries_spec (tb : list Z) :
  forall s : pt_state,
  exists s' : pt_state,
    free_l3_entries tb s = Some (tt, s')
    /\ hv_L2 s' = hv_L2 s /\ brk s' = brk s
    /\ forall q : Z,
         ((exists e, e ∈ tb /\ L3_IS_TABLE e = true /\ Z.land e PTE_TARGET_MASK = q) ->
          tables s' !! q = None)
         /\ ((forall e, e ∈ tb -> L3_IS_TABLE e = true -> Z.land e PTE_TARGET_MASK <> q) ->
             tables s' !! q = tables s !! q).
Proof.
  induction tb as [|e tb IH]; intros s.
  - exists s. split; [reflexivity|]. split; [reflexivity|]. split; [reflexivity|].
    intros q. split; [|reflexivity].
    intros (e & He & _). now apply elem_of_nil in He.
  - cbn [free_l3_entries]. unfold pt_bind at 1.
    change (IS_SW e && (FIELD_GET PTE_TYPE e =? PTE_TABLE)) with (L3_IS_TABLE e).
    set (s1 := if L3_IS_TABLE e
               then set_tables s (delete (Z.land e PTE_TARGET_MASK) (tables s)) else s).
    assert (E1 : (if L3_IS_TABLE e then free (Z.land e PTE_TARGET_MASK) else pt_ret tt) s
                 = Some (tt, s1)) by (unfold s1; destruct (L3_IS_TABLE e); reflexivity).
    rewrite E1.
    destruct (IH s1) as (s' & Hf & HL & Hb & Hq).
    exists s'. split; [exact Hf|].
    split; [rewrite HL; unfold s1; destruct (L3_IS_TABLE e); reflexivity|].
    split; [rewrite Hb; unfold s1; destruct (L3_IS_TABLE e); reflexivity|].
    intros q. destruct (Hq q) as (Hin & Hout). split.
    + intros (e' & He' & Ht' & Eq').
      destruct (l3_tables_dec q tb) as [Htl|Htl]; [now apply Hin|].
      apply elem_of_cons in He'. destruct He' as [->|He'].
      * rewrite (Hout Htl). unfold s1. rewrite Ht'. cbn [tables set_tables].
        rewrite <- Eq'. apply lookup_delete_eq.
      * exfalso. exact (Htl e' He' Ht' Eq').
    + intros Hno. rewrite Hout.
      * unfold s1. destruct (L3_IS_TABLE e) eqn:Ht; [|reflexivity].
        cbn [tables set_tables]. apply lookup_delete_ne.
        apply (Hno e); [apply elem_of_cons; now left | exact Ht].
      * intros e2 He2. apply Hno. apply elem_of_cons. now right.
Qed.

(** X28: [hv_pt_free_l3] does nothing for a null pointer; otherwise it frees
    the L3 table and every sub-page table that one of its entries points
    to, and nothing else: every other table stays allocated, and the root
    array and the allocator are untouched. *)
Theorem free_l3_frees_subtables (l3 : Z) (tb : list Z) (s : pt_state) :
  l3 = 0 \/ tables s !! l3 = Some tb ->
  exists s' : pt_state,
    hv_pt_free_l3 l3 s = Some (tt, s')
    /\ hv_L2 s' = hv_L2 s /\ brk s' = brk s
    /\ if l3 =? 0 then s' = s
       else forall q : Z,
           (q = l3 \/ (exists e, e ∈ tb /\ L3_IS_TABLE e = true
                                 /\ Z.land e PTE_TARGET_MASK = q) ->
            tables s' !! q = None)
           /\ (q <> l3 ->
               (forall e, e ∈ tb -> L3_IS_TABLE e = true -> Z.land e PTE_TARGET_MASK <> q) ->
               tables s' !! q = tables s !! q).
Proof.
  intros H. unfold hv_pt_free_l3.
  destruct (Z.eqb_spec l3 0) as [E|E].
  - exists s. repeat split; reflexivity.
  - destruct H as [H|H]; [contradiction|]. rewrite H.
    destruct (free_l3_entries_spec tb s) as (s1 & Hf & HL & Hb & Hq).
    unfold pt_bind. rewrite Hf.
    exists (set_tables s1 (delete l3 (tables s1))).
    split; [reflexivity|]. split; [exact HL|]. split; [exact Hb|].
    intros q. destruct (Hq q) as (Hin & Hout). split.
    + intros [->|Hex]; cbn [tables set_tables]; [apply lookup_delete_eq|].
      destruct (Z.eq_dec q l3) as [->|Hne]; [apply lookup_delete_eq|].
      rewrite lookup_delete_ne by congruence. now apply Hin.
    + intros Hne Hno. cbn [tables set_tables].
      rewrite lookup_delete_ne by congruence. now apply Hout.
Qed.

Lemma free_l3_frees_subtables_witness :
  let s := mk_pt [] {[ 0x4000 := [0; 0x8002; 0xC7FF]; 0x8000 := [7]; 0xC000 := [9] ]}
             0x10000 in
  exists s' : pt_state,
    hv_pt_free_l3 0x4000 s = Some (tt, s')
    /\ hv_L2 s' = hv_L2 s /\ brk s' = brk s
    /\ if 0x4000 =? 0 then s' = s
       else forall q : Z,
           (q = 0x4000 \/ (exists e, e ∈ [0; 0x8002; 0xC7FF] /\ L3_IS_TABLE e = true
                                     /\ Z.land e PTE_TARGET_MASK = q) ->
            tables s' !! q = None)
           /\ (q <> 0x4000 ->
               (forall e, e ∈ [0; 0x8002; 0xC7FF] -> L3_IS_TABLE e = true ->
                          Z.land e PTE_TARGET_MASK <> q) ->
               tables s' !! q = tables s !! q).
Proof.
  intros s. apply (free_l3_frees_subtables 0x4000 [0; 0x8002; 0xC7FF] s).
  right. vm_compute. reflexivity.
Defined.

(** ** Leaving the proxy *)

(** X29: A PROXY request is handed to the RPC layer with the device bound; the
    reply has status OK and carries the RPC reply.  When the RPC layer
    returns a non-zero value, [uartproxy_run] returns that value, after
    the reply has been written. *)
Theorem run_returns_proxy_result (env : up_env) (fuel : nat) (msg frame rest : list byte)
  (s : up_state) :
  let dev := uartproxy_iodev s in
  valid_request REQ_PROXY frame ->
  rx_of s dev = frame ++ rest ->
  0 <= buffer_of s dev < 2 ^ 32 ->
  Z.shiftr (buffer_of s dev) 8 <> 0xAA55FF ->
  exists s1 : up_state,
    rx_of s1 dev = rest
    /\ uartproxy_iodev s1 = dev
    /\ mem s1 = mem s
    /\ trace s1 = trace s ++ [IoWrite dev (reply_bytes REQ_BOOT 0 msg)]
    /\ forall (ret : Z) (preply : list byte) (s2 : up_state),
         proxy_process env (take 56 (drop 4 frame)) s1 = (ret, preply, s2) ->
         ret <> 0 ->
         uartproxy_run env (S fuel) (Some msg) s
         = Returned ret (iodev_write dev (reply_bytes REQ_PROXY ST_OK preply) s2).
Proof.
  intros dev (Hlen & Htype & Hsum) Hrx Hbuf Hnosync.
  destruct frame as [|b0 [|b1 [|b2 [|t3 body]]]]; try discriminate.
  injection Htype as -> -> -> ->.
  assert (Hbody : length body = 60%nat) by (simpl in Hlen; lia).
  set (sb := iodev_write dev (reply_bytes REQ_BOOT 0 msg) s).
  set (sa := set_buffer (set_rx sb (<[dev := body ++ rest]> (rx sb)))
               (<[dev := REQ_PROXY]> (iodev_proxy_buffer sb))).
  set (s1 := set_iodev (iodev_read dev (REQ_SIZE - 4) sa).2 dev).
  assert (Hrx1 : rx_of sa dev = body ++ rest) by apply rx_of_set.
  assert (Hb1 : buffer_of sa dev = REQ_PROXY) by apply buffer_of_set.
  exists s1. split.
  { unfold s1, rx_of, iodev_read. cbn. rewrite lookup_insert_eq. cbn.
    fold (rx_of sa dev). rewrite Hrx1.
    change (Z.to_nat (REQ_SIZE - 4)) with 60%nat. now apply drop_app_length'. }
  split; [reflexivity|]. split; [reflexivity|]. split; [reflexivity|].
  intros ret preply s2 Hpp Hret.
  unfold uartproxy_run. fold dev sb. cbn [uartproxy_loop].
  unfold uartproxy_iteration, sync_current.
  change (buffer_of sb dev) with (buffer_of s dev).
  change (rx_of sb dev) with (rx_of s dev).
  rewrite Hrx. cbn [app]. rewrite sync_scan_frame by assumption.
  match goal with
  | |- context [uartproxy_request env dev ?st] => change st with sa
  end.
  assert (Htake : take 60 (rx_of sa dev) = body)
    by (rewrite Hrx1; now apply take_app_length').
  assert (Hreq : uartproxy_request env dev sa
                 = Some (Exit ret, iodev_write dev (reply_bytes REQ_PROXY ST_OK preply) s2)).
  { assert (Hl : length (take 60 (rx_of sa dev)) = 60%nat) by (now rewrite Htake).
    assert (Hs : checksum (le_bytes 4 (buffer_of sa dev) ++ req_payload (take 60 (rx_of sa dev)))
                 = req_checksum (take 60 (rx_of sa dev))).
    { rewrite Htake, Hb1. exact Hsum. }
    request_accept Hl Hs. rewrite Hb1.
    change (REQ_PROXY =? REQ_NOP) with false.
    change (REQ_PROXY =? REQ_PROXY) with true. cbv iota.
    rewrite Htake. unfold req_payload.
    assert (Hpp' : proxy_process env (take 56 body) s1 = (ret, preply, s2)) by exact Hpp.
    change (set_iodev (set_rx sa (<[dev := drop 60 (rx_of sa dev)]> (rx sa))) dev) with s1.
    rewrite Hpp'. change (REQ_PROXY =? REQ_MEMREAD) with false. cbn [andb]. cbv iota.
    destruct (Z.eqb_spec ret 0); [contradiction | reflexivity]. }
  rewrite Hreq. reflexivity.
Qed.

Lemma run_returns_proxy_result_witness :
  let env := mk_up_env 0 4 (fun _ s => (7, [x2a], s)) (fun _ _ => 0) in
  let s := mk_up {[ 3 := mk_request REQ_PROXY [x01] ++ [x77] ]} [] ∅ ∅ 3 in
  exists s1 : up_state,
    rx_of s1 3 = [x77]
    /\ uartproxy_iodev s1 = 3
    /\ mem s1 = mem s
    /\ trace s1 = trace s ++ [IoWrite 3 (reply_bytes REQ_BOOT 0 [])]
    /\ forall (ret : Z) (preply : list byte) (s2 : up_state),
         proxy_process env (take 56 (drop 4 (mk_request REQ_PROXY [x01]))) s1
         = (ret, preply, s2) ->
         ret <> 0 ->
         uartproxy_run env 1 (Some []) s
         = Returned ret (iodev_write 3 (reply_bytes REQ_PROXY ST_OK preply) s2).
Proof.
  intros env s.
  apply (run_returns_proxy_result env 0 [] (mk_request REQ_PROXY [x01]) [x77] s).
  - vm_compute. repeat split; reflexivity.
  - vm_compute. reflexivity.
  - change (buffer_of s (uartproxy_iodev s)) with 0. lia.
  - vm_compute. discriminate.
Defined.
